(** * augment_markdown.py: heading detection, breadcrumb tracking and
      metadata injection

    A shallow embedding of [src/augment_markdown.py] and the properties of
    its heading classifier, level resolver, breadcrumb tracker and document
    rewriter.

    Data model.  A Python [str] is modelled as a list of characters
    ([str := list ascii]); a character stands for the code point of the same
    number, so the model covers the strings whose code points are below 256.
    The character classes of the regular expressions and of the [str]
    methods are the ones Python uses on those code points:

    - [\s], [str.strip], [str.split], [str.isspace]: code points 9-13,
      28-32, 133 and 160;
    - [\d]: the ten digits 48-57;
    - [str.splitlines]: line boundaries 10-13, 28-30 and 133, with CR LF
      taken as one boundary;
    - [str.lower]: 65-90 and 192-222 (215 apart) move up by 32.

    Levels and indices are [nat]; Python's [None] result is [option]. *)

From Stdlib Require Import Ascii String.
From Stdlib Require Import Bool Arith NArith Lia List.
Import ListNotations.

Local Open Scope list_scope.
Local Open Scope bool_scope.

(* ================================================================== *)
(** ** Characters and strings *)
(* ================================================================== *)

Abbreviation str := (list ascii).

(** Literals: [lit "abc"] is the Python literal ['abc']. *)
Definition lit (s : string) : str := list_ascii_of_string s.

Definition code (c : ascii) : N := N_of_ascii c.

Definition in_range (lo hi : N) (c : ascii) : bool :=
  (N.leb lo (code c)) && (N.leb (code c) hi).

Definition is_code (n : N) (c : ascii) : bool := N.eqb (code c) n.

Definition LF : ascii := ascii_of_N 10.
Definition CR : ascii := ascii_of_N 13.
Definition SP : ascii := ascii_of_N 32.

(** Unicode white space below 256 ([Py_UNICODE_ISSPACE]). *)
Definition is_space (c : ascii) : bool :=
  in_range 9 13 c || in_range 28 32 c || is_code 133 c || is_code 160 c.

(** Unicode decimal digits below 256. *)
Definition is_digit (c : ascii) : bool := in_range 48 57 c.

(** [[A-Z]] and [[a-zA-Z]]. *)
Definition is_upper (c : ascii) : bool := in_range 65 90 c.
Definition is_alpha (c : ascii) : bool := in_range 97 122 c || is_upper c.

(** The line boundaries of [str.splitlines] below 256. *)
Definition is_linebreak (c : ascii) : bool :=
  in_range 10 13 c || in_range 28 30 c || is_code 133 c.

Definition chr_eqb (a b : ascii) : bool := Ascii.eqb a b.

Fixpoint str_eqb (a b : str) : bool :=
  match a, b with
  | [], [] => true
  | x :: a', y :: b' => chr_eqb x y && str_eqb a' b'
  | _, _ => false
  end.

(** Python truthiness of a string or of a list: non-empty. *)
Definition truthy {A} (l : list A) : bool :=
  match l with [] => false | _ :: _ => true end.

(** [s.startswith(p)] *)
Fixpoint startswith (s p : str) {struct p} : bool :=
  match p, s with
  | [], _ => true
  | _ :: _, [] => false
  | x :: p', y :: s' => chr_eqb x y && startswith s' p'
  end.

(** [p in s] for strings: [p] occurs as a substring of [s]. *)
Fixpoint contains (s p : str) : bool :=
  startswith s p ||
  match s with
  | [] => false
  | _ :: s' => contains s' p
  end.

Fixpoint drop_while (p : ascii -> bool) (s : str) : str :=
  match s with
  | [] => []
  | c :: s' => if p c then drop_while p s' else s
  end.

(** [s.lstrip()], [s.rstrip()], [s.strip()] and [s.rstrip(':')]. *)
Definition lstrip (s : str) : str := drop_while is_space s.
Definition rstrip (s : str) : str := rev (drop_while is_space (rev s)).
Definition strip (s : str) : str := rstrip (lstrip s).
Definition rstrip_chr (c : ascii) (s : str) : str :=
  rev (drop_while (chr_eqb c) (rev s)).

(** [s.lower()] *)
Definition lower_chr (c : ascii) : ascii :=
  if is_upper c || (in_range 192 222 c && negb (is_code 215 c))
  then ascii_of_N (code c + 32) else c.
Definition lower (s : str) : str := map lower_chr s.

(** [sep.join(parts)] *)
Fixpoint join (sep : str) (parts : list str) : str :=
  match parts with
  | [] => []
  | [x] => x
  | x :: rest => x ++ sep ++ join sep rest
  end.

(** [s.split()]: the maximal runs of characters that are not white space. *)
Fixpoint split (s : str) : list str :=
  match s with
  | [] => []
  | c :: s' =>
      if is_space c then split s'
      else match s' with
           | [] => [[c]]
           | c' :: _ =>
               if is_space c' then [c] :: split s'
               else match split s' with
                    | t :: ts => (c :: t) :: ts
                    | [] => [[c]]
                    end
           end
  end.

(** [s.splitlines()]: no line for the empty string, no extra line after a
    final line boundary, CR LF is one boundary. *)
Fixpoint splitlines (s : str) : list str :=
  match s with
  | [] => []
  | c :: s' =>
      if is_linebreak c then
        match s' with
        | c2 :: s'' =>
            if chr_eqb c CR && chr_eqb c2 LF
            then [] :: splitlines s''
            else [] :: splitlines s'
        | [] => [[]]
        end
      else match splitlines s' with
           | l :: ls => (c :: l) :: ls
           | [] => [[c]]
           end
  end.

(** ['#' * n] *)
Definition hashes (n : nat) : str := repeat "#"%char n.

(* ================================================================== *)
(** ** Regular expressions

    Every pattern of the program is an anchored sequence [^ x1 x2 ... xn $]
    of greedy repetitions [c{lo,hi}] of one character class.  [match_items]
    is the backtracking matcher of [re.match] on such sequences: each item
    first takes the longest run it can (at most [hi] characters) and gives
    back one character at a time, down to [lo], while the rest of the
    pattern fails.  The result lists the text taken by each item.  The final
    [$] holds at the end of the string and just before a final line feed.
    The patterns below are written with a blank between the items. *)
(* ================================================================== *)

Record item := Item { cls : ascii -> bool; lo : nat; hi : option nat }.

Definition one (c : ascii) : item := Item (chr_eqb c) 1 (Some 1).
Definition many (p : ascii -> bool) (n : nat) : item := Item p n None.
Definition upto (p : ascii -> bool) (n m : nat) : item := Item p n (Some m).

Fixpoint run_length (p : ascii -> bool) (s : str) : nat :=
  match s with
  | c :: s' => if p c then S (run_length p s') else 0
  | [] => 0
  end.

Definition greedy (it : item) (s : str) : nat :=
  match hi it with
  | Some m => Nat.min m (run_length (cls it) s)
  | None => run_length (cls it) s
  end.

Section Backtrack.
Context {A : Type} (attempt : nat -> option A) (least : nat).

Fixpoint backtrack (k : nat) : option A :=
  if k <? least then None
  else match attempt k with
       | Some r => Some r
       | None => match k with
                 | 0 => None
                 | S k' => backtrack k'
                 end
       end.

End Backtrack.

Definition at_dollar (s : str) : bool :=
  match s with
  | [] => true
  | [c] => chr_eqb c LF
  | _ => false
  end.

Fixpoint match_items (items : list item) (s : str) : option (list str) :=
  match items with
  | [] => if at_dollar s then Some [] else None
  | it :: rest =>
      backtrack
        (fun k => option_map (cons (firstn k s)) (match_items rest (skipn k s)))
        (lo it) (greedy it s)
  end.

(** The text of the items [from .. from+len-1]: a capture group. *)
Definition pieces (m : list str) (from len : nat) : str :=
  concat (firstn len (skipn from m)).

Definition any_chr (c : ascii) : bool := negb (chr_eqb c LF).   (* "." *)
Definition not_star (c : ascii) : bool := negb (chr_eqb c "*"). (* "[^*]" *)
Definition alpha_space (c : ascii) : bool := is_alpha c || is_space c.
Definition upper_space (c : ascii) : bool := is_upper c || is_space c.

(** HEADING_RE:  ^ ( #{1,6} ) \s+ ( .* ) $  *)
Definition HEADING_RE : list item :=
  [upto (chr_eqb "#") 1 6; many is_space 1; many any_chr 0].
(** BOLD_HEADING_RE:  ^ \* \* ( [^*]+ ) \* \* \s* $  *)
Definition BOLD_HEADING_RE : list item :=
  [one "*"; one "*"; many not_star 1; one "*"; one "*"; many is_space 0].
(** COLON_HEADING_RE:  ^ ( [A-Z] [a-zA-Z\s]{3,} ) : \s* $  *)
Definition COLON_HEADING_RE : list item :=
  [upto is_upper 1 1; many alpha_space 3; one ":"; many is_space 0].
(** DATE_HEADING_RE:  ^ ( 2 0 \d{2} \s+ \d{2} \s+ \d{2} ) $  *)
Definition DATE_HEADING_RE : list item :=
  [one "2"; one "0"; upto is_digit 2 2; many is_space 1; upto is_digit 2 2;
   many is_space 1; upto is_digit 2 2].
(** NUMBERED_HEADING_RE:  ^ ( \d{1,2} ) \. \s+ ( [A-Z] [a-zA-Z\s]{3,} ) $  *)
Definition NUMBERED_HEADING_RE : list item :=
  [upto is_digit 1 2; one "."; many is_space 1; upto is_upper 1 1;
   many alpha_space 3].
(** ALLCAPS_HEADING_RE:  ^ ( [A-Z] [A-Z\s]{8,} ) $  *)
Definition ALLCAPS_HEADING_RE : list item :=
  [upto is_upper 1 1; many upper_space 8].

(* ================================================================== *)
(** ** check_header_patterns *)
(* ================================================================== *)

Inductive pattern_type := markdown | bold | colon | date | numbered | allcaps.

Definition pattern_type_eqb (a b : pattern_type) : bool :=
  match a, b with
  | markdown, markdown | bold, bold | colon, colon
  | date, date | numbered, numbered | allcaps, allcaps => true
  | _, _ => false
  end.

(** A classified line: [(pattern_type, heading_text, match)]; the match
    object is the list of the texts taken by the items of the pattern. *)
Definition header_info := (pattern_type * str * list str)%type.

Definition common_non_headers : list str :=
  [lit "TASK"; lit "TODO"; lit "NOTE"; lit "IMPORTANT"; lit "WARNING";
   lit "ERROR"].

Definition check_header_patterns (line : str) : option header_info :=
  match match_items HEADING_RE line with
  | Some m => Some (markdown, strip (pieces m 2 1), m)
  | None =>
  match match_items BOLD_HEADING_RE line with
  | Some m => Some (bold, strip (pieces m 2 1), m)
  | None =>
  match
    match match_items COLON_HEADING_RE line with
    | Some m =>
        let text := strip (pieces m 0 2) in
        if (5 <=? length text) && negb (startswith (lower text) (lit "http"))
        then Some (colon, text, m) else None
    | None => None
    end
  with
  | Some r => Some r
  | None =>
  match match_items DATE_HEADING_RE line with
  | Some m => Some (date, strip (pieces m 0 7), m)
  | None =>
  match
    match match_items NUMBERED_HEADING_RE line with
    | Some m =>
        let text := strip (pieces m 3 2) in
        if 5 <=? length text
        then Some (numbered, pieces m 0 1 ++ lit ". " ++ text, m) else None
    | None => None
    end
  with
  | Some r => Some r
  | None =>
  match match_items ALLCAPS_HEADING_RE line with
  | Some m =>
      let text := strip (pieces m 0 2) in
      if negb (existsb (fun word => contains text word) common_non_headers)
         && (length (split text) <=? 6)
      then Some (allcaps, text, m) else None
  | None => None
  end end end end end end.

(* ================================================================== *)
(** ** Level resolution *)
(* ================================================================== *)

Definition meeting_keywords : list str :=
  [lit "meeting"; lit "discussion"; lit "call"; lit "update"; lit "task";
   lit "notes"; lit "todo"].

(** [determine_header_level_by_context(breadcrumb, pattern_type, text)] *)
Definition determine_header_level_by_context
    (breadcrumb : list str) (pattern_type : pattern_type) (text : str) : nat :=
  match pattern_type with
  | date => if negb (truthy breadcrumb) then 1 else 2
  | colon =>
      if existsb (fun keyword => contains (lower text) keyword) meeting_keywords
      then (if truthy breadcrumb then Nat.min (length breadcrumb + 1) 3 else 2)
      else (if negb (truthy breadcrumb) then 2
            else Nat.min (length breadcrumb + 1) 3)
  | numbered =>
      if truthy breadcrumb then Nat.min (length breadcrumb + 1) 4 else 2
  | allcaps => if negb (truthy breadcrumb) then 1 else 2
  | _ => 2
  end.

(** The [for] loop of [determine_bold_header_level] over the lines it
    visits; the result is the final value of [has_indented_content]. *)
Fixpoint has_indented_content (window : list str) : bool :=
  match window with
  | [] => false
  | l :: window' =>
      let line := strip l in
      if negb (truthy line) then has_indented_content window'
      else if startswith line (lit "- ") || startswith line (lit "* ")
              || startswith line (lit "  ")
      then true
      else if startswith line (lit "**") || startswith line (lit "#")
      then false
      else has_indented_content window'
  end.

(** [determine_bold_header_level(breadcrumb, lines, current_index)]; the
    loop visits [lines[j]] for [j] in
    [range(current_index + 1, min(current_index + 10, len(lines)))]. *)
Definition determine_bold_header_level
    (breadcrumb : list str) (lines : list str) (current_index : nat) : nat :=
  if negb (truthy breadcrumb) then 1
  else if has_indented_content (firstn 9 (skipn (current_index + 1) lines))
  then Nat.min (length breadcrumb + 1) 3
  else 2.

(* ================================================================== *)
(** ** Header conversion, aliases and the metadata block *)
(* ================================================================== *)

(** [convert_to_proper_header(text, level, pattern_type)] *)
Definition convert_to_proper_header
    (text : str) (level : nat) (pattern_type : pattern_type) : str :=
  let header_prefix := hashes level in
  match pattern_type with
  | date => header_prefix ++ [SP] ++ text
  | colon =>
      let clean_text := rstrip_chr ":" text in
      header_prefix ++ [SP] ++ clean_text
  | numbered => header_prefix ++ [SP] ++ text
  | _ => header_prefix ++ [SP] ++ text
  end.

(** The class of the first [re.sub] of [guess_aliases_from_heading]:
    round, square and curly brackets, colon, comma, full stop, both
    quotes, star, underscore and backquote. *)
Definition alias_punctuation (c : ascii) : bool :=
  existsb (fun n => is_code n c)
    [40; 41; 91; 93; 123; 125; 58; 44; 46; 34; 39; 42; 95; 96]%N.

(** [re.sub(pat, '', s)] for a literal, non-empty [pat]: the occurrences
    are removed from left to right; [skip] counts the characters of the
    current occurrence still to drop. *)
Fixpoint remove_literal (pat : str) (skip : nat) (s : str) : str :=
  match s with
  | [] => []
  | c :: s' =>
      match skip with
      | S k => remove_literal pat k s'
      | 0 =>
          if startswith s pat then remove_literal pat (length pat - 1) s'
          else c :: remove_literal pat 0 s'
      end
  end.

(** [guess_aliases_from_heading(text)] *)
Definition guess_aliases_from_heading (text : str) : list str :=
  let base := map (fun c => if alias_punctuation c then SP else c) text in
  let base := remove_literal (lit "{.underline}") 0 base in
  let terms := filter (fun t => 3 <=? length t) (split base) in
  firstn 5 terms.

(** Order of Python strings: lexicographic on code points. *)
Fixpoint str_ltb (a b : str) : bool :=
  match a, b with
  | _, [] => false
  | [], _ :: _ => true
  | x :: a', y :: b' =>
      N.ltb (code x) (code y) || (N.eqb (code x) (code y) && str_ltb a' b')
  end.

Fixpoint insert_sorted (x : str) (l : list str) : list str :=
  match l with
  | [] => [x]
  | y :: l' =>
      if str_ltb x y then x :: l
      else if str_eqb x y then l
      else y :: insert_sorted x l'
  end.

(** [sorted(set(l))] *)
Definition sorted_set (l : list str) : list str :=
  fold_right insert_sorted [] l.

(** [build_header_block(doc_title, rel_path, breadcrumb, aliases)] *)
Definition build_header_block
    (doc_title rel_path : str) (breadcrumb aliases : list str) : str :=
  let breadcrumb_str :=
    if truthy breadcrumb then join (lit " > ") breadcrumb else doc_title in
  let aliases_str :=
    firstn 120 (join (lit ", ") (sorted_set (filter truthy aliases))) in
  let lines :=
    [lit "[DocTitle: " ++ doc_title ++ lit "]";
     lit "[Path: " ++ rel_path ++ lit "]";
     lit "[Section: " ++ breadcrumb_str ++ lit "]"] in
  let lines :=
    if truthy aliases_str
    then lines ++ [lit "[Aliases: " ++ aliases_str ++ lit "]"] else lines in
  join [LF] lines ++ [LF; LF].

(* ================================================================== *)
(** ** process_markdown

    The state of the loop is the breadcrumb stack and the document title.
    The loop runs over [rest = lines[i:]]: the line at hand is its head and
    both look-aheads read its tail, [lines[i+1:]].  Each line leaves one
    event in the trace; [out] is read off the trace. *)
(* ================================================================== *)

Record state := State { breadcrumb : list str; doc_title : str }.

(** [while len(breadcrumb) >= level: breadcrumb.pop()], on the reversed
    stack.  Every resolved level is at least 1 ([heading_level_bounds]
    below), so the loop stops on a stack that may be empty and never pops
    from an empty one. *)
Fixpoint pop_from_end (level : nat) (reversed : list str) : list str :=
  match reversed with
  | [] => []
  | _ :: reversed' =>
      if level <=? length reversed then pop_from_end level reversed'
      else reversed
  end.

(** The block under the comment "Maintain breadcrumb". *)
Definition maintain_breadcrumb
    (level : nat) (heading_text : str) (st : state) : state :=
  if level =? 1 then
    let doc_title' :=
      if truthy heading_text then heading_text else doc_title st in
    State [if truthy heading_text then heading_text else doc_title']
          doc_title'
  else
    State (rev (pop_from_end level (rev (breadcrumb st))) ++ [heading_text])
          (doc_title st).

(** The first stripped line that is not empty after the heading, or the
    empty string. *)
Fixpoint next_nonempty (following : list str) : str :=
  match following with
  | [] => []
  | l :: following' =>
      if truthy (strip l) then strip l else next_nonempty following'
  end.

Record heading_step := HeadingStep {
  hs_kind : pattern_type;
  hs_text : str;
  hs_level : nat;
  hs_state : state;
  hs_header : str;
  hs_block : option str
}.

(** The body of [if pattern_type:] for the line [line = lines[i]], followed
    by the lines [following = lines[i+1:]], classified as [info].  The call
    [determine_bold_header_level(breadcrumb, lines, i)] reads [lines] from
    index [i + 1] on only, so it is made on [lines[i:]] at index 0. *)
Definition on_heading (rel_path : str) (st : state) (line : str)
    (following : list str) (info : header_info) : heading_step :=
  let '(pattern_type, heading_text, m) := info in
  let level :=
    match pattern_type with
    | markdown => length (pieces m 0 1)
    | bold => determine_bold_header_level (breadcrumb st) (line :: following) 0
    | _ => determine_header_level_by_context
             (breadcrumb st) pattern_type heading_text
    end in
  let st' := maintain_breadcrumb level heading_text st in
  let proper_header :=
    match pattern_type with
    | markdown => line
    | _ => convert_to_proper_header heading_text level pattern_type
    end in
  let already_injected :=
    startswith (next_nonempty following) (lit "[DocTitle:") in
  HeadingStep pattern_type heading_text level st' proper_header
    (if negb already_injected
     then Some (build_header_block (doc_title st') rel_path (breadcrumb st')
                  (guess_aliases_from_heading heading_text))
     else None).

Inductive event :=
| Passed (line : str)
| Heading (h : heading_step).

Fixpoint run (rel_path : str) (st : state) (rest : list str) : list event :=
  match rest with
  | [] => []
  | line :: following =>
      match check_header_patterns line with
      | Some info =>
          let h := on_heading rel_path st line following info in
          Heading h :: run rel_path (hs_state h) following
      | None => Passed line :: run rel_path st following
      end
  end.

(** What an event appends to [out]. *)
Definition emitted (e : event) : list str :=
  match e with
  | Passed line => [line]
  | Heading h =>
      hs_header h :: match hs_block h with Some b => [b] | None => [] end
  end.

Definition out_of (trace : list event) : list str := flat_map emitted trace.

(** The [return] expression. *)
Definition finish (out : list str) : str :=
  join [LF] out ++
  (if negb (truthy out) || negb (str_eqb (last out []) []) then [LF] else []).

Definition trace_of (md_text rel_path file_stem : str) : list event :=
  run rel_path (State [] file_stem) (splitlines md_text).

Definition process_markdown (md_text rel_path file_stem : str) : str :=
  finish (out_of (trace_of md_text rel_path file_stem)).

Definition kind_text (r : option header_info) : option (pattern_type * str) :=
  option_map (fun x => (fst (fst x), snd (fst x))) r.

(** Documents for the examples: [doc] ends every line with a line feed. *)
Definition doc (lines : list string) : str :=
  concat (map (fun l => lit l ++ [LF]) lines).


(* ================================================================== *)
(** ** Notions used in the statements *)
(* ================================================================== *)

(** [taken items s m]: the items take the consecutive texts [m] of [s],
    within their bounds and classes, and [$] holds on what is left. *)
Inductive taken : list item -> str -> list str -> Prop :=
| taken_end : forall s, at_dollar s = true -> taken [] s []
| taken_item : forall it rest piece s m,
    lo it <= length piece ->
    (forall h, hi it = Some h -> length piece <= h) ->
    forallb (cls it) piece = true ->
    taken rest s m ->
    taken (it :: rest) (piece ++ s) (piece :: m).

(** The order in which [check_header_patterns] tries the patterns. *)
Definition priority_order : list pattern_type :=
  [markdown; bold; colon; date; numbered; allcaps].

Definition rank (k : pattern_type) : nat :=
  match k with
  | markdown => 0 | bold => 1 | colon => 2
  | date => 3 | numbered => 4 | allcaps => 5
  end.

(** What one pattern alone makes of a line: the pattern matches and its
    rejection filter lets the text through. *)
Definition accepts (k : pattern_type) (line : str) : option (str * list str) :=
  match k with
  | markdown =>
      option_map (fun m => (strip (pieces m 2 1), m))
        (match_items HEADING_RE line)
  | bold =>
      option_map (fun m => (strip (pieces m 2 1), m))
        (match_items BOLD_HEADING_RE line)
  | colon =>
      match match_items COLON_HEADING_RE line with
      | Some m =>
          let text := strip (pieces m 0 2) in
          if (5 <=? length text) && negb (startswith (lower text) (lit "http"))
          then Some (text, m) else None
      | None => None
      end
  | date =>
      option_map (fun m => (strip (pieces m 0 7), m))
        (match_items DATE_HEADING_RE line)
  | numbered =>
      match match_items NUMBERED_HEADING_RE line with
      | Some m =>
          let text := strip (pieces m 3 2) in
          if 5 <=? length text
          then Some (pieces m 0 1 ++ lit ". " ++ text, m) else None
      | None => None
      end
  | allcaps =>
      match match_items ALLCAPS_HEADING_RE line with
      | Some m =>
          let text := strip (pieces m 0 2) in
          if negb (existsb (fun word => contains text word) common_non_headers)
             && (length (split text) <=? 6)
          then Some (text, m) else None
      | None => None
      end
  end.

(** The first pattern of [order] that accepts the line. *)
Fixpoint first_accepted (order : list pattern_type) (line : str)
  : option header_info :=
  match order with
  | [] => None
  | k :: order' =>
      match accepts k line with
      | Some (text, m) => Some (k, text, m)
      | None => first_accepted order' line
      end
  end.

(** [word] is one of the white-space separated words of [text]. *)
Definition has_whole_word (text word : str) : bool :=
  existsb (str_eqb word) (split text).

(** The text whose lines are [ls], each ended by a line feed. *)
Definition lines_text (ls : list str) : str :=
  concat (map (fun l => l ++ [LF]) ls).

(** The string ends with a line feed that no other line feed precedes. *)
Definition ends_in_exactly_one_newline (s : str) : bool :=
  match rev s with
  | c :: rest =>
      chr_eqb c LF &&
      match rest with
      | c' :: _ => negb (chr_eqb c' LF)
      | [] => true
      end
  | [] => false
  end.

(** The heading steps of a trace, in order. *)
Fixpoint headings (trace : list event) : list heading_step :=
  match trace with
  | [] => []
  | Passed _ :: trace' => headings trace'
  | Heading h :: trace' => h :: headings trace'
  end.

(** The text of the last level-1 heading with a non-empty text among [hs],
    or [file_stem] when there is none. *)
Definition latest_title (file_stem : str) (hs : list heading_step) : str :=
  fold_left
    (fun title h =>
       if (hs_level h =? 1) && truthy (hs_text h) then hs_text h else title)
    hs file_stem.

(** No character of the string is a line boundary. *)
Definition no_linebreak (s : str) : bool :=
  forallb (fun c => negb (is_linebreak c)) s.

(** The lines of a metadata block: the list [lines] of
    [build_header_block]. *)
Definition block_lines
    (doc_title rel_path : str) (breadcrumb aliases : list str) : list str :=
  let breadcrumb_str :=
    if truthy breadcrumb then join (lit " > ") breadcrumb else doc_title in
  let aliases_str :=
    firstn 120 (join (lit ", ") (sorted_set (filter truthy aliases))) in
  [lit "[DocTitle: " ++ doc_title ++ lit "]";
   lit "[Path: " ++ rel_path ++ lit "]";
   lit "[Section: " ++ breadcrumb_str ++ lit "]"]
  ++ (if truthy aliases_str
      then [lit "[Aliases: " ++ aliases_str ++ lit "]"] else []).

(** The lines that the loop writes for the lines [rest]: a line passed
    through, or a header line followed, when a block is injected, by the
    lines of the block and the two empty lines that end it. *)
Fixpoint output_lines (rel_path : str) (st : state) (rest : list str)
  : list str :=
  match rest with
  | [] => []
  | line :: following =>
      match check_header_patterns line with
      | Some info =>
          let h := on_heading rel_path st line following info in
          hs_header h ::
          (if startswith (next_nonempty following) (lit "[DocTitle:")
           then []
           else block_lines (doc_title (hs_state h)) rel_path
                  (breadcrumb (hs_state h))
                  (guess_aliases_from_heading (hs_text h)) ++ [[]; []])
          ++ output_lines rel_path (hs_state h) following
      | None => line :: output_lines rel_path st following
      end
  end.

(** A text on which the loop has nothing left to do: every heading line is
    a markdown heading and the next line that is not blank opens a metadata
    block. *)
Fixpoint settled (ls : list str) : bool :=
  match ls with
  | [] => true
  | l :: post =>
      match check_header_patterns l with
      | None => true
      | Some (k, _, _) =>
          pattern_type_eqb k markdown
          && startswith (next_nonempty post) (lit "[DocTitle:")
      end && settled post
  end.

(** No heading of the trace has a metadata block injected after it. *)
Definition injects_nothing (trace : list event) : bool :=
  forallb (fun e => match e with
                    | Passed _ => true
                    | Heading h => match hs_block h with
                                   | None => true
                                   | Some _ => false
                                   end
                    end) trace.

(** The string ends with a line feed that follows a character other than a
    line feed: its last line is not empty. *)
Definition ends_after_nonempty_line (s : str) : bool :=
  match rev s with
  | c :: c' :: _ => chr_eqb c LF && negb (chr_eqb c' LF)
  | _ => false
  end.

Definition lines_ok (ls : list str) : bool := forallb no_linebreak ls.

Definition state_ok (st : state) : bool :=
  no_linebreak (doc_title st) && lines_ok (breadcrumb st).
(* ================================================================== *)
(** ** slug and further notions *)
(* ================================================================== *)

(** The class of the pattern of [slug], negated: a lower-case letter or a
    digit. *)
Definition is_slug_chr (c : ascii) : bool := in_range 97 122 c || is_digit c.

(** [re.sub(pat, '-', s)] for the pattern of [slug], one or more characters
    outside the class above: every maximal run of such characters becomes
    one dash, written here at the last character of the run. *)
Fixpoint sub_dash (s : str) : str :=
  match s with
  | [] => []
  | c :: s' =>
      if is_slug_chr c then c :: sub_dash s'
      else match s' with
           | c' :: _ =>
               if is_slug_chr c' then "-"%char :: sub_dash s' else sub_dash s'
           | [] => ["-"%char]
           end
  end.

(** [s.strip(c)] for one character [c]. *)
Definition strip_chr (c : ascii) (s : str) : str :=
  rstrip_chr c (drop_while (chr_eqb c) s).

(** [slug(s)] *)
Definition slug (s : str) : str := strip_chr "-" (sub_dash (lower s)).

(** A letter, digit or dash text in which no dash stands first, last or
    next to another dash. *)
Fixpoint dashes_inside (s : str) : bool :=
  match s with
  | [] => true
  | c :: s' =>
      (is_slug_chr c
       || (chr_eqb "-" c
           && match s' with c' :: _ => is_slug_chr c' | [] => false end))
      && dashes_inside s'
  end.

Definition slug_shaped (s : str) : bool :=
  dashes_inside s && negb (startswith s ["-"%char]).

(** The pattern of a kind. *)
Definition pattern_re (k : pattern_type) : list item :=
  match k with
  | markdown => HEADING_RE
  | bold => BOLD_HEADING_RE
  | colon => COLON_HEADING_RE
  | date => DATE_HEADING_RE
  | numbered => NUMBERED_HEADING_RE
  | allcaps => ALLCAPS_HEADING_RE
  end.

Definition is_heading (line : str) : bool :=
  match check_header_patterns line with
  | Some _ => true
  | None => false
  end.

(** The two tests of the look-ahead of bold headings that can hold: a list
    item, and a line that stops the scan. *)
Definition is_list_item (l : str) : bool :=
  startswith (strip l) (lit "- ") || startswith (strip l) (lit "* ").

Definition stops_scan (l : str) : bool :=
  startswith (strip l) (lit "**") || startswith (strip l) (lit "#").

(** Strings in increasing order, no two equal. *)
Fixpoint increasing (l : list str) : bool :=
  match l with
  | [] => true
  | x :: l' =>
      match l' with
      | [] => true
      | y :: _ => str_ltb x y
      end && increasing l'
  end.

(** A text in which every character is a lower-case letter, a digit or a
    dash that no other dash follows. *)
Fixpoint single_dashes (s : str) : bool :=
  match s with
  | [] => true
  | c :: s' =>
      (is_slug_chr c
       || (chr_eqb "-" c
           && match s' with c' :: _ => is_slug_chr c' | [] => true end))
      && single_dashes s'
  end.

(** The lines after whose output the text returned ends in one line feed
    only: the last line is not empty and no heading; or it is empty and the
    line before it is not empty and no heading; or the input is two empty
    lines, or no line at all. *)
Definition ends_cleanly (lines : list str) : bool :=
  match rev lines with
  | [] => true
  | l :: before =>
      if truthy l then negb (is_heading l)
      else match before with
           | [] => false
           | y :: before' =>
               if truthy y then negb (is_heading y)
               else negb (truthy before')
           end
  end.

(* ================================================================== *)
(** ** The matcher: what a match says about the line *)
(* ================================================================== *)

Lemma backtrack_found A (attempt : nat -> option A) least k r :
  backtrack attempt least k = Some r ->
  exists j, least <= j /\ j <= k /\ attempt j = Some r.
Proof.
  induction k as [|k IH]; simpl.
  - destruct (0 <? least) eqn:E; [discriminate|].
    apply Nat.ltb_ge in E.
    destruct (attempt 0) eqn:Ea; [|discriminate].
    intros [= <-]. exists 0. auto.
  - destruct (S k <? least) eqn:E; [discriminate|].
    apply Nat.ltb_ge in E.
    destruct (attempt (S k)) eqn:Ea.
    + intros [= <-]. exists (S k). auto.
    + intros H. destruct (IH H) as (j & ? & ? & ?). exists j. auto.
Qed.

Lemma backtrack_first A (attempt : nat -> option A) least k r :
  least <= k -> attempt k = Some r -> backtrack attempt least k = Some r.
Proof.
  intros Hle Ha. destruct k; simpl.
  - replace (0 <? least) with false by (symmetry; apply Nat.ltb_ge; lia).
    now rewrite Ha.
  - replace (S k <? least) with false by (symmetry; apply Nat.ltb_ge; lia).
    now rewrite Ha.
Qed.

Lemma run_length_firstn p s k :
  k <= run_length p s ->
  forallb p (firstn k s) = true /\ length (firstn k s) = k.
Proof.
  revert k. induction s as [|c s IH]; intros k Hk; simpl in *.
  - assert (k = 0) by lia. subst. auto.
  - destruct k; [auto|]. destruct (p c) eqn:E; [|lia].
    simpl. rewrite E. destruct (IH k) as [H1 H2]; [lia|].
    rewrite H1, H2. auto.
Qed.

Lemma greedy_le_run it s : greedy it s <= run_length (cls it) s.
Proof. unfold greedy. destruct (hi it); lia. Qed.

Lemma greedy_le_hi it s h : hi it = Some h -> greedy it s <= h.
Proof. unfold greedy. intros ->. lia. Qed.

Lemma match_items_taken items :
  forall s m, match_items items s = Some m -> taken items s m.
Proof.
  induction items as [|it rest IH]; intros s m; simpl.
  - destruct (at_dollar s) eqn:E; [|discriminate].
    intros [= <-]. now constructor.
  - intros H. apply backtrack_found in H. destruct H as (j & Hlo & Hj & Hm).
    destruct (match_items rest (skipn j s)) as [m'|] eqn:Em; [|discriminate].
    simpl in Hm. injection Hm as <-.
    pose proof (greedy_le_run it s) as Hr.
    destruct (run_length_firstn (cls it) s j) as [Hall Hlen]; [lia|].
    rewrite <- (firstn_skipn j s) at 1.
    constructor; auto.
    + lia.
    + intros h Hh. pose proof (greedy_le_hi it s h Hh). lia.
Qed.

(** The matched texts put together give the line, up to a final line
    feed. *)
Lemma taken_concat items s m :
  taken items s m -> s = concat m \/ s = concat m ++ [LF].
Proof.
  induction 1 as [s Hd|it rest piece s m _ _ _ _ IH]; simpl.
  - destruct s as [|c [|? ?]]; simpl in Hd; try discriminate; auto.
    right. unfold chr_eqb in Hd. apply Ascii.eqb_eq in Hd. now subst.
  - destruct IH as [-> | ->]; [now left|right].
    now rewrite app_assoc.
Qed.

(** A pattern whose first item takes at least one character fixes the
    class of the first character of the line. *)
Lemma taken_first_chr it rest s m :
  taken (it :: rest) s m -> 1 <= lo it ->
  exists c s', s = c :: s' /\ cls it c = true.
Proof.
  intros H Hlo. inversion H as [|? ? piece s0 m0 Hl _ Hall _]; subst.
  destruct piece as [|c piece]; simpl in *; [lia|].
  apply andb_true_iff in Hall. destruct Hall as [Hc _].
  now exists c, (piece ++ s0).
Qed.

Lemma match_first_chr it rest s m :
  match_items (it :: rest) s = Some m -> 1 <= lo it ->
  exists c s', s = c :: s' /\ cls it c = true.
Proof. intros H. apply match_items_taken in H. eauto using taken_first_chr. Qed.

(** No match when the first character is outside the first item's class. *)
Lemma no_match_first_chr it rest c s :
  1 <= lo it -> cls it c = false -> match_items (it :: rest) (c :: s) = None.
Proof.
  intros Hlo Hc. destruct (match_items (it :: rest) (c :: s)) eqn:E; [|reflexivity].
  destruct (match_first_chr _ _ _ _ E Hlo) as (c' & s' & [= <- <-] & Hc').
  congruence.
Qed.

(* ================================================================== *)
(** ** Characters, stripping and pieces of a match *)
(* ================================================================== *)

Arguments chr_eqb : simpl never.

Ltac all_chars c :=
  destruct c as [[|] [|] [|] [|] [|] [|] [|] [|]];
  vm_compute; try reflexivity; try discriminate; auto.

Lemma chr_eqb_eq a b : chr_eqb a b = true <-> a = b.
Proof. apply Ascii.eqb_eq. Qed.

Lemma chr_eqb_refl a : chr_eqb a a = true.
Proof. now apply chr_eqb_eq. Qed.

Lemma str_eqb_eq a : forall b, str_eqb a b = true <-> a = b.
Proof.
  induction a as [|x a IH]; intros [|y b]; simpl; split;
    try discriminate; try reflexivity.
  - intros H. apply andb_true_iff in H. destruct H as [H1 H2].
    apply chr_eqb_eq in H1. apply IH in H2. now subst.
  - intros [= <- <-]. rewrite chr_eqb_refl. now apply IH.
Qed.

Lemma alpha_space_not_colon c : alpha_space c = true -> chr_eqb ":" c = false.
Proof. all_chars c. Qed.

Lemma upper_alpha_space c : is_upper c = true -> alpha_space c = true.
Proof. all_chars c. Qed.

Lemma upper_upper_space c : is_upper c = true -> upper_space c = true.
Proof. all_chars c. Qed.

Lemma upper_space_not_colon c : upper_space c = true -> chr_eqb ":" c = false.
Proof. all_chars c. Qed.

Lemma digit_not_hash c : is_digit c = true -> chr_eqb "#" c = false.
Proof. all_chars c. Qed.

Lemma digit_not_star c : is_digit c = true -> chr_eqb "*" c = false.
Proof. all_chars c. Qed.

Lemma digit_not_upper c : is_digit c = true -> is_upper c = false.
Proof. all_chars c. Qed.

Lemma upper_not_hash c : is_upper c = true -> chr_eqb "#" c = false.
Proof. all_chars c. Qed.

Lemma upper_not_star c : is_upper c = true -> chr_eqb "*" c = false.
Proof. all_chars c. Qed.

Lemma upper_not_digit c : is_upper c = true -> is_digit c = false.
Proof. all_chars c. Qed.

Lemma upper_not_two c : is_upper c = true -> chr_eqb "2" c = false.
Proof. all_chars c. Qed.

Lemma forallb_rev A (p : A -> bool) l : forallb p (rev l) = forallb p l.
Proof.
  induction l as [|x l IH]; simpl; [reflexivity|].
  rewrite forallb_app, IH. simpl. rewrite andb_true_r. apply andb_comm.
Qed.

Lemma forallb_impl A (p q : A -> bool) l :
  (forall x, p x = true -> q x = true) ->
  forallb p l = true -> forallb q l = true.
Proof.
  intros Hpq. induction l as [|x l IH]; simpl; [auto|].
  intros H. apply andb_true_iff in H. destruct H as [H1 H2].
  rewrite (Hpq _ H1), (IH H2). reflexivity.
Qed.

Lemma forallb_drop_while (p q : ascii -> bool) s :
  forallb q s = true -> forallb q (drop_while p s) = true.
Proof.
  induction s as [|c s IH]; simpl; [auto|].
  intros H. destruct (p c); [|exact H].
  apply andb_true_iff in H. now apply IH.
Qed.

(** Stripping keeps what holds of every character. *)
Lemma forallb_strip (q : ascii -> bool) s :
  forallb q s = true -> forallb q (strip s) = true.
Proof.
  intros H. unfold strip, rstrip, lstrip.
  rewrite forallb_rev. apply forallb_drop_while.
  rewrite forallb_rev. now apply forallb_drop_while.
Qed.

Lemma drop_while_none (p : ascii -> bool) s :
  forallb (fun c => negb (p c)) s = true -> drop_while p s = s.
Proof.
  destruct s as [|c s]; simpl; [reflexivity|].
  intros H. apply andb_true_iff in H. destruct H as [H _].
  apply negb_true_iff in H. now rewrite H.
Qed.

(** [rstrip(c)] changes nothing in a text without [c]. *)
Lemma rstrip_chr_absent c s :
  forallb (fun x => negb (chr_eqb c x)) s = true -> rstrip_chr c s = s.
Proof.
  intros H. unfold rstrip_chr.
  rewrite drop_while_none by now rewrite forallb_rev.
  apply rev_involutive.
Qed.

Lemma forallb_not_colon_In s :
  forallb (fun x => negb (chr_eqb ":" x)) s = true -> ~ In ":"%char s.
Proof.
  intros H Hin. rewrite forallb_forall in H. specialize (H _ Hin).
  now rewrite chr_eqb_refl in H.
Qed.

(** The stripped text is not empty, and neither begins nor ends with white
    space. *)
Lemma drop_while_head (p : ascii -> bool) s c s' :
  drop_while p s = c :: s' -> p c = false.
Proof.
  induction s as [|x s IH]; simpl; [discriminate|].
  destruct (p x) eqn:E; [exact IH|]. now intros [= <- <-].
Qed.

Lemma lstrip_head s c s' : lstrip s = c :: s' -> is_space c = false.
Proof. apply drop_while_head. Qed.

Lemma drop_while_suffix (p : ascii -> bool) s :
  exists pre, s = pre ++ drop_while p s /\ forallb p pre = true.
Proof.
  induction s as [|c s (pre & IH1 & IH2)]; simpl.
  - now exists [].
  - destruct (p c) eqn:E.
    + exists (c :: pre). simpl. rewrite E, IH2. split; [now f_equal|reflexivity].
    + now exists [].
Qed.

(** A line is its stripped text between two runs of white space. *)
Lemma strip_decompose s :
  exists pre post,
    s = pre ++ strip s ++ post /\
    forallb is_space pre = true /\ forallb is_space post = true.
Proof.
  unfold strip, rstrip, lstrip.
  destruct (drop_while_suffix is_space s) as (pre & E1 & H1).
  destruct (drop_while_suffix is_space (rev (drop_while is_space s)))
    as (post & E2 & H2).
  exists pre, (rev post). repeat split; auto.
  - rewrite E1 at 1. f_equal.
    rewrite <- rev_app_distr, <- E2. now rewrite rev_involutive.
  - now rewrite forallb_rev.
Qed.

Lemma strip_head s c s' : strip s = c :: s' -> is_space c = false.
Proof.
  unfold strip, rstrip. intros H.
  destruct (lstrip s) as [|x l] eqn:El; [discriminate|].
  pose proof (lstrip_head _ _ _ El) as Hx.
  destruct (drop_while_suffix is_space (rev (x :: l))) as (pre & E & Hp).
  apply (f_equal (@rev ascii)) in E. rewrite rev_involutive, rev_app_distr in E.
  rewrite H in E. simpl in E. injection E as <- _. exact Hx.
Qed.

(** Lists of a known length. *)
Lemma length_one A (l : list A) : length l = 1 -> exists x, l = [x].
Proof. destruct l as [|x [|? ?]]; try discriminate. now exists x. Qed.

Lemma length_two A (l : list A) : length l = 2 -> exists x y, l = [x; y].
Proof. destruct l as [|x [|y [|? ?]]]; try discriminate. now exists x, y. Qed.

Ltac taken_all :=
  repeat match goal with
         | H : taken (_ :: _) _ _ |- _ => inversion H; clear H; subst
         | H : taken [] _ _ |- _ => inversion H; clear H; subst
         end;
  simpl cls in *; simpl lo in *; simpl hi in *.

(** Every character of a matched line is of a class of the pattern, or the
    final line feed. *)
Lemma taken_forallb (q : ascii -> bool) items s m :
  taken items s m ->
  (forall it c, In it items -> cls it c = true -> q c = true) ->
  q LF = true ->
  forallb q s = true.
Proof.
  intros H Hq Hlf. induction H as [s Hd|it rest piece s m _ _ Hall _ IH].
  - destruct s as [|c [|? ?]]; simpl in *; try discriminate; auto.
    apply chr_eqb_eq in Hd. subst. now rewrite Hlf.
  - rewrite forallb_app. rewrite IH.
    + rewrite andb_true_r. eapply forallb_impl; [|exact Hall].
      intros c Hc. apply (Hq it); simpl; auto.
    + intros it' c Hin. apply Hq. now right.
Qed.

(** A matched line holds a character of every item that must take one. *)
Lemma taken_existsb items s m it :
  taken items s m -> In it items -> 1 <= lo it ->
  existsb (cls it) s = true.
Proof.
  intros H Hin Hlo. induction H as [s Hd|it0 rest piece s m Hl _ Hall _ IH].
  - destruct Hin.
  - rewrite existsb_app. destruct Hin as [->|Hin].
    + destruct piece as [|c piece]; simpl in *; [lia|].
      apply andb_true_iff in Hall. destruct Hall as [-> _]. reflexivity.
    + rewrite (IH Hin). apply orb_true_r.
Qed.

Lemma forallb_existsb_absurd (p q : ascii -> bool) s :
  forallb p s = true -> existsb q s = true ->
  (forall c, p c = true -> q c = false) -> False.
Proof.
  intros Hp Hq Hpq. apply existsb_exists in Hq. destruct Hq as (c & Hin & Hc).
  rewrite forallb_forall in Hp. rewrite (Hpq c (Hp c Hin)) in Hc. discriminate.
Qed.

(* ================================================================== *)
(** ** The classifier tries the patterns in a fixed order *)
(* ================================================================== *)

Arguments match_items : simpl never.

Lemma check_header_patterns_first_accepted line :
  check_header_patterns line = first_accepted priority_order line.
Proof.
  unfold check_header_patterns, priority_order.
  cbn [first_accepted accepts option_map].
  repeat match goal with
         | |- context [match_items ?r line] =>
             destruct (match_items r line); cbn [option_map]
         | |- context [if ?b then _ else _] => destruct b
         end; reflexivity.
Qed.

Lemma first_accepted_spec order line k text m :
  NoDup order ->
  first_accepted order line = Some (k, text, m) <->
  In k order /\ accepts k line = Some (text, m) /\
  forall k' pre post, order = pre ++ k :: post -> In k' pre ->
                      accepts k' line = None.
Proof.
  induction order as [|k0 order IH]; intros Hnd; simpl.
  - split; [discriminate|]. intros ([] & _).
  - inversion Hnd as [|? ? Hnotin Hnd']; subst.
    destruct (accepts k0 line) as [[t0 m0]|] eqn:E0.
    + split.
      * intros [= <- <- <-]. repeat split; auto.
        intros k' pre post Hsplit Hin.
        destruct pre as [|p pre]; [destruct Hin|].
        injection Hsplit as <- ->. exfalso. apply Hnotin.
        apply in_or_app. right. now left.
      * intros (Hin & Hacc & Hbefore).
        destruct Hin as [<-|Hin]; [congruence|].
        apply in_split in Hin. destruct Hin as (pre & post & ->).
        rewrite (Hbefore k0 (k0 :: pre) post eq_refl) in E0; [discriminate|].
        now left.
    + rewrite IH by assumption. split.
      * intros (Hin & Hacc & Hbefore). repeat split; auto.
        intros k' pre post Hsplit Hin'.
        destruct pre as [|p pre]; [destruct Hin'|].
        injection Hsplit as <- ->.
        destruct Hin' as [<-|Hin']; [assumption|].
        eapply Hbefore; eauto.
      * intros (Hin & Hacc & Hbefore).
        destruct Hin as [<-|Hin]; [congruence|].
        repeat split; auto.
        intros k' pre post -> Hin'.
        apply (Hbefore k' (k0 :: pre) post eq_refl). now right.
Qed.

Lemma priority_order_nodup : NoDup priority_order.
Proof.
  unfold priority_order.
  repeat (constructor; [simpl; intuition discriminate|]). constructor.
Qed.

Lemma priority_order_before k k' pre post :
  priority_order = pre ++ k :: post -> (In k' pre <-> rank k' < rank k).
Proof.
  unfold priority_order. intros H.
  repeat (destruct pre as [|? pre];
          [injection H as <- <-; destruct k'; simpl; intuition (try discriminate; try lia)|
           injection H as <- H]).
  destruct pre; discriminate.
Qed.

Lemma priority_order_all k : In k priority_order.
Proof. destruct k; simpl; auto 10. Qed.

(** C7.  [check_header_patterns] tries the six patterns in the order
    markdown, bold, colon, date, numbered, allcaps and returns the first one
    that matches and passes its rejection filter: a line is classified as
    kind [k] exactly when [k] accepts it and no pattern tried before [k]
    does, so a line that several patterns accept goes to the earliest. *)
Theorem C7_first_match_in_priority_order :
  forall line : str,
    check_header_patterns line = first_accepted priority_order line /\
    (forall k text m,
        check_header_patterns line = Some (k, text, m) <->
        accepts k line = Some (text, m) /\
        forall k', rank k' < rank k -> accepts k' line = None) /\
    (check_header_patterns line = None <->
     forall k, accepts k line = None).
Proof.
  intros line. split; [apply check_header_patterns_first_accepted|].
  rewrite check_header_patterns_first_accepted. split.
  - intros k text m.
    rewrite (first_accepted_spec _ _ _ _ _ priority_order_nodup).
    split.
    + intros (Hin & Hacc & Hbefore). split; [assumption|].
      intros k' Hlt. apply in_split in Hin. destruct Hin as (pre & post & E).
      apply (Hbefore k' pre post E). now apply (priority_order_before _ _ _ _ E).
    + intros (Hacc & Hbefore). repeat split; auto using priority_order_all.
      intros k' pre post E Hin. apply Hbefore.
      now apply (priority_order_before _ _ _ _ E).
  - split.
    + intros Hnone k.
      destruct (accepts k line) as [[t m]|] eqn:E; [|reflexivity].
      exfalso. revert Hnone. unfold first_accepted, priority_order.
      destruct (accepts markdown line) as [[]|] eqn:E1; [discriminate|].
      destruct (accepts bold line) as [[]|] eqn:E2; [discriminate|].
      destruct (accepts colon line) as [[]|] eqn:E3; [discriminate|].
      destruct (accepts date line) as [[]|] eqn:E4; [discriminate|].
      destruct (accepts numbered line) as [[]|] eqn:E5; [discriminate|].
      destruct (accepts allcaps line) as [[]|] eqn:E6; [discriminate|].
      destruct k; congruence.
    + intros Hall. unfold first_accepted, priority_order.
      now rewrite !Hall.
Qed.

(* ================================================================== *)
(** ** Lines of one pattern only *)
(* ================================================================== *)

Lemma check_header_patterns_accepts line k text m :
  check_header_patterns line = Some (k, text, m) ->
  accepts k line = Some (text, m).
Proof.
  rewrite check_header_patterns_first_accepted.
  rewrite (first_accepted_spec _ _ _ _ _ priority_order_nodup).
  now intros (_ & H & _).
Qed.

Lemma match_first_chr_class it rest line m it' rest' :
  match_items (it :: rest) line = Some m -> 1 <= lo it -> 1 <= lo it' ->
  (forall c, cls it c = true -> cls it' c = false) ->
  match_items (it' :: rest') line = None.
Proof.
  intros H Hlo Hlo' Hdisj.
  destruct (match_first_chr _ _ _ _ H Hlo) as (c & s' & -> & Hc).
  apply no_match_first_chr; auto.
Qed.

(** A line of the numbered pattern is a line of no other pattern. *)
Lemma numbered_match_only line m :
  match_items NUMBERED_HEADING_RE line = Some m ->
  match_items HEADING_RE line = None /\
  match_items BOLD_HEADING_RE line = None /\
  match_items COLON_HEADING_RE line = None /\
  match_items DATE_HEADING_RE line = None /\
  match_items ALLCAPS_HEADING_RE line = None.
Proof.
  intros H.
  assert (Hfirst : forall it' rest', 1 <= lo it' ->
             (forall c, is_digit c = true -> cls it' c = false) ->
             match_items (it' :: rest') line = None).
  { intros it' rest' Hlo' Hd.
    eapply (match_first_chr_class _ _ line m); eauto; simpl; lia. }
  repeat split.
  - apply Hfirst; [simpl; lia|apply digit_not_hash].
  - apply Hfirst; [simpl; lia|apply digit_not_star].
  - apply Hfirst; [simpl; lia|apply digit_not_upper].
  - destruct (match_items DATE_HEADING_RE line) as [m'|] eqn:E; [|reflexivity].
    exfalso. apply match_items_taken in H, E.
    unfold NUMBERED_HEADING_RE, DATE_HEADING_RE in *.
    inversion H as [|? ? q0 s0 m0 Hq0 Hq0h Hq0c H']; clear H; subst.
    inversion H' as [|? ? q1 s1 m1 Hq1 Hq1h Hq1c _]; clear H'; subst.
    inversion E as [|? ? p0 t0 n0 Hp0 Hp0h Hp0c E']; clear E; subst.
    inversion E' as [|? ? p1 t1 n1 Hp1 Hp1h Hp1c E'']; clear E'; subst.
    inversion E'' as [|? ? p2 t2 n2 Hp2 Hp2h Hp2c _]; clear E''; subst.
    simpl in *.
    specialize (Hq0h _ eq_refl). specialize (Hq1h _ eq_refl).
    specialize (Hp0h _ eq_refl). specialize (Hp1h _ eq_refl).
    specialize (Hp2h _ eq_refl).
    destruct (length_one _ q1) as (d & ->); [lia|].
    destruct (length_one _ p0) as (a & ->); [lia|].
    destruct (length_one _ p1) as (b & ->); [lia|].
    destruct (length_two _ p2) as (x & y & ->); [lia|].
    simpl in *. rewrite !andb_true_r in *.
    apply andb_true_iff in Hp2c. destruct Hp2c as [Hx _].
    apply chr_eqb_eq in Hq1c, Hp1c. subst d b.
    destruct q0 as [|u [|v [|? ?]]]; simpl in *; try lia;
      match goal with
      | E : _ :: _ = _ :: _ |- _ => injection E as; intros; subst
      end; try discriminate.
  - apply Hfirst; [simpl; lia|apply digit_not_upper].
Qed.

(** A line of the all-caps pattern is a line of no other pattern. *)
Lemma allcaps_match_only line m :
  match_items ALLCAPS_HEADING_RE line = Some m ->
  match_items HEADING_RE line = None /\
  match_items BOLD_HEADING_RE line = None /\
  match_items COLON_HEADING_RE line = None /\
  match_items DATE_HEADING_RE line = None /\
  match_items NUMBERED_HEADING_RE line = None.
Proof.
  intros H.
  assert (Hfirst : forall it' rest', 1 <= lo it' ->
             (forall c, is_upper c = true -> cls it' c = false) ->
             match_items (it' :: rest') line = None).
  { intros it' rest' Hlo' Hd.
    eapply (match_first_chr_class _ _ line m); eauto; simpl; lia. }
  repeat split.
  - apply Hfirst; [simpl; lia|apply upper_not_hash].
  - apply Hfirst; [simpl; lia|apply upper_not_star].
  - destruct (match_items COLON_HEADING_RE line) as [m'|] eqn:E; [|reflexivity].
    exfalso. apply match_items_taken in H, E.
    apply (forallb_existsb_absurd upper_space (chr_eqb ":") line).
    + apply (taken_forallb _ _ _ _ H); [|reflexivity].
      intros it c [<-|[<-|[]]]; simpl; auto using upper_upper_space.
    + apply (taken_existsb _ _ _ (one ":") E); simpl; auto.
    + apply upper_space_not_colon.
  - apply Hfirst; [simpl; lia|apply upper_not_two].
  - apply Hfirst; [simpl; lia|apply upper_not_digit].
Qed.

(* ================================================================== *)
(** ** Colon headings and the emitted header line *)
(* ================================================================== *)

Lemma colon_text_no_colon line text m :
  accepts colon line = Some (text, m) ->
  forallb (fun x => negb (chr_eqb ":" x)) text = true.
Proof.
  unfold accepts.
  destruct (match_items COLON_HEADING_RE line) as [m0|] eqn:E; [|discriminate].
  destruct (_ && _); [|discriminate]. intros [= <- <-].
  apply match_items_taken in E. unfold COLON_HEADING_RE in E. taken_all.
  apply forallb_strip. unfold pieces. simpl. rewrite app_nil_r.
  rewrite forallb_app. apply andb_true_iff. split.
  - eapply forallb_impl; [|eassumption]. intros c Hc. simpl.
    now rewrite alpha_space_not_colon by now apply upper_alpha_space.
  - eapply forallb_impl; [|eassumption]. intros c Hc. simpl.
    now rewrite alpha_space_not_colon.
Qed.

(** The header built for a heading that is no markdown heading, for any
    state of the loop. *)
Lemma converted_header_step :
  forall (rel_path : str) (st : state) (line : str) (following : list str)
         (info : header_info),
    check_header_patterns line = Some info ->
    fst (fst info) <> markdown ->
    let h := on_heading rel_path st line following info in
    hs_header h = hashes (hs_level h) ++ [SP] ++ hs_text h /\
    (hs_kind h = colon ->
     ~ In ":"%char (hs_text h) /\ rstrip_chr ":" (hs_text h) = hs_text h).
Proof.
  intros rel_path st line following [[k text] m] Hc Hk. simpl in Hk.
  apply check_header_patterns_accepts in Hc.
  unfold on_heading. cbv zeta. cbn [hs_header hs_level hs_text hs_kind].
  destruct k; try congruence; cbn [convert_to_proper_header];
    (split; [|try discriminate]); try reflexivity.
  - unfold convert_to_proper_header.
    now rewrite (rstrip_chr_absent _ _ (colon_text_no_colon _ _ _ Hc)).
  - intros _. pose proof (colon_text_no_colon _ _ _ Hc) as Hno. split.
    + now apply forallb_not_colon_In.
    + now apply rstrip_chr_absent.
Qed.

(* ================================================================== *)
(** ** Numbered headings *)
(* ================================================================== *)

Lemma level_by_context_numbered breadcrumb text :
  2 <= determine_header_level_by_context breadcrumb numbered text <= 4.
Proof.
  unfold determine_header_level_by_context.
  destruct breadcrumb; simpl truthy; cbv iota; simpl length; lia.
Qed.

Lemma maintain_breadcrumb_deeper level text st :
  level <> 1 ->
  maintain_breadcrumb level text st =
  State (rev (pop_from_end level (rev (breadcrumb st))) ++ [text])
        (doc_title st).
Proof.
  intros H. unfold maintain_breadcrumb.
  now replace (level =? 1) with false by (symmetry; now apply Nat.eqb_neq).
Qed.

(** A line of the numbered pattern and its heading step, for any state of
    the loop. *)
Lemma numbered_heading_step :
  forall (rel_path : str) (st : state) (line : str) (following : list str)
         (m : list str),
    match_items NUMBERED_HEADING_RE line = Some m ->
    let number := pieces m 0 1 in
    let title := strip (pieces m 3 2) in
    let text := number ++ lit ". " ++ title in
    (1 <= length number <= 2 /\ forallb is_digit number = true) /\
    (length title < 5 -> check_header_patterns line = None) /\
    (5 <= length title ->
     check_header_patterns line = Some (numbered, text, m) /\
     let h := on_heading rel_path st line following (numbered, text, m) in
     hs_text h = text /\
     hs_header h = hashes (hs_level h) ++ [SP] ++ text /\
     last (breadcrumb (hs_state h)) [] = text /\
     hs_block h =
       if startswith (next_nonempty following) (lit "[DocTitle:") then None
       else Some (build_header_block (doc_title (hs_state h)) rel_path
                    (breadcrumb (hs_state h))
                    (guess_aliases_from_heading text))).
Proof.
  intros rel_path st line following m Hm number title text.
  destruct (numbered_match_only _ _ Hm) as (H1 & H2 & H3 & H4 & H5).
  assert (Hcheck : check_header_patterns line =
                   if 5 <=? length title then Some (numbered, text, m) else None).
  { unfold check_header_patterns. rewrite H1, H2, H3, H4, Hm, H5.
    fold title. fold number. fold text. now destruct (5 <=? length title). }
  split; [|split].
  - pose proof (match_items_taken _ _ _ Hm) as Ht.
    unfold NUMBERED_HEADING_RE in Ht.
    inversion Ht as [|? ? p0 s0 m0 Hlo Hhi Hc _]; subst.
    subst number. unfold pieces. simpl. rewrite app_nil_r.
    simpl in Hlo, Hc. specialize (Hhi _ eq_refl). auto.
  - intros Hshort. rewrite Hcheck.
    now replace (5 <=? length title) with false
      by (symmetry; apply Nat.leb_gt; lia).
  - intros Hlong. split.
    + rewrite Hcheck.
      now replace (5 <=? length title) with true
        by (symmetry; apply Nat.leb_le; lia).
    + unfold on_heading. cbv zeta. cbn [hs_text hs_header hs_level hs_state hs_block].
      pose proof (level_by_context_numbered (breadcrumb st) text) as Hlevel.
      rewrite maintain_breadcrumb_deeper by lia.
      cbn [breadcrumb doc_title]. repeat split.
      * apply last_last.
      * now destruct (startswith _ _).
Qed.

(* ================================================================== *)
(** ** All-caps headings and the denylist *)
(* ================================================================== *)

(** C5 (as the code has it).  A line of the all-caps pattern is rejected
    exactly when its text holds one of TASK, TODO, NOTE, IMPORTANT, WARNING,
    ERROR as a substring, inside a longer word or not, or has more than six
    words; otherwise it is classified as an allcaps heading. *)
Theorem C5_allcaps_rejects_denylist_substrings :
  forall (line : str) (m : list str),
    match_items ALLCAPS_HEADING_RE line = Some m ->
    let text := strip (pieces m 0 2) in
    check_header_patterns line =
      if existsb (fun word => contains text word) common_non_headers
         || (6 <? length (split text))
      then None
      else Some (allcaps, text, m).
Proof.
  intros line m Hm text.
  destruct (allcaps_match_only _ _ Hm) as (H1 & H2 & H3 & H4 & H5).
  unfold check_header_patterns. rewrite H1, H2, H3, H4, H5, Hm. fold text.
  destruct (existsb _ common_non_headers); simpl; [reflexivity|].
  destruct (Nat.leb_spec (length (split text)) 6) as [Hle|Hgt].
  - now replace (6 <? length (split text)) with false
      by (symmetry; apply Nat.ltb_ge; lia).
  - now replace (6 <? length (split text)) with true
      by (symmetry; apply Nat.ltb_lt; lia).
Qed.

Lemma C5_witness :
  check_header_patterns (lit "PROJECT OVERVIEW") =
    Some (allcaps, lit "PROJECT OVERVIEW", [lit "P"; lit "ROJECT OVERVIEW"]) /\
  check_header_patterns (lit "NOTEWORTHY ITEMS") = None.
Proof.
  split.
  - apply (C5_allcaps_rejects_denylist_substrings (lit "PROJECT OVERVIEW")
             [lit "P"; lit "ROJECT OVERVIEW"]).
    vm_compute. reflexivity.
  - apply (C5_allcaps_rejects_denylist_substrings (lit "NOTEWORTHY ITEMS")
             [lit "N"; lit "OTEWORTHY ITEMS"]).
    vm_compute. reflexivity.
Defined.

(** The line "NOTEWORTHY ITEMS" is of the all-caps pattern, has two words,
    none of them on the denylist, and is rejected all the same: NOTE is a
    substring of NOTEWORTHY. *)
Lemma C5_counterexample :
  let line := lit "NOTEWORTHY ITEMS" in
  exists m,
    match_items ALLCAPS_HEADING_RE line = Some m /\
    let text := strip (pieces m 0 2) in
    existsb (has_whole_word text) common_non_headers = false /\
    (length (split text) <=? 6) = true /\
    check_header_patterns line = None.
Proof.
  exists [lit "N"; lit "OTEWORTHY ITEMS"]. vm_compute. repeat split.
Qed.

(* ================================================================== *)
(** ** The loop, line by line *)
(* ================================================================== *)

(** The lines before a given line leave one event each, whatever follows. *)
Lemma run_app rel_path pre :
  forall st rest,
  exists before st',
    run rel_path st (pre ++ rest) = before ++ run rel_path st' rest /\
    length before = length pre.
Proof.
  induction pre as [|l pre IH]; intros st rest.
  - now exists [], st.
  - simpl. destruct (check_header_patterns l) as [info|].
    + destruct (IH (hs_state (on_heading rel_path st l (pre ++ rest) info)) rest)
        as (before & st' & E & Hlen).
      eexists (_ :: before), st'. rewrite E. simpl. now rewrite Hlen.
    + destruct (IH st rest) as (before & st' & E & Hlen).
      eexists (_ :: before), st'. rewrite E. simpl. now rewrite Hlen.
Qed.

Lemma out_of_app t1 t2 : out_of (t1 ++ t2) = out_of t1 ++ out_of t2.
Proof. apply flat_map_app. Qed.

Lemma join_cons_cons sep x y rest :
  join sep (x :: y :: rest) = x ++ sep ++ join sep (y :: rest).
Proof. reflexivity. Qed.

Lemma join_app_cons sep o1 x o2 :
  join sep (o1 ++ x :: o2) =
  concat (map (fun l => l ++ sep) o1) ++ join sep (x :: o2).
Proof.
  induction o1 as [|a o1 IH]; [reflexivity|].
  change ((a :: o1) ++ x :: o2) with (a :: (o1 ++ x :: o2)).
  destruct o1 as [|b o1].
  - simpl. now rewrite app_nil_r, <- app_assoc.
  - change ((b :: o1) ++ x :: o2) with (b :: (o1 ++ x :: o2)) in *.
    rewrite join_cons_cons, IH. simpl. now rewrite <- !app_assoc.
Qed.

Lemma last_app_cons A (o1 : list A) x o2 d :
  last (o1 ++ x :: o2) d = last (x :: o2) d.
Proof.
  induction o1 as [|a o1 IH]; [reflexivity|].
  change ((a :: o1) ++ x :: o2) with (a :: (o1 ++ x :: o2)).
  destruct (o1 ++ x :: o2) eqn:E; [now destruct o1|].
  rewrite <- IH. reflexivity.
Qed.

(** A non-empty element of [out] stands in the result, followed by a line
    feed, after the elements before it. *)
Lemma finish_element o1 x o2 :
  x <> [] ->
  exists rest, finish (o1 ++ x :: o2) = lines_text o1 ++ x ++ [LF] ++ rest.
Proof.
  intros Hx. unfold finish, lines_text.
  rewrite join_app_cons, last_app_cons, <- app_assoc.
  destruct o2 as [|y o2].
  - exists []. simpl.
    replace (truthy (o1 ++ [x])) with true by now destruct o1.
    destruct x; [congruence|]. simpl. rewrite ?orb_true_r. reflexivity.
  - eexists. rewrite join_cons_cons, <- !app_assoc. reflexivity.
Qed.

Lemma heading_match_nonempty line m :
  match_items HEADING_RE line = Some m -> line <> [].
Proof.
  intros H. destruct (match_first_chr _ _ _ _ H) as (c & s & -> & _).
  - simpl. lia.
  - discriminate.
Qed.

(** C8.  A line of the markdown-heading form is classified as markdown with
    the number of its hash signs as level, and the header that the loop
    appends to [out] for it is the line itself; in the text returned, the
    line stands unchanged, ended by a line feed, after the output of the
    lines before it.  The metadata block, if any, comes after it. *)
Theorem C8_markdown_heading_emitted_unchanged :
  forall (md_text rel_path file_stem : str) (pre : list str) (line : str)
         (post : list str) (m : list str),
    splitlines md_text = pre ++ line :: post ->
    match_items HEADING_RE line = Some m ->
    exists before h rest,
      trace_of md_text rel_path file_stem
        = before ++ Heading h :: run rel_path (hs_state h) post /\
      length before = length pre /\
      hs_kind h = markdown /\
      hs_level h = length (pieces m 0 1) /\
      hs_header h = line /\
      (emitted (Heading h) = [line] \/
       exists block, emitted (Heading h) = [line; block]) /\
      process_markdown md_text rel_path file_stem
        = lines_text (out_of before) ++ line ++ [LF] ++ rest.
Proof.
  intros md_text rel_path file_stem pre line post m Hsplit Hm.
  unfold process_markdown, trace_of. rewrite Hsplit.
  destruct (run_app rel_path pre (State [] file_stem) (line :: post))
    as (before & st' & E & Hlen).
  rewrite E. simpl run.
  assert (Hc : check_header_patterns line =
               Some (markdown, strip (pieces m 2 1), m)).
  { unfold check_header_patterns. now rewrite Hm. }
  rewrite Hc.
  set (h := on_heading rel_path st' line post
              (markdown, strip (pieces m 2 1), m)).
  assert (Hh : hs_header h = line) by reflexivity.
  destruct (finish_element (out_of before) line
              (match hs_block h with Some b => [b] | None => [] end
               ++ out_of (run rel_path (hs_state h) post))
              (heading_match_nonempty _ _ Hm)) as (rest & Hrest).
  exists before, h, rest. repeat split; auto.
  - unfold emitted. rewrite Hh. destruct (hs_block h); eauto.
  - rewrite out_of_app. unfold out_of at 2. cbn [flat_map emitted].
    fold (out_of (run rel_path (hs_state h) post)).
    rewrite Hh, <- Hrest. reflexivity.
Qed.

Lemma C8_witness :
  exists before h rest,
    trace_of (doc ["intro"; "### Deep  heading #"; "text"]%string)
             (lit "a.md") (lit "a")
      = before ++ Heading h :: run (lit "a.md") (hs_state h) [lit "text"] /\
    length before = 1 /\
    hs_kind h = markdown /\
    hs_level h = 3 /\
    hs_header h = lit "### Deep  heading #" /\
    (emitted (Heading h) = [lit "### Deep  heading #"] \/
     exists block, emitted (Heading h) = [lit "### Deep  heading #"; block]) /\
    process_markdown (doc ["intro"; "### Deep  heading #"; "text"]%string)
                     (lit "a.md") (lit "a")
      = lines_text (out_of before) ++ lit "### Deep  heading #" ++ [LF] ++ rest.
Proof.
  apply (C8_markdown_heading_emitted_unchanged
           (doc ["intro"; "### Deep  heading #"; "text"]%string)
           (lit "a.md") (lit "a") [lit "intro"] (lit "### Deep  heading #")
           [lit "text"] [lit "###"; lit " "; lit "Deep  heading #"]).
  - vm_compute. reflexivity.
  - vm_compute. reflexivity.
Defined.

(* ================================================================== *)
(** ** The breadcrumb stack after a heading *)
(* ================================================================== *)

Lemma pop_from_end_skipn level reversed :
  1 <= level ->
  pop_from_end level reversed
  = skipn (length reversed - (level - 1)) reversed.
Proof.
  intros Hl. induction reversed as [|x r IH]; [reflexivity|].
  cbn [pop_from_end]. destruct (Nat.leb_spec level (length (x :: r))) as [H|H].
  - rewrite IH. simpl length in *.
    replace (S (length r) - (level - 1)) with (S (length r - (level - 1))) by lia.
    reflexivity.
  - simpl length in *.
    now replace (S (length r) - (level - 1)) with 0 by lia.
Qed.

(** The [while] loop leaves the first [level - 1] titles. *)
Lemma pop_from_end_firstn level stack :
  1 <= level ->
  rev (pop_from_end level (rev stack)) = firstn (level - 1) stack.
Proof.
  intros Hl. rewrite pop_from_end_skipn by assumption.
  rewrite <- firstn_rev. now rewrite rev_involutive.
Qed.

Lemma level_by_context_bounds breadcrumb k text :
  1 <= determine_header_level_by_context breadcrumb k text <= 4.
Proof.
  unfold determine_header_level_by_context.
  destruct k; try lia;
    try destruct (existsb _ _);
    destruct breadcrumb; simpl truthy; cbv iota; simpl negb; cbv iota; lia.
Qed.

Lemma bold_level_bounds breadcrumb lines i :
  1 <= determine_bold_header_level breadcrumb lines i <= 3.
Proof.
  unfold determine_bold_header_level.
  destruct breadcrumb; simpl truthy; simpl negb; cbv iota; [lia|].
  destruct (has_indented_content _); lia.
Qed.

Lemma heading_hashes_bounds line m :
  match_items HEADING_RE line = Some m ->
  1 <= length (pieces m 0 1) <= 6.
Proof.
  intros H. apply match_items_taken in H. unfold HEADING_RE in H.
  inversion H as [|? ? p0 s0 m0 Hlo Hhi _ _]; subst.
  unfold pieces. simpl. rewrite app_nil_r.
  simpl in Hlo. specialize (Hhi _ eq_refl). lia.
Qed.

Lemma accepts_markdown_match line text m :
  accepts markdown line = Some (text, m) ->
  match_items HEADING_RE line = Some m /\ text = strip (pieces m 2 1).
Proof.
  unfold accepts. destruct (match_items HEADING_RE line); [|discriminate].
  simpl. now intros [= <- <-].
Qed.

(** Every resolved level is between 1 and 6. *)
Lemma heading_level_bounds rel_path st line following info :
  check_header_patterns line = Some info ->
  1 <= hs_level (on_heading rel_path st line following info) <= 6.
Proof.
  destruct info as [[k text] m]. intros Hc.
  apply check_header_patterns_accepts in Hc.
  unfold on_heading. cbv zeta. cbn [hs_level].
  destruct k.
  - apply accepts_markdown_match in Hc. destruct Hc as [Hm _].
    now apply heading_hashes_bounds in Hm.
  - pose proof (bold_level_bounds (breadcrumb st) (line :: following) 0). lia.
  - pose proof (level_by_context_bounds (breadcrumb st) colon text). lia.
  - pose proof (level_by_context_bounds (breadcrumb st) date text). lia.
  - pose proof (level_by_context_bounds (breadcrumb st) numbered text). lia.
  - pose proof (level_by_context_bounds (breadcrumb st) allcaps text). lia.
Qed.

(** The stack after the update, in closed form. *)
Lemma maintain_breadcrumb_stack level text st :
  1 <= level ->
  breadcrumb (maintain_breadcrumb level text st) =
  if level =? 1
  then [if truthy text then text else doc_title st]
  else firstn (level - 1) (breadcrumb st) ++ [text].
Proof.
  intros Hl. unfold maintain_breadcrumb.
  destruct (level =? 1); cbn [breadcrumb].
  - now destruct (truthy text).
  - now rewrite pop_from_end_firstn.
Qed.

Lemma maintain_breadcrumb_title level text st :
  doc_title (maintain_breadcrumb level text st) =
  if (level =? 1) && truthy text then text else doc_title st.
Proof.
  unfold maintain_breadcrumb.
  destruct (level =? 1); cbn [doc_title]; [|reflexivity].
  now destruct (truthy text).
Qed.

Lemma on_heading_state rel_path st line following info :
  hs_state (on_heading rel_path st line following info) =
  maintain_breadcrumb (hs_level (on_heading rel_path st line following info))
    (hs_text (on_heading rel_path st line following info)) st.
Proof. now destruct info as [[k text] m]. Qed.

(** C1 (as the code has it).  Every line classified as a heading resolves
    to a level [L] of at least 1.  When the stack held at least [L - 1]
    titles before the heading, it holds exactly [L] after the update, and
    the title at position [L] is the heading's text; for a level-1 heading
    whose text is empty it is the document title instead. *)
Theorem C1_breadcrumb_depth_after_heading :
  forall (rel_path : str) (st : state) (line : str) (following : list str)
         (info : header_info),
    check_header_patterns line = Some info ->
    let h := on_heading rel_path st line following info in
    hs_level h - 1 <= length (breadcrumb st) ->
    1 <= hs_level h /\
    length (breadcrumb (hs_state h)) = hs_level h /\
    nth_error (breadcrumb (hs_state h)) (hs_level h - 1)
      = Some (if (hs_level h =? 1) && negb (truthy (hs_text h))
              then doc_title (hs_state h) else hs_text h).
Proof.
  intros rel_path st line following info Hc h Hdepth.
  pose proof (heading_level_bounds rel_path st line following info Hc) as Hb.
  fold h in Hb. split; [lia|].
  assert (Hst : hs_state h
                = maintain_breadcrumb (hs_level h) (hs_text h) st)
    by apply on_heading_state.
  rewrite Hst.
  rewrite maintain_breadcrumb_stack, maintain_breadcrumb_title by lia.
  destruct (Nat.eqb_spec (hs_level h) 1) as [E|E].
  - rewrite E. simpl. split; [reflexivity|].
    now destruct (truthy (hs_text h)).
  - assert (Hlen : length (firstn (hs_level h - 1) (breadcrumb st))
                   = hs_level h - 1) by (rewrite length_firstn; lia).
    split.
    + rewrite length_app, Hlen. simpl. lia.
    + rewrite nth_error_app2 by lia. rewrite Hlen, Nat.sub_diag. reflexivity.
Qed.

Lemma C1_witness :
  let h := on_heading (lit "a.md") (State [lit "Top"; lit "Old"; lit "Older"] (lit "Top"))
             (lit "## New") [] (markdown, lit "New", [lit "##"; lit " "; lit "New"]) in
  1 <= hs_level h /\
  length (breadcrumb (hs_state h)) = 2 /\
  nth_error (breadcrumb (hs_state h)) 1 = Some (lit "New").
Proof.
  apply (C1_breadcrumb_depth_after_heading (lit "a.md")
           (State [lit "Top"; lit "Old"; lit "Older"] (lit "Top"))
           (lit "## New") [] (markdown, lit "New", [lit "##"; lit " "; lit "New"])).
  - vm_compute. reflexivity.
  - vm_compute. lia.
Defined.

(** Two documents on which the claim of C1 fails.  A colon heading at the
    start of a document resolves to level 2 and leaves a stack of one title.
    A level-1 markdown heading without text leaves the document title on the
    stack, not its own empty text. *)
Lemma C1_counterexample :
  (exists h,
      trace_of (doc ["Meeting:"]%string) (lit "n.md") (lit "n") = [Heading h] /\
      hs_level h = 2 /\
      length (breadcrumb (hs_state h)) = 1) /\
  (exists h,
      trace_of (doc ["# "]%string) (lit "n.md") (lit "n") = [Heading h] /\
      hs_level h = 1 /\ hs_text h = [] /\
      nth_error (breadcrumb (hs_state h)) 0 = Some (lit "n")).
Proof.
  split; eexists; vm_compute; repeat split.
Qed.

(* ================================================================== *)
(** ** The document title *)
(* ================================================================== *)

Lemma on_heading_title rel_path st line following info :
  let h := on_heading rel_path st line following info in
  doc_title (hs_state h) =
  if (hs_level h =? 1) && truthy (hs_text h) then hs_text h else doc_title st.
Proof.
  intros h. unfold h. rewrite on_heading_state.
  apply maintain_breadcrumb_title.
Qed.

Lemma on_heading_block rel_path st line following info block :
  let h := on_heading rel_path st line following info in
  hs_block h = Some block ->
  block = build_header_block (doc_title (hs_state h)) rel_path
            (breadcrumb (hs_state h)) (guess_aliases_from_heading (hs_text h)).
Proof.
  destruct info as [[k text] m]. unfold on_heading. cbv zeta.
  cbn [hs_block hs_state hs_text]. destruct (negb _); [|discriminate].
  now intros [= <-].
Qed.

Lemma startswith_app p s : startswith (p ++ s) p = true.
Proof.
  induction p as [|c p IH]; [reflexivity|].
  simpl. now rewrite chr_eqb_refl, IH.
Qed.

(** A metadata block opens with the title field. *)
Lemma build_header_block_title doc_title rel_path breadcrumb aliases :
  startswith (build_header_block doc_title rel_path breadcrumb aliases)
    (lit "[DocTitle: " ++ doc_title ++ lit "]") = true.
Proof.
  unfold build_header_block. cbv zeta.
  destruct (truthy (firstn 120 _)); cbn [app join];
    rewrite <- !app_assoc; rewrite (app_assoc (lit "[DocTitle: "));
    rewrite (app_assoc (lit "[DocTitle: " ++ doc_title));
    apply startswith_app.
Qed.

Lemma latest_title_cons file_stem h hs :
  latest_title file_stem (h :: hs) =
  latest_title
    (if (hs_level h =? 1) && truthy (hs_text h) then hs_text h else file_stem)
    hs.
Proof. reflexivity. Qed.

Lemma latest_title_no_level_1 hs :
  forall file_stem,
    (forall h, In h hs -> hs_level h <> 1) ->
    latest_title file_stem hs = file_stem.
Proof.
  induction hs as [|h hs IH]; intros file_stem Hall; [reflexivity|].
  rewrite latest_title_cons.
  replace (hs_level h =? 1) with false
    by (symmetry; apply Nat.eqb_neq; apply Hall; now left).
  apply IH. intros h' Hin. apply Hall. now right.
Qed.

(** The title in the state follows the level-1 headings met so far. *)
Lemma run_title rel_path rest :
  forall st before h after,
    run rel_path st rest = before ++ Heading h :: after ->
    doc_title (hs_state h) = latest_title (doc_title st) (headings before ++ [h]) /\
    forall block, hs_block h = Some block ->
      block = build_header_block (doc_title (hs_state h)) rel_path
                (breadcrumb (hs_state h)) (guess_aliases_from_heading (hs_text h)).
Proof.
  induction rest as [|l following IH]; intros st before h after E.
  - destruct before; discriminate.
  - simpl in E. destruct (check_header_patterns l) as [info|].
    + destruct before as [|e before].
      * injection E as <- _. split.
        -- cbn [headings app]. rewrite latest_title_cons.
           apply on_heading_title.
        -- intros block. apply on_heading_block.
      * injection E as <- E. destruct (IH _ _ _ _ E) as [IH1 IH2].
        split; [|exact IH2].
        cbn [headings app]. rewrite latest_title_cons, IH1.
        f_equal. apply on_heading_title.
    + destruct before as [|e before]; [discriminate|].
      injection E as <- E. exact (IH _ _ _ _ E).
Qed.

(** C6 (as the code has it).  The document title starts as the fallback
    title and is replaced by the text of every level-1 heading whose text is
    not empty, the first as well as the later ones.  So the title that a
    heading's metadata block carries is the text of the last such heading
    up to and including that heading, and the fallback title when no level-1
    heading has appeared. *)
Theorem C6_title_follows_latest_level_1_heading :
  forall (md_text rel_path file_stem : str) (before : list event)
         (h : heading_step) (after : list event),
    trace_of md_text rel_path file_stem = before ++ Heading h :: after ->
    let title := latest_title file_stem (headings before ++ [h]) in
    doc_title (hs_state h) = title /\
    (forall block, hs_block h = Some block ->
       block = build_header_block title rel_path (breadcrumb (hs_state h))
                 (guess_aliases_from_heading (hs_text h)) /\
       startswith block (lit "[DocTitle: " ++ title ++ lit "]") = true) /\
    ((forall h', In h' (headings before ++ [h]) -> hs_level h' <> 1) ->
     title = file_stem).
Proof.
  intros md_text rel_path file_stem before h after E title.
  destruct (run_title _ _ _ _ _ _ E) as [Ht Hb]. cbn [doc_title] in Ht.
  fold title in Ht. repeat split.
  - exact Ht.
  - rewrite <- Ht. now apply Hb.
  - rewrite (Hb _ H), Ht. apply build_header_block_title.
  - intros Hall. now apply latest_title_no_level_1.
Qed.

Lemma C6_witness :
  let h1 := on_heading (lit "a.md") (State [] (lit "a")) (lit "# Alpha")
              [lit "text"; lit "# Beta"]
              (markdown, lit "Alpha", [lit "#"; lit " "; lit "Alpha"]) in
  let h2 := on_heading (lit "a.md") (hs_state h1) (lit "# Beta") []
              (markdown, lit "Beta", [lit "#"; lit " "; lit "Beta"]) in
  doc_title (hs_state h2) = lit "Beta" /\
  (forall block, hs_block h2 = Some block ->
     block = build_header_block (lit "Beta") (lit "a.md")
               (breadcrumb (hs_state h2))
               (guess_aliases_from_heading (hs_text h2)) /\
     startswith block (lit "[DocTitle: Beta]") = true) /\
  ((forall h', In h' [h1; h2] -> hs_level h' <> 1) -> lit "Beta" = lit "a").
Proof.
  intros h1 h2.
  exact (C6_title_follows_latest_level_1_heading
           (doc ["# Alpha"; "text"; "# Beta"]%string) (lit "a.md") (lit "a")
           [Heading h1; Passed (lit "text")] h2 [] eq_refl).
Defined.

(** In the document "# Alpha", "# Beta" the second level-1 heading changes
    the title: its metadata block says Beta where the claim of C6 keeps
    Alpha. *)
Lemma C6_counterexample :
  exists h1 h2,
    trace_of (doc ["# Alpha"; "# Beta"]%string) (lit "a.md") (lit "a")
      = [Heading h1; Heading h2] /\
    hs_level h1 = 1 /\ hs_level h2 = 1 /\
    doc_title (hs_state h1) = lit "Alpha" /\
    doc_title (hs_state h2) = lit "Beta" /\
    hs_block h2 =
      Some (lit "[DocTitle: Beta]" ++ [LF] ++ lit "[Path: a.md]" ++ [LF]
            ++ lit "[Section: Beta]" ++ [LF] ++ lit "[Aliases: Beta]"
            ++ [LF; LF]).
Proof.
  eexists. eexists. vm_compute. repeat split.
Qed.

(* ================================================================== *)
(** ** The end of the output *)
(* ================================================================== *)

Lemma lines_text_app o1 o2 : lines_text (o1 ++ o2) = lines_text o1 ++ lines_text o2.
Proof. unfold lines_text. now rewrite map_app, concat_app. Qed.

Lemma lines_text_snoc o x : lines_text (o ++ [x]) = lines_text o ++ x ++ [LF].
Proof. rewrite lines_text_app. unfold lines_text. simpl. now rewrite app_nil_r. Qed.

Lemma join_snoc o x : join [LF] (o ++ [x]) = lines_text o ++ x.
Proof. unfold lines_text. now rewrite join_app_cons. Qed.

(** The [return] expression, by the last element of [out]. *)
Lemma finish_snoc o x :
  finish (o ++ [x]) =
  lines_text o ++ x ++ (if str_eqb x [] then [] else [LF]).
Proof.
  unfold finish. rewrite join_snoc, last_last, <- app_assoc.
  replace (truthy (o ++ [x])) with true by now destruct o.
  simpl. now destruct (str_eqb x []).
Qed.

Lemma finish_ends_with_newline out :
  out <> [[]] -> exists body, finish out = body ++ [LF].
Proof.
  intros Hout. destruct out as [|a0 out0]; [now exists []|].
  destruct (@exists_last _ (a0 :: out0)) as (out' & a & E); [discriminate|].
  rewrite E in *. clear E a0 out0. rewrite finish_snoc.
  destruct (str_eqb a []) eqn:Ea.
  - apply str_eqb_eq in Ea. subst a.
    destruct out' as [|b0 out0]; [now contradiction Hout|].
    destruct (@exists_last _ (b0 :: out0)) as (out'' & b & E); [discriminate|].
    rewrite E. exists (lines_text out'' ++ b).
    now rewrite lines_text_snoc, app_nil_r, <- !app_assoc.
  - exists (lines_text out' ++ a). now rewrite <- app_assoc.
Qed.

(** The header emitted for a heading is never empty. *)
Lemma header_nonempty rel_path st line following info :
  check_header_patterns line = Some info ->
  hs_header (on_heading rel_path st line following info) <> [].
Proof.
  destruct info as [[k text] m]. intros Hc.
  apply check_header_patterns_accepts in Hc.
  unfold on_heading. cbv zeta. cbn [hs_header].
  destruct k.
  - apply accepts_markdown_match in Hc. destruct Hc as [Hm _].
    now apply heading_match_nonempty in Hm.
  - unfold convert_to_proper_header. intros E. now apply app_eq_nil in E.
  - unfold convert_to_proper_header. intros E. now apply app_eq_nil in E.
  - unfold convert_to_proper_header. intros E. now apply app_eq_nil in E.
  - unfold convert_to_proper_header. intros E. now apply app_eq_nil in E.
  - unfold convert_to_proper_header. intros E. now apply app_eq_nil in E.
Qed.

Lemma out_of_run_nil rel_path st rest :
  out_of (run rel_path st rest) = [] -> rest = [].
Proof.
  destruct rest as [|l rest]; [reflexivity|]. simpl.
  destruct (check_header_patterns l); discriminate.
Qed.

(** [out] is the single empty string only for the single empty line. *)
Lemma out_of_run_single_empty rel_path st rest :
  out_of (run rel_path st rest) = [[]] -> rest = [[]].
Proof.
  destruct rest as [|l rest]; [discriminate|]. simpl.
  destruct (check_header_patterns l) as [info|] eqn:Hc.
  - simpl. intros [= E _]. now apply header_nonempty in E.
  - simpl. intros [= -> E]. now rewrite (out_of_run_nil _ _ _ E).
Qed.

(** Unless the input is a single empty line, the text returned ends with a
    line feed. *)
Lemma output_ends_with_newline :
  forall (md_text rel_path file_stem : str),
    splitlines md_text <> [[]] ->
    exists body, process_markdown md_text rel_path file_stem = body ++ [LF].
Proof.
  intros md_text rel_path file_stem Hlines.
  apply finish_ends_with_newline. intros E. apply Hlines.
  now apply out_of_run_single_empty in E.
Qed.

(** Two documents whose output ends in more than one line feed: blank lines
    at the end of the input are passed through, and the metadata block of a
    final heading ends with two line feeds of its own. *)
Lemma C3_counterexample :
  process_markdown (doc ["a"; EmptyString; EmptyString]%string) (lit "a.md") (lit "a")
    = doc ["a"; EmptyString]%string /\
  ends_in_exactly_one_newline
    (process_markdown (doc ["a"; EmptyString; EmptyString]%string)
       (lit "a.md") (lit "a")) = false /\
  process_markdown (doc ["# Title"]%string) (lit "a.md") (lit "a")
    = doc ["# Title"; "[DocTitle: Title]"; "[Path: a.md]"; "[Section: Title]";
           "[Aliases: Title]"; EmptyString; EmptyString]%string /\
  ends_in_exactly_one_newline
    (process_markdown (doc ["# Title"]%string) (lit "a.md") (lit "a")) = false.
Proof. vm_compute. repeat split. Qed.

(** The single empty line: [out] is the one empty string and the text
    returned is empty. *)
Example single_empty_line_gives_empty_text :
  process_markdown [LF] (lit "a.md") (lit "a") = [].
Proof. reflexivity. Qed.

(* ================================================================== *)
(** ** The look-ahead of bold headings *)
(* ================================================================== *)

Lemma determine_bold_header_level_shift breadcrumb lines i :
  determine_bold_header_level breadcrumb lines i =
  determine_bold_header_level breadcrumb (skipn i lines) 0.
Proof.
  unfold determine_bold_header_level.
  now rewrite skipn_skipn, Nat.add_comm.
Qed.

(** The stripped line never begins with two blanks. *)
Lemma strip_never_indented l : startswith (strip l) (lit "  ") = false.
Proof.
  destruct (strip l) as [|c s] eqn:E; [reflexivity|].
  apply strip_head in E. simpl.
  destruct (chr_eqb " " c) eqn:Ec; [|reflexivity].
  apply chr_eqb_eq in Ec. subst c. discriminate.
Qed.

(** C4 (where the code departs from it).  The look-ahead strips every line
    before it tests it, so its test for two leading blanks never holds: on a
    stack of depth 2, a bold heading followed by an indented line that is no
    list item resolves to level 2, where the claim says min(2 + 1, 3) = 3.
    A list item, indented or not, gives level 3. *)
Theorem C4_bold_lookahead_misses_indentation :
  (forall l, startswith (strip l) (lit "  ") = false) /\
  determine_bold_header_level [lit "A"; lit "B"]
    [lit "# A"; lit "## B"; lit "**X**"; lit "    indented text"] 2 = 2 /\
  Nat.min (length [lit "A"; lit "B"] + 1) 3 = 3 /\
  determine_bold_header_level [lit "A"; lit "B"]
    [lit "# A"; lit "## B"; lit "**X**"; lit "  - item"] 2 = 3 /\
  process_markdown (doc ["# A"; "## B"; "**X**"; "    indented text"]%string)
    (lit "a.md") (lit "a")
  = doc ["# A"; "[DocTitle: A]"; "[Path: a.md]"; "[Section: A]";
         EmptyString; EmptyString;
         "## B"; "[DocTitle: A]"; "[Path: a.md]"; "[Section: A > B]";
         EmptyString; EmptyString;
         "## X"; "[DocTitle: A]"; "[Path: a.md]"; "[Section: A > X]";
         EmptyString; EmptyString;
         "    indented text"]%string.
Proof.
  split; [exact strip_never_indented|].
  vm_compute. repeat split.
Qed.

(* ================================================================== *)
(** ** Lines that are no headings *)
(* ================================================================== *)

Lemma check_header_patterns_empty : check_header_patterns [] = None.
Proof. reflexivity. Qed.

Lemma not_heading_first_chr c s :
  chr_eqb "#" c = false -> chr_eqb "*" c = false ->
  is_upper c = false -> chr_eqb "2" c = false -> is_digit c = false ->
  check_header_patterns (c :: s) = None.
Proof.
  intros H1 H2 H3 H4 H5. unfold check_header_patterns.
  assert (E1 : match_items HEADING_RE (c :: s) = None)
    by (apply no_match_first_chr; simpl; auto).
  assert (E2 : match_items BOLD_HEADING_RE (c :: s) = None)
    by (apply no_match_first_chr; simpl; auto).
  assert (E3 : match_items COLON_HEADING_RE (c :: s) = None)
    by (apply no_match_first_chr; simpl; auto).
  assert (E4 : match_items DATE_HEADING_RE (c :: s) = None)
    by (apply no_match_first_chr; simpl; auto).
  assert (E5 : match_items NUMBERED_HEADING_RE (c :: s) = None)
    by (apply no_match_first_chr; simpl; auto).
  assert (E6 : match_items ALLCAPS_HEADING_RE (c :: s) = None)
    by (apply no_match_first_chr; simpl; auto).
  now rewrite E1, E2, E3, E4, E5, E6.
Qed.

Lemma space_starts_no_heading c s :
  is_space c = true -> check_header_patterns (c :: s) = None.
Proof.
  intros H. apply not_heading_first_chr; revert H; all_chars c.
Qed.

Lemma bracket_starts_no_heading s : check_header_patterns ("["%char :: s) = None.
Proof. now apply not_heading_first_chr. Qed.

(** A line whose stripped text is empty or opens with a square bracket is
    no heading. *)
Lemma blank_no_heading l : strip l = [] -> check_header_patterns l = None.
Proof.
  intros E. destruct (strip_decompose l) as (pre & post & El & Hpre & Hpost).
  rewrite E in El. simpl in El. subst l.
  destruct pre as [|c pre]; simpl in *.
  - destruct post as [|c post]; [reflexivity|]. simpl in Hpost.
    apply andb_true_iff in Hpost. now apply space_starts_no_heading.
  - apply andb_true_iff in Hpre. now apply space_starts_no_heading.
Qed.

Lemma bracket_line_no_heading l s :
  strip l = "["%char :: s -> check_header_patterns l = None.
Proof.
  intros E. destruct (strip_decompose l) as (pre & post & El & Hpre & _).
  rewrite E in El. subst l. destruct pre as [|c pre]; simpl in *.
  - apply bracket_starts_no_heading.
  - apply andb_true_iff in Hpre. now apply space_starts_no_heading.
Qed.

Lemma startswith_doctitle s :
  startswith s (lit "[DocTitle:") = true -> exists s', s = "["%char :: s'.
Proof.
  destruct s as [|c s]; [discriminate|]. simpl. intros H.
  apply andb_true_iff in H. destruct H as [H _].
  apply chr_eqb_eq in H. subst c. now exists s.
Qed.

Lemma injected_line_no_heading l :
  startswith (strip l) (lit "[DocTitle:") = true ->
  check_header_patterns l = None.
Proof.
  intros H. apply startswith_doctitle in H. destruct H as (s' & E).
  eapply bracket_line_no_heading; eauto.
Qed.

(* ================================================================== *)
(** ** A converted header is a markdown heading *)
(* ================================================================== *)

Lemma run_length_all p s : forallb p s = true -> run_length p s = length s.
Proof.
  induction s as [|c s IH]; simpl; [reflexivity|].
  intros H. apply andb_true_iff in H. destruct H as [-> H].
  now rewrite IH.
Qed.

Lemma run_length_hashes n c s :
  chr_eqb "#" c = false -> run_length (chr_eqb "#") (hashes n ++ c :: s) = n.
Proof.
  intros Hc. induction n as [|n IH]; simpl.
  - now rewrite Hc.
  - f_equal. exact IH.
Qed.

Lemma skipn_hashes n s : skipn n (hashes n ++ s) = s.
Proof.
  rewrite skipn_app. unfold hashes. rewrite repeat_length, Nat.sub_diag.
  rewrite skipn_all2 by (rewrite repeat_length; lia). reflexivity.
Qed.

Lemma match_any_tail s :
  forallb any_chr s = true -> exists m, match_items [many any_chr 0] s = Some m.
Proof.
  intros H. eexists. unfold match_items.
  apply backtrack_first; [simpl; lia|].
  unfold greedy. simpl hi. simpl cls. rewrite (run_length_all _ _ H).
  rewrite skipn_all. simpl. reflexivity.
Qed.

Lemma match_space_any_tail s :
  forallb any_chr s = true ->
  exists m, match_items [many is_space 1; many any_chr 0] (SP :: s) = Some m.
Proof.
  intros H.
  set (k := greedy (many is_space 1) (SP :: s)).
  assert (Hk : 1 <= k) by (unfold k, greedy; simpl; lia).
  destruct (match_any_tail (skipn k (SP :: s))) as (m & Hm).
  { destruct k; [lia|]. simpl.
    rewrite <- (firstn_skipn k s) in H. rewrite forallb_app in H.
    apply andb_true_iff in H. tauto. }
  exists (firstn k (SP :: s) :: m).
  change (match_items [many is_space 1; many any_chr 0] (SP :: s))
    with (backtrack
            (fun j => option_map (cons (firstn j (SP :: s)))
                        (match_items [many any_chr 0] (skipn j (SP :: s))))
            1 k).
  apply backtrack_first; [exact Hk|]. now rewrite Hm.
Qed.

(** [level] hash signs, a blank and a text without line feed match
    [HEADING_RE] when [level] is between 1 and 6. *)
Lemma converted_header_matches level text :
  1 <= level <= 6 -> forallb any_chr text = true ->
  exists m, match_items HEADING_RE (hashes level ++ [SP] ++ text) = Some m.
Proof.
  intros Hl Ht.
  destruct (match_space_any_tail text Ht) as (m & Hm).
  exists (hashes level :: m).
  change (match_items HEADING_RE (hashes level ++ [SP] ++ text))
    with (backtrack
            (fun j => option_map (cons (firstn j (hashes level ++ [SP] ++ text)))
                        (match_items [many is_space 1; many any_chr 0]
                           (skipn j (hashes level ++ [SP] ++ text))))
            1 (greedy (upto (chr_eqb "#") 1 6) (hashes level ++ [SP] ++ text))).
  assert (Hg : greedy (upto (chr_eqb "#") 1 6) (hashes level ++ [SP] ++ text)
               = level).
  { unfold greedy. simpl hi. simpl cls. simpl app at 1.
    rewrite run_length_hashes by reflexivity. lia. }
  rewrite Hg. apply backtrack_first; [lia|].
  rewrite skipn_hashes. change ([SP] ++ text) with (SP :: text).
  rewrite Hm. simpl. f_equal. f_equal.
  rewrite firstn_app. unfold hashes. rewrite repeat_length, Nat.sub_diag.
  rewrite firstn_all2 by (rewrite repeat_length; lia).
  simpl. now rewrite app_nil_r.
Qed.

(* ================================================================== *)
(** ** Lines without line boundaries *)
(* ================================================================== *)

Lemma forallb_firstn A (q : A -> bool) n l :
  forallb q l = true -> forallb q (firstn n l) = true.
Proof.
  intros H. rewrite <- (firstn_skipn n l), forallb_app in H.
  apply andb_true_iff in H. tauto.
Qed.

Lemma forallb_skipn A (q : A -> bool) n l :
  forallb q l = true -> forallb q (skipn n l) = true.
Proof.
  intros H. rewrite <- (firstn_skipn n l), forallb_app in H.
  apply andb_true_iff in H. tauto.
Qed.

Lemma forallb_concat (q : ascii -> bool) m :
  forallb q (concat m) = forallb (forallb q) m.
Proof.
  induction m as [|p m IH]; [reflexivity|].
  simpl. now rewrite forallb_app, IH.
Qed.

Lemma forallb_filter A (q f : A -> bool) l :
  forallb q l = true -> forallb q (filter f l) = true.
Proof.
  induction l as [|x l IH]; simpl; [auto|].
  intros H. apply andb_true_iff in H. destruct H as [Hx Hl].
  destruct (f x); simpl; [rewrite Hx|]; auto.
Qed.

Lemma forallb_join (q : ascii -> bool) sep parts :
  forallb q sep = true -> forallb (forallb q) parts = true ->
  forallb q (join sep parts) = true.
Proof.
  intros Hsep. induction parts as [|x parts IH]; [reflexivity|].
  intros H. simpl in H. apply andb_true_iff in H. destruct H as [Hx Hp].
  destruct parts as [|y parts]; [exact Hx|].
  rewrite join_cons_cons, !forallb_app, Hx, Hsep. simpl. now apply IH.
Qed.

Lemma forallb_insert_sorted (q : str -> bool) x l :
  q x = true -> forallb q l = true -> forallb q (insert_sorted x l) = true.
Proof.
  intros Hx. induction l as [|y l IH]; simpl; [now rewrite Hx|].
  intros H. apply andb_true_iff in H. destruct H as [Hy Hl].
  destruct (str_ltb x y); simpl; [now rewrite Hx, Hy, Hl|].
  destruct (str_eqb x y); simpl; [now rewrite Hy, Hl|].
  now rewrite Hy, IH.
Qed.

Lemma forallb_sorted_set (q : str -> bool) l :
  forallb q l = true -> forallb q (sorted_set l) = true.
Proof.
  induction l as [|x l IH]; simpl; [auto|].
  intros H. apply andb_true_iff in H. destruct H as [Hx Hl].
  apply forallb_insert_sorted; auto.
Qed.

Lemma forallb_remove_literal (q : ascii -> bool) pat s :
  forall skip, forallb q s = true ->
               forallb q (remove_literal pat skip s) = true.
Proof.
  induction s as [|c s IH]; intros skip H; [reflexivity|].
  simpl in H. apply andb_true_iff in H. destruct H as [Hc Hs].
  cbn [remove_literal]. destruct skip; [|now apply IH].
  destruct (startswith (c :: s) pat); [now apply IH|].
  simpl. rewrite Hc. now apply IH.
Qed.

Lemma forallb_split (q : ascii -> bool) s :
  forallb q s = true -> forallb (forallb q) (split s) = true.
Proof.
  induction s as [|c s IH]; [reflexivity|].
  intros H. simpl in H. apply andb_true_iff in H. destruct H as [Hc Hs].
  specialize (IH Hs). destruct s as [|c' s'].
  - simpl. destruct (is_space c); simpl; now rewrite ?Hc.
  - change (split (c :: c' :: s'))
      with (if is_space c then split (c' :: s')
            else if is_space c' then [c] :: split (c' :: s')
                 else match split (c' :: s') with
                      | t :: ts => (c :: t) :: ts
                      | [] => [[c]]
                      end).
    destruct (is_space c); [exact IH|].
    destruct (is_space c'); [cbn [forallb]; now rewrite Hc, IH|].
    destruct (split (c' :: s')) as [|t ts]; [cbn [forallb]; now rewrite Hc|].
    cbn [forallb] in *. now rewrite Hc.
Qed.

Lemma no_linebreak_app a b :
  no_linebreak (a ++ b) = no_linebreak a && no_linebreak b.
Proof. apply forallb_app. Qed.

Lemma lines_ok_cons l ls : lines_ok (l :: ls) = no_linebreak l && lines_ok ls.
Proof. reflexivity. Qed.

Lemma lines_ok_app a b : lines_ok (a ++ b) = lines_ok a && lines_ok b.
Proof. apply forallb_app. Qed.

(** The lines of [splitlines] hold no line boundary. *)
Lemma splitlines_lines_ok_bounded n :
  forall s, length s <= n -> lines_ok (splitlines s) = true.
Proof.
  induction n as [|n IH]; intros s Hn.
  - destruct s; [reflexivity|simpl in Hn; lia].
  - destruct s as [|c s]; [reflexivity|]. simpl in Hn. cbn [splitlines].
    destruct (is_linebreak c) eqn:Ec.
    + destruct s as [|c2 s2]; [reflexivity|].
      destruct (chr_eqb c CR && chr_eqb c2 LF); rewrite lines_ok_cons;
        apply IH; simpl in *; lia.
    + assert (Hs : lines_ok (splitlines s) = true) by (apply IH; lia).
      destruct (splitlines s) as [|l ls]; rewrite lines_ok_cons in *;
        unfold no_linebreak in *; cbn [forallb]; rewrite Ec; [reflexivity|].
      exact Hs.
Qed.

Lemma splitlines_lines_ok s : lines_ok (splitlines s) = true.
Proof. now apply (splitlines_lines_ok_bounded (length s)). Qed.

(** Splitting the text of lines without line boundaries gives the lines
    back. *)
Lemma splitlines_line l rest :
  no_linebreak l = true ->
  splitlines (l ++ LF :: rest) = l :: splitlines rest.
Proof.
  induction l as [|c l IH]; intros H.
  - simpl. destruct rest; reflexivity.
  - simpl in H. apply andb_true_iff in H. destruct H as [Hc Hl].
    apply negb_true_iff in Hc.
    change ((c :: l) ++ LF :: rest) with (c :: (l ++ LF :: rest)).
    cbn [splitlines]. rewrite Hc, (IH Hl). reflexivity.
Qed.

Lemma splitlines_lines_text ls :
  lines_ok ls = true -> splitlines (lines_text ls) = ls.
Proof.
  induction ls as [|l ls IH]; [reflexivity|].
  intros H. simpl in H. apply andb_true_iff in H. destruct H as [Hl Hls].
  unfold lines_text. simpl. rewrite <- app_assoc. simpl.
  rewrite splitlines_line by assumption. f_equal. now apply IH.
Qed.

(** The pieces of a match and the extracted text are made of characters of
    the line. *)
Lemma match_pieces_chars (q : ascii -> bool) items line m a b :
  match_items items line = Some m -> forallb q line = true ->
  forallb q (pieces m a b) = true.
Proof.
  intros Hm Hq. apply match_items_taken in Hm.
  assert (Hc : forallb q (concat m) = true).
  { destruct (taken_concat _ _ _ Hm) as [E|E]; rewrite E in Hq; [exact Hq|].
    rewrite forallb_app in Hq. apply andb_true_iff in Hq. tauto. }
  unfold pieces. rewrite forallb_concat in *.
  now apply forallb_firstn, forallb_skipn.
Qed.

Lemma accepts_text_chars (q : ascii -> bool) k line text m :
  accepts k line = Some (text, m) ->
  q " "%char = true -> q "."%char = true -> forallb q line = true ->
  forallb q text = true.
Proof.
  intros Ha Hsp Hdot Hq. destruct k; unfold accepts in Ha;
    match type of Ha with
    | context [match_items ?r line] =>
        destruct (match_items r line) as [m0|] eqn:E;
        cbn [option_map] in Ha; [|discriminate]
    end;
    try (match type of Ha with
         | (if ?c then _ else _) = _ => destruct c; [|discriminate]
         end);
    injection Ha as <- <-;
    try (apply forallb_strip; eapply match_pieces_chars; eauto).
  rewrite !forallb_app. simpl. rewrite Hsp, Hdot.
  rewrite (match_pieces_chars q _ _ _ 0 1 E Hq). simpl.
  apply forallb_strip. eapply match_pieces_chars; eauto.
Qed.

Lemma heading_text_no_linebreak line k text m :
  check_header_patterns line = Some (k, text, m) ->
  no_linebreak line = true -> no_linebreak text = true.
Proof.
  intros Hc Hl. apply check_header_patterns_accepts in Hc.
  eapply (accepts_text_chars (fun c => negb (is_linebreak c))); eauto.
Qed.

Lemma no_linebreak_hashes n : no_linebreak (hashes n) = true.
Proof. induction n; simpl; auto. Qed.

Lemma no_linebreak_rstrip_chr c s :
  no_linebreak s = true -> no_linebreak (rstrip_chr c s) = true.
Proof.
  intros H. unfold no_linebreak, rstrip_chr.
  rewrite forallb_rev. apply forallb_drop_while. now rewrite forallb_rev.
Qed.

Lemma convert_no_linebreak text level k :
  no_linebreak text = true ->
  no_linebreak (convert_to_proper_header text level k) = true.
Proof.
  intros H. unfold convert_to_proper_header.
  destruct k; rewrite !no_linebreak_app, no_linebreak_hashes; simpl;
    auto using no_linebreak_rstrip_chr.
Qed.

Lemma on_heading_text rel_path st line following k text m :
  hs_text (on_heading rel_path st line following (k, text, m)) = text.
Proof. reflexivity. Qed.

Lemma on_heading_header_no_linebreak rel_path st line following info :
  check_header_patterns line = Some info ->
  no_linebreak line = true ->
  no_linebreak (hs_header (on_heading rel_path st line following info)) = true.
Proof.
  destruct info as [[k text] m]. intros Hc Hl.
  pose proof (heading_text_no_linebreak _ _ _ _ Hc Hl) as Ht.
  unfold on_heading. cbv zeta. cbn [hs_header].
  destruct k; auto using convert_no_linebreak.
Qed.

Lemma forallb_pop_from_end (q : str -> bool) level r :
  forallb q r = true -> forallb q (pop_from_end level r) = true.
Proof.
  induction r as [|x r IH]; [auto|]. intros H. cbn [pop_from_end].
  destruct (level <=? length (x :: r)); [|exact H].
  simpl in H. apply andb_true_iff in H. now apply IH.
Qed.

Lemma maintain_breadcrumb_ok level text st :
  no_linebreak text = true -> state_ok st = true ->
  state_ok (maintain_breadcrumb level text st) = true.
Proof.
  unfold state_ok, lines_ok. intros Ht Hst.
  apply andb_true_iff in Hst. destruct Hst as [Htitle Hbc].
  unfold maintain_breadcrumb. destruct (level =? 1); cbn [doc_title breadcrumb].
  - destruct (truthy text); simpl; rewrite ?Ht, ?Htitle; reflexivity.
  - rewrite Htitle, forallb_app, forallb_rev. simpl. rewrite Ht.
    rewrite forallb_pop_from_end by now rewrite forallb_rev.
    reflexivity.
Qed.

Lemma on_heading_state_ok rel_path st line following info :
  check_header_patterns line = Some info ->
  no_linebreak line = true -> state_ok st = true ->
  state_ok (hs_state (on_heading rel_path st line following info)) = true.
Proof.
  intros Hc Hl Hst. rewrite on_heading_state.
  apply maintain_breadcrumb_ok; [|assumption].
  destruct info as [[k text] m]. rewrite on_heading_text.
  eapply heading_text_no_linebreak; eauto.
Qed.

Lemma forallb_mapped A B (q : B -> bool) (f : A -> B) l :
  forallb q (map f l) = forallb (fun x => q (f x)) l.
Proof. induction l as [|x l IH]; simpl; [reflexivity|now rewrite IH]. Qed.

Lemma aliases_no_linebreak text :
  no_linebreak text = true ->
  lines_ok (guess_aliases_from_heading text) = true.
Proof.
  intros H. unfold guess_aliases_from_heading, lines_ok, no_linebreak.
  apply forallb_firstn, forallb_filter, forallb_split, forallb_remove_literal.
  rewrite forallb_mapped. eapply forallb_impl; [|exact H].
  intros c Hc. simpl. now destruct (alias_punctuation c).
Qed.

Lemma block_lines_ok doc_title rel_path breadcrumb aliases :
  no_linebreak doc_title = true -> no_linebreak rel_path = true ->
  lines_ok breadcrumb = true -> lines_ok aliases = true ->
  lines_ok (block_lines doc_title rel_path breadcrumb aliases) = true.
Proof.
  intros Ht Hr Hb Ha. unfold block_lines. cbv zeta.
  set (bs := if truthy breadcrumb then join (lit " > ") breadcrumb
             else doc_title).
  set (al := firstn 120 (join (lit ", ") (sorted_set (filter truthy aliases)))).
  assert (Hbs : no_linebreak bs = true).
  { subst bs. destruct (truthy breadcrumb); [|assumption].
    apply forallb_join; [reflexivity|assumption]. }
  assert (Hal : no_linebreak al = true).
  { subst al. apply forallb_firstn, forallb_join; [reflexivity|].
    apply forallb_sorted_set, forallb_filter. exact Ha. }
  clearbody bs al. unfold lines_ok. rewrite forallb_app. cbn [forallb].
  rewrite !no_linebreak_app, Ht, Hr, Hbs.
  destruct (truthy al); cbn [forallb];
    rewrite ?no_linebreak_app, ?Hal; reflexivity.
Qed.

(** The lines written by the loop hold no line boundary when the input
    lines, the path and the state hold none. *)
Lemma output_lines_ok rel_path rest :
  no_linebreak rel_path = true ->
  forall st, lines_ok rest = true -> state_ok st = true ->
             lines_ok (output_lines rel_path st rest) = true.
Proof.
  intros Hrel. induction rest as [|line following IH]; intros st Hrest Hst;
    [reflexivity|].
  rewrite lines_ok_cons in Hrest. apply andb_true_iff in Hrest.
  destruct Hrest as [Hl Hf].
  cbn [output_lines]. destruct (check_header_patterns line) as [info|] eqn:Hc.
  - pose proof (on_heading_state_ok rel_path st line following info Hc Hl Hst)
      as Hst'.
    pose proof (on_heading_header_no_linebreak rel_path st line following info
                  Hc Hl) as Hh.
    cbv zeta. rewrite lines_ok_cons, Hh, lines_ok_app, (IH _ Hf Hst').
    rewrite andb_true_r. cbn [andb].
    destruct (startswith (next_nonempty following) (lit "[DocTitle:"));
      [reflexivity|].
    rewrite lines_ok_app, andb_true_r.
    pose proof Hst' as Hst2. unfold state_ok in Hst2.
    apply andb_true_iff in Hst2. destruct Hst2 as [Htitle Hbc].
    apply block_lines_ok; auto.
    apply aliases_no_linebreak.
    destruct info as [[k text] m]. rewrite on_heading_text.
    eapply heading_text_no_linebreak; eauto.
  - rewrite lines_ok_cons, Hl. now apply IH.
Qed.

(* ================================================================== *)
(** ** The output of the loop as a list of lines *)
(* ================================================================== *)

Lemma build_header_block_lines doc_title rel_path breadcrumb aliases :
  build_header_block doc_title rel_path breadcrumb aliases =
  join [LF] (block_lines doc_title rel_path breadcrumb aliases) ++ [LF; LF].
Proof.
  unfold build_header_block, block_lines. cbv zeta.
  now destruct (truthy (firstn 120 _)).
Qed.

Lemma lines_text_cons l ls : lines_text (l :: ls) = l ++ [LF] ++ lines_text ls.
Proof. unfold lines_text. simpl. now rewrite <- app_assoc. Qed.

Lemma join_lines_text l ls : join [LF] (l :: ls) ++ [LF] = lines_text (l :: ls).
Proof.
  revert l. induction ls as [|y ls IH]; intros l.
  - unfold lines_text. simpl. now rewrite app_nil_r.
  - rewrite join_cons_cons, <- !app_assoc, IH. now rewrite (lines_text_cons l).
Qed.

Lemma block_lines_cons doc_title rel_path breadcrumb aliases :
  exists tail,
    block_lines doc_title rel_path breadcrumb aliases =
    ("["%char :: (lit "DocTitle: " ++ doc_title) ++ ["]"%char]) :: tail.
Proof.
  unfold block_lines. cbv zeta. eexists. reflexivity.
Qed.

(** A block in [out] gives the lines of the block and two empty lines. *)
Lemma block_text_lines doc_title rel_path breadcrumb aliases :
  lines_text [build_header_block doc_title rel_path breadcrumb aliases] =
  lines_text (block_lines doc_title rel_path breadcrumb aliases ++ [[]; []]).
Proof.
  rewrite build_header_block_lines.
  destruct (block_lines_cons doc_title rel_path breadcrumb aliases)
    as (tail & ->).
  set (l := "["%char :: _).
  rewrite (lines_text_app (l :: tail)), <- (join_lines_text l tail).
  unfold lines_text. cbn [concat map app].
  rewrite ?app_nil_r, <- ?app_assoc. reflexivity.
Qed.

Lemma on_heading_block_eq rel_path st line following info :
  let h := on_heading rel_path st line following info in
  hs_block h =
  if startswith (next_nonempty following) (lit "[DocTitle:") then None
  else Some (build_header_block (doc_title (hs_state h)) rel_path
               (breadcrumb (hs_state h))
               (guess_aliases_from_heading (hs_text h))).
Proof.
  destruct info as [[k text] m]. unfold on_heading. cbv zeta.
  cbn [hs_block hs_state hs_text]. now destruct (startswith _ _).
Qed.

Lemma emitted_heading_text rel_path st line following info :
  let h := on_heading rel_path st line following info in
  lines_text (emitted (Heading h)) =
  lines_text
    (hs_header h ::
     (if startswith (next_nonempty following) (lit "[DocTitle:") then []
      else block_lines (doc_title (hs_state h)) rel_path
             (breadcrumb (hs_state h))
             (guess_aliases_from_heading (hs_text h)) ++ [[]; []])).
Proof.
  intros h. unfold emitted. rewrite (on_heading_block_eq _ _ _ _ _ : hs_block h = _).
  fold h. destruct (startswith _ _); [reflexivity|].
  rewrite (lines_text_cons (hs_header h)), (lines_text_cons (hs_header h)).
  f_equal. f_equal. apply block_text_lines.
Qed.

(** The text of [out], with a line feed after every element, is the text
    of the lines written. *)
Lemma out_text_output_lines rel_path rest :
  forall st,
    lines_text (out_of (run rel_path st rest))
    = lines_text (output_lines rel_path st rest).
Proof.
  induction rest as [|line following IH]; intros st; [reflexivity|].
  cbn [run output_lines].
  destruct (check_header_patterns line) as [info|].
  - cbv zeta. unfold out_of. cbn [flat_map].
    fold (out_of (run rel_path
                    (hs_state (on_heading rel_path st line following info))
                    following)).
    rewrite lines_text_app, emitted_heading_text, IH.
    now rewrite <- lines_text_app.
  - unfold out_of. cbn [flat_map emitted].
    fold (out_of (run rel_path st following)).
    change ([line] ++ out_of (run rel_path st following))
      with (line :: out_of (run rel_path st following)).
    now rewrite !lines_text_cons, IH.
Qed.

Lemma block_nonempty doc_title rel_path breadcrumb aliases :
  build_header_block doc_title rel_path breadcrumb aliases <> [].
Proof.
  rewrite build_header_block_lines. intros E. apply app_eq_nil in E.
  destruct E as [_ E]. discriminate.
Qed.

Lemma emitted_heading_last rel_path st line following info :
  check_header_patterns line = Some info ->
  last (emitted (Heading (on_heading rel_path st line following info))) [] <> [].
Proof.
  intros Hc. unfold emitted. rewrite on_heading_block_eq.
  destruct (startswith _ _).
  - simpl. now apply header_nonempty.
  - simpl. apply block_nonempty.
Qed.

Lemma out_of_run_nonempty rel_path st line following :
  out_of (run rel_path st (line :: following)) <> [].
Proof.
  simpl. destruct (check_header_patterns line); discriminate.
Qed.

Lemma app_snoc_inv A (a b o : list A) x :
  b <> [] -> a ++ b = o ++ [x] -> exists o', b = o' ++ [x] /\ o = a ++ o'.
Proof.
  intros Hb E. destruct (@exists_last _ b Hb) as (o' & y & ->).
  rewrite app_assoc in E. apply app_inj_tail in E. destruct E as [<- <-].
  now exists o'.
Qed.

(** When [out] ends with the empty string, the lines written end with an
    empty line, and the text before it is the same. *)
Lemma out_ends_empty rel_path rest :
  forall st o,
    out_of (run rel_path st rest) = o ++ [[]] ->
    exists f, output_lines rel_path st rest = f ++ [[]] /\
              lines_text o = lines_text f.
Proof.
  induction rest as [|line following IH]; intros st o E.
  - destruct o; discriminate.
  - destruct following as [|l2 following].
    + cbn [run output_lines] in *.
      destruct (check_header_patterns line) as [info|] eqn:Hc.
      * exfalso. apply (emitted_heading_last rel_path st line [] info Hc).
        unfold out_of in E. cbn [flat_map] in E. rewrite app_nil_r in E.
        rewrite E. apply last_last.
      * unfold out_of in E. cbn [flat_map emitted app] in E.
        destruct o as [|? [|? ?]]; try discriminate.
        injection E as ->. now exists [].
    + remember (l2 :: following) as rest' eqn:Hrest'.
      cbn [run output_lines] in *.
      destruct (check_header_patterns line) as [info|] eqn:Hc.
      * cbv zeta in *. unfold out_of in E. cbn [flat_map] in E.
        set (h := on_heading rel_path st line rest' info) in *.
        fold (out_of (run rel_path (hs_state h) rest')) in E.
        apply app_snoc_inv in E;
          [|subst rest'; apply out_of_run_nonempty].
        destruct E as (o' & E1 & ->).
        destruct (IH _ _ E1) as (f & Ef & Ht).
        rewrite Ef. eexists. split.
        -- rewrite app_comm_cons, app_assoc. reflexivity.
        -- rewrite lines_text_app, Ht.
           pose proof (emitted_heading_text rel_path st line rest' info) as Eh.
           cbv zeta in Eh. fold h in Eh. rewrite Eh.
           now rewrite <- lines_text_app.
      * unfold out_of in E. cbn [flat_map emitted] in E.
        fold (out_of (run rel_path st rest')) in E.
        apply app_snoc_inv in E;
          [|subst rest'; apply out_of_run_nonempty].
        destruct E as (o' & E1 & ->).
        destruct (IH _ _ E1) as (f & Ef & Ht).
        rewrite Ef. exists (line :: f). split; [reflexivity|].
        simpl app. now rewrite !lines_text_cons, Ht.
Qed.

(* ================================================================== *)
(** ** The output of the loop is settled *)
(* ================================================================== *)

Lemma no_linebreak_any_chr s :
  no_linebreak s = true -> forallb any_chr s = true.
Proof.
  apply forallb_impl. intros c. unfold any_chr. all_chars c.
Qed.

(** The header written for a heading is a markdown heading. *)
Lemma header_is_markdown rel_path st line following info :
  check_header_patterns line = Some info ->
  no_linebreak line = true ->
  exists text m,
    check_header_patterns (hs_header (on_heading rel_path st line following info))
    = Some (markdown, text, m).
Proof.
  intros Hc Hl.
  pose proof (heading_level_bounds rel_path st line following info Hc) as Hb.
  destruct info as [[k text] m].
  pose proof (heading_text_no_linebreak _ _ _ _ Hc Hl) as Ht.
  assert (Hconv : forall t, no_linebreak t = true ->
            forall level, 1 <= level <= 6 ->
            exists text' m',
              check_header_patterns (hashes level ++ [SP] ++ t)
              = Some (markdown, text', m')).
  { intros t Hnl level Hlevel.
    destruct (converted_header_matches level t Hlevel
                (no_linebreak_any_chr _ Hnl)) as (m' & Hm').
    exists (strip (pieces m' 2 1)), m'.
    unfold check_header_patterns. now rewrite Hm'. }
  unfold on_heading in *. cbv zeta in *. cbn [hs_header hs_level] in *.
  destruct k; unfold convert_to_proper_header;
    auto using no_linebreak_rstrip_chr.
  now exists text, m.
Qed.

Lemma strip_bracketed s :
  strip ("["%char :: s ++ ["]"%char]) = "["%char :: s ++ ["]"%char].
Proof.
  unfold strip, rstrip, lstrip. cbn [drop_while].
  change (is_space "[") with false. cbv iota.
  change ("["%char :: s ++ ["]"%char]) with (("["%char :: s) ++ ["]"%char]).
  rewrite rev_app_distr. cbn [rev app drop_while].
  change (is_space "]") with false. cbv iota.
  change ("]"%char :: rev s ++ ["["%char])
    with (rev ["]"%char] ++ rev ("["%char :: s)).
  rewrite <- rev_app_distr. apply rev_involutive.
Qed.

Lemma next_nonempty_block doc_title rel_path breadcrumb aliases rest :
  startswith
    (next_nonempty (block_lines doc_title rel_path breadcrumb aliases ++ rest))
    (lit "[DocTitle:") = true.
Proof.
  destruct (block_lines_cons doc_title rel_path breadcrumb aliases)
    as (tail & ->).
  cbn [app next_nonempty]. rewrite strip_bracketed. reflexivity.
Qed.

Lemma settled_cons l post :
  settled (l :: post) =
  match check_header_patterns l with
  | None => true
  | Some (k, _, _) =>
      pattern_type_eqb k markdown
      && startswith (next_nonempty post) (lit "[DocTitle:")
  end && settled post.
Proof. reflexivity. Qed.

Lemma settled_skip l post :
  check_header_patterns l = None -> settled (l :: post) = settled post.
Proof. intros H. now rewrite settled_cons, H. Qed.

Lemma settled_block doc_title rel_path breadcrumb aliases rest :
  settled (block_lines doc_title rel_path breadcrumb aliases ++ [[]; []] ++ rest)
  = settled rest.
Proof.
  unfold block_lines. cbv zeta.
  destruct (truthy (firstn 120 _)); cbn [app];
    repeat (rewrite settled_skip;
            [|first [apply bracket_starts_no_heading
                    |apply check_header_patterns_empty]]);
    reflexivity.
Qed.

Lemma next_nonempty_cons l post :
  next_nonempty (l :: post) =
  if truthy (strip l) then strip l else next_nonempty post.
Proof. reflexivity. Qed.

Lemma truthy_false A (l : list A) : truthy l = false -> l = [].
Proof. now destruct l. Qed.

(** Blank lines and the line that opens a metadata block are passed
    through, so the look-ahead of the guard finds the same line in the
    output. *)
Lemma next_nonempty_output rel_path following :
  forall st,
    startswith (next_nonempty following) (lit "[DocTitle:") = true ->
    next_nonempty (output_lines rel_path st following)
    = next_nonempty following.
Proof.
  induction following as [|p following IH]; intros st H; [discriminate|].
  rewrite next_nonempty_cons in H. cbn [output_lines].
  destruct (truthy (strip p)) eqn:Et.
  - rewrite (injected_line_no_heading p H).
    now rewrite !next_nonempty_cons, Et.
  - apply truthy_false in Et.
    rewrite (blank_no_heading p Et).
    rewrite !next_nonempty_cons, Et. simpl truthy. cbv iota. now apply IH.
Qed.

Lemma settled_output_lines rel_path rest :
  forall st, lines_ok rest = true ->
             settled (output_lines rel_path st rest) = true.
Proof.
  induction rest as [|line following IH]; intros st Hrest; [reflexivity|].
  rewrite lines_ok_cons in Hrest. apply andb_true_iff in Hrest.
  destruct Hrest as [Hl Hf]. cbn [output_lines].
  destruct (check_header_patterns line) as [info|] eqn:Hc.
  - cbv zeta.
    destruct (header_is_markdown rel_path st line following info Hc Hl)
      as (text' & m' & Hmd).
    rewrite settled_cons, Hmd. cbn [pattern_type_eqb andb].
    destruct (startswith (next_nonempty following) (lit "[DocTitle:")) eqn:Einj.
    + cbn [app]. rewrite next_nonempty_output by assumption.
      rewrite Einj. now apply IH.
    + rewrite <- app_assoc, next_nonempty_block, settled_block.
      now apply IH.
  - rewrite settled_cons, Hc. now apply IH.
Qed.

(** On a settled text the loop passes every line through and injects
    nothing. *)
Lemma settled_run rel_path ls :
  settled ls = true ->
  forall st, out_of (run rel_path st ls) = ls /\
             injects_nothing (run rel_path st ls) = true.
Proof.
  induction ls as [|l post IH]; intros Hs st; [now split|].
  rewrite settled_cons in Hs. apply andb_true_iff in Hs.
  destruct Hs as [Hl Hpost]. cbn [run].
  destruct (check_header_patterns l) as [[[k text] m]|] eqn:Hc.
  - apply andb_true_iff in Hl. destruct Hl as [Hk Hinj].
    destruct k; try discriminate.
    set (h := on_heading rel_path st l post (markdown, text, m)).
    assert (Hb : hs_block h = None).
    { unfold h. rewrite on_heading_block_eq. now rewrite Hinj. }
    destruct (IH Hpost (hs_state h)) as [IH1 IH2].
    unfold out_of, injects_nothing. cbn [flat_map forallb emitted].
    rewrite Hb. fold (out_of (run rel_path (hs_state h) post)).
    fold (injects_nothing (run rel_path (hs_state h) post)).
    rewrite IH1, IH2. now split.
  - destruct (IH Hpost st) as [IH1 IH2].
    unfold out_of, injects_nothing. cbn [flat_map forallb emitted].
    fold (out_of (run rel_path st post)).
    fold (injects_nothing (run rel_path st post)).
    rewrite IH1, IH2. now split.
Qed.

Lemma next_nonempty_snoc_empty f : next_nonempty (f ++ [[]]) = next_nonempty f.
Proof.
  induction f as [|l f IH]; [reflexivity|].
  cbn [app]. rewrite !next_nonempty_cons, IH. reflexivity.
Qed.

Lemma settled_snoc_empty f : settled (f ++ [[]]) = settled f.
Proof.
  induction f as [|l f IH]; [reflexivity|].
  cbn [app]. now rewrite !settled_cons, next_nonempty_snoc_empty, IH.
Qed.

(* ================================================================== *)
(** ** Running the rewriter on its own output *)
(* ================================================================== *)

(** The text returned is the text of a settled list of lines. *)
Lemma process_markdown_settled md_text rel_path file_stem :
  no_linebreak rel_path = true -> no_linebreak file_stem = true ->
  exists ls,
    process_markdown md_text rel_path file_stem = lines_text ls /\
    lines_ok ls = true /\ settled ls = true.
Proof.
  intros Hrel Hstem. unfold process_markdown, trace_of.
  set (st := State [] file_stem).
  set (rest := splitlines md_text).
  assert (Hst : state_ok st = true)
    by (unfold state_ok, st; cbn [doc_title breadcrumb]; now rewrite Hstem).
  pose proof (splitlines_lines_ok md_text) as Hrest. fold rest in Hrest.
  pose proof (output_lines_ok rel_path rest Hrel st Hrest Hst) as Hok.
  pose proof (settled_output_lines rel_path rest st Hrest) as Hset.
  pose proof (out_text_output_lines rel_path rest st) as Htext.
  destruct (out_of (run rel_path st rest)) as [|a0 out0] eqn:Eout.
  - exists [[]]. repeat split; reflexivity.
  - destruct (@exists_last _ (a0 :: out0)) as (o & x & E); [discriminate|].
    rewrite E in *. clear E a0 out0. rewrite finish_snoc.
    destruct (str_eqb x []) eqn:Ex.
    + apply str_eqb_eq in Ex. subst x.
      destruct (out_ends_empty _ _ _ _ Eout) as (f & Ef & Ht).
      exists f. rewrite Ef in *. rewrite app_nil_r. repeat split.
      * exact Ht.
      * rewrite lines_ok_app in Hok. apply andb_true_iff in Hok. tauto.
      * now rewrite settled_snoc_empty in Hset.
    + exists (output_lines rel_path st rest). repeat split; auto.
      rewrite <- Htext. now rewrite lines_text_snoc.
Qed.

Lemma lines_text_rev_head ls :
  ls <> [] -> exists s, rev (lines_text ls) = LF :: s.
Proof.
  intros H. destruct (@exists_last _ ls H) as (o & x & ->).
  rewrite lines_text_snoc, !rev_app_distr. simpl. eauto.
Qed.

(** A text of lines that ends after a line that is not empty is what
    [finish] makes of the lines. *)
Lemma finish_lines_text ls :
  ends_after_nonempty_line (lines_text ls) = true ->
  finish ls = lines_text ls.
Proof.
  intros H. destruct ls as [|a0 ls0]; [discriminate|].
  destruct (@exists_last _ (a0 :: ls0)) as (o & x & E); [discriminate|].
  rewrite E in *. clear E a0 ls0.
  rewrite finish_snoc, lines_text_snoc.
  destruct (str_eqb x []) eqn:Ex; [|reflexivity].
  exfalso. apply str_eqb_eq in Ex. subst x.
  rewrite lines_text_snoc in H. unfold ends_after_nonempty_line in H.
  rewrite rev_app_distr in H. simpl in H.
  destruct o as [|b0 o0]; [discriminate|].
  destruct (lines_text_rev_head (b0 :: o0)) as (s & Es); [discriminate|].
  rewrite Es in H. rewrite chr_eqb_refl in H. discriminate.
Qed.

(** C2 (as the code has it).  When the relative path and the fallback title
    hold no line boundary, a second run of the rewriter on the output of the
    first injects no metadata block and passes every line through: the
    elements of its [out] are the lines of the first output.  The two
    outputs are equal when the first ends after a line that is not empty;
    otherwise they differ in the line feeds at the end only. *)
Theorem C2_second_pass_changes_no_line :
  forall (md_text rel_path file_stem : str),
    no_linebreak rel_path = true ->
    no_linebreak file_stem = true ->
    let once := process_markdown md_text rel_path file_stem in
    out_of (trace_of once rel_path file_stem) = splitlines once /\
    injects_nothing (trace_of once rel_path file_stem) = true /\
    process_markdown once rel_path file_stem = finish (splitlines once) /\
    (ends_after_nonempty_line once = true ->
     process_markdown once rel_path file_stem = once).
Proof.
  intros md_text rel_path file_stem Hrel Hstem once.
  destruct (process_markdown_settled md_text rel_path file_stem Hrel Hstem)
    as (ls & Eonce & Hok & Hset).
  fold once in Eonce.
  assert (Hsplit : splitlines once = ls)
    by (rewrite Eonce; now apply splitlines_lines_text).
  destruct (settled_run rel_path ls Hset (State [] file_stem)) as [Hout Hinj].
  unfold process_markdown at 1 2. unfold trace_of. rewrite Hsplit.
  rewrite Hout. repeat split; auto.
  intros Hend. rewrite Eonce in *. now apply finish_lines_text.
Qed.

Lemma C2_witness :
  let once :=
    process_markdown (doc ["Meeting:"; "- discuss budget"]%string)
      (lit "a/b.md") (lit "b") in
  out_of (trace_of once (lit "a/b.md") (lit "b")) = splitlines once /\
  injects_nothing (trace_of once (lit "a/b.md") (lit "b")) = true /\
  process_markdown once (lit "a/b.md") (lit "b") = finish (splitlines once) /\
  (ends_after_nonempty_line once = true ->
   process_markdown once (lit "a/b.md") (lit "b") = once).
Proof.
  apply (C2_second_pass_changes_no_line
           (doc ["Meeting:"; "- discuss budget"]%string) (lit "a/b.md") (lit "b"));
    vm_compute; reflexivity.
Defined.

(** Documents on which a second run changes the output: a document that
    ends with a heading, whose output loses one of its three final line
    feeds; the empty document, whose output is a line feed and becomes the
    empty text; and a document under a path with a line feed in it, where a
    line of the first block is taken for a heading by the second run. *)
Lemma C2_counterexample :
  (let once := process_markdown (doc ["# Title"]%string) (lit "a.md") (lit "a") in
   once = doc ["# Title"; "[DocTitle: Title]"; "[Path: a.md]";
               "[Section: Title]"; "[Aliases: Title]";
               EmptyString; EmptyString]%string /\
   process_markdown once (lit "a.md") (lit "a")
   = doc ["# Title"; "[DocTitle: Title]"; "[Path: a.md]";
          "[Section: Title]"; "[Aliases: Title]"; EmptyString]%string /\
   process_markdown once (lit "a.md") (lit "a") <> once) /\
  (let once := process_markdown [] (lit "a.md") (lit "a") in
   once = [LF] /\
   process_markdown once (lit "a.md") (lit "a") = [] /\
   process_markdown once (lit "a.md") (lit "a") <> once) /\
  (let rel_path := lit "a" ++ [LF] ++ lit "# b" in
   let once := process_markdown (doc ["# T"]%string) rel_path (lit "a") in
   injects_nothing (trace_of once rel_path (lit "a")) = false).
Proof.
  vm_compute. repeat split; discriminate.
Qed.

(* ================================================================== *)
(** ** The six patterns exclude each other *)
(* ================================================================== *)

Lemma accepts_match k line text m :
  accepts k line = Some (text, m) ->
  match_items (pattern_re k) line = Some m.
Proof.
  destruct k; unfold accepts, pattern_re;
    match goal with
    | |- context [match_items ?r line] => destruct (match_items r line)
    end; cbn [option_map]; try discriminate;
    try (match goal with
         | |- (if ?c then _ else _) = _ -> _ => destruct c; [|discriminate]
         end);
    now intros [= _ <-].
Qed.

Lemma patterns_exclusive k1 k2 line m1 m2 :
  match_items (pattern_re k1) line = Some m1 ->
  match_items (pattern_re k2) line = Some m2 ->
  k1 = k2.
Proof.
  intros H1 H2.
  destruct k1, k2; try reflexivity; exfalso; cbn [pattern_re] in *;
    try (destruct (numbered_match_only _ _ H1) as (? & ? & ? & ? & ?);
         congruence);
    try (destruct (numbered_match_only _ _ H2) as (? & ? & ? & ? & ?);
         congruence);
    try (destruct (allcaps_match_only _ _ H1) as (? & ? & ? & ? & ?);
         congruence);
    try (destruct (allcaps_match_only _ _ H2) as (? & ? & ? & ? & ?);
         congruence);
    unfold HEADING_RE, BOLD_HEADING_RE, COLON_HEADING_RE, DATE_HEADING_RE in *;
    (rewrite (match_first_chr_class _ _ line _ _ _ H1) in H2;
     [discriminate|simpl; lia|simpl; lia|intros c; simpl; all_chars c]).
Qed.

(** A line that one of the patterns accepts is classified as that kind: no
    other pattern matches it, so the order of the tests never decides. *)
Theorem accepted_line_is_classified :
  forall (line : str) (k : pattern_type) (text : str) (m : list str),
    accepts k line = Some (text, m) ->
    check_header_patterns line = Some (k, text, m).
Proof.
  intros line k text m Ha.
  rewrite check_header_patterns_first_accepted.
  rewrite (first_accepted_spec _ _ _ _ _ priority_order_nodup).
  repeat split; auto using priority_order_all.
  intros k' pre post E Hin.
  destruct (accepts k' line) as [[t' m']|] eqn:E'; [|reflexivity].
  exfalso.
  assert (k' = k)
    by (eapply patterns_exclusive; eapply accepts_match; eauto).
  subst k'. apply (priority_order_before _ _ _ _ E) in Hin. lia.
Qed.

Lemma accepted_line_is_classified_witness :
  check_header_patterns (lit "Action items:")
  = Some (colon, lit "Action items", [lit "A"; lit "ction items"; lit ":"; []]).
Proof.
  apply (accepted_line_is_classified (lit "Action items:") colon).
  vm_compute. reflexivity.
Defined.

(** No line matches two of the patterns. *)
Theorem patterns_mutually_exclusive :
  forall (line : str) (k1 k2 : pattern_type) (m1 m2 : list str),
    match_items (pattern_re k1) line = Some m1 ->
    match_items (pattern_re k2) line = Some m2 ->
    k1 = k2 /\ m1 = m2.
Proof.
  intros line k1 k2 m1 m2 H1 H2.
  assert (k1 = k2) by (eapply patterns_exclusive; eauto).
  subst k2. split; [reflexivity|congruence].
Qed.

Lemma patterns_mutually_exclusive_witness :
  date = date /\
  [lit "2"; lit "0"; lit "24"; lit " "; lit "03"; lit " "; lit "15"]
  = [lit "2"; lit "0"; lit "24"; lit " "; lit "03"; lit " "; lit "15"].
Proof.
  apply (patterns_mutually_exclusive (lit "2024 03 15") date date);
    vm_compute; reflexivity.
Defined.

(* ================================================================== *)
(** ** The first character of a heading line *)
(* ================================================================== *)

Lemma not_digit_not_two c : is_digit c = false -> chr_eqb "2" c = false.
Proof. all_chars c. Qed.

(** A heading line begins with a hash sign, a star, an upper-case letter or
    a digit; an empty line and a line that begins with white space, an
    indented markdown heading among them, is no heading. *)
Theorem heading_line_first_character :
  forall (line : str) (info : header_info),
    check_header_patterns line = Some info ->
    exists c s,
      line = c :: s /\
      is_space c = false /\
      (match fst (fst info) with
       | markdown => chr_eqb "#" c
       | bold => chr_eqb "*" c
       | colon | allcaps => is_upper c
       | date => chr_eqb "2" c
       | numbered => is_digit c
       end) = true.
Proof.
  intros line [[k text] m] Hc.
  apply check_header_patterns_accepts, accepts_match in Hc.
  assert (Hfirst : exists c s,
             line = c :: s /\
             match k with
             | markdown => chr_eqb "#" c
             | bold => chr_eqb "*" c
             | colon | allcaps => is_upper c
             | date => chr_eqb "2" c
             | numbered => is_digit c
             end = true).
  { destruct k; cbn [pattern_re] in Hc;
      (eapply match_first_chr in Hc; [exact Hc|simpl; lia]). }
  destruct Hfirst as (c & s & -> & Hk). exists c, s. cbn [fst].
  repeat split; [|exact Hk].
  destruct k; revert Hk; all_chars c.
Qed.

Lemma heading_line_first_character_witness :
  exists c s,
    lit "**Overview**" = c :: s /\
    is_space c = false /\
    chr_eqb "*" c = true.
Proof.
  apply (heading_line_first_character (lit "**Overview**")
           (bold, lit "Overview",
            [lit "*"; lit "*"; lit "Overview"; lit "*"; lit "*"; []])).
  vm_compute. reflexivity.
Defined.

(* ================================================================== *)
(** ** The extracted text is stripped *)
(* ================================================================== *)

Lemma digit_not_space_chr c : is_digit c = true -> is_space c = false.
Proof. all_chars c. Qed.

Lemma rstrip_last s r d : rstrip s = r ++ [d] -> is_space d = false.
Proof.
  unfold rstrip. intros H. apply (f_equal (@rev ascii)) in H.
  rewrite rev_involutive, rev_app_distr in H. simpl in H.
  eapply drop_while_head; eauto.
Qed.

Lemma rstrip_fixed s d : is_space d = false -> rstrip (s ++ [d]) = s ++ [d].
Proof.
  intros Hd. unfold rstrip. rewrite rev_app_distr. simpl. rewrite Hd.
  change (d :: rev s) with ([d] ++ rev s).
  now rewrite rev_app_distr, rev_involutive.
Qed.

(** A text that neither begins nor ends with white space is its own
    stripped text. *)
Lemma strip_fixed c s d :
  is_space c = false -> is_space d = false ->
  forall x, x = c :: s -> (exists r, x = r ++ [d]) -> strip x = x.
Proof.
  intros Hc Hd x -> (r & Hr). unfold strip, lstrip. simpl. rewrite Hc.
  rewrite Hr. now apply rstrip_fixed.
Qed.

Lemma strip_ends s c t :
  strip s = c :: t ->
  is_space c = false /\ exists r d, strip s = r ++ [d] /\ is_space d = false.
Proof.
  intros H. split; [eapply strip_head; eauto|].
  destruct (@exists_last _ (strip s)) as (r & d & E); [now rewrite H|].
  exists r, d. split; [exact E|]. unfold strip in E. eapply rstrip_last; eauto.
Qed.

Lemma strip_strip s : strip (strip s) = strip s.
Proof.
  destruct (strip s) as [|c t] eqn:E; [reflexivity|].
  destruct (strip_ends _ _ _ E) as (Hc & r & d & Er & Hd).
  eapply (strip_fixed c t d); eauto. exists r. congruence.
Qed.

Lemma classified_text_stripped line k text m :
  check_header_patterns line = Some (k, text, m) -> strip text = text.
Proof.
  intros Hc. apply check_header_patterns_accepts in Hc.
  destruct k; unfold accepts in Hc;
    match type of Hc with
    | context [match_items ?r line] =>
        destruct (match_items r line) as [m0|] eqn:E;
        cbn [option_map] in Hc; [|discriminate]
    end;
    try (match type of Hc with
         | (if ?c then _ else _) = _ => destruct c eqn:Ec; [|discriminate]
         end);
    injection Hc as <- <-; try apply strip_strip.
  (* numbered: the number, a full stop, a blank and the stripped title *)
  apply Nat.leb_le in Ec.
  apply match_items_taken in E. unfold NUMBERED_HEADING_RE in E.
  inversion E as [|? ? p0 s0 m1 Hlo _ Hcls _]; subst. simpl in Hlo, Hcls.
  destruct p0 as [|u p0]; simpl in Hlo; [lia|].
  simpl in Hcls. apply andb_true_iff in Hcls. destruct Hcls as [Hu _].
  change (pieces ((u :: p0) :: m1) 0 1) with ((u :: p0) ++ []).
  rewrite app_nil_r.
  destruct (strip (pieces ((u :: p0) :: m1) 3 2)) as [|c t] eqn:Et;
    [simpl in Ec; lia|].
  destruct (strip_ends _ _ _ Et) as (_ & r & d & Er & Hd). rewrite Et in Er.
  eapply (strip_fixed u _ d); [now apply digit_not_space_chr|exact Hd| |].
  - reflexivity.
  - exists (u :: p0 ++ lit ". " ++ r). simpl. rewrite Er.
    now rewrite <- !app_assoc.
Qed.

(** The heading text of a classified line neither begins nor ends with
    white space. *)
Theorem heading_text_is_stripped :
  forall (line : str) (k : pattern_type) (text : str) (m : list str),
    check_header_patterns line = Some (k, text, m) ->
    strip text = text.
Proof. exact classified_text_stripped. Qed.

Lemma heading_text_is_stripped_witness :
  strip (lit "7. Open questions") = lit "7. Open questions".
Proof.
  apply (heading_text_is_stripped (lit "7.  Open questions  ") numbered
           (lit "7. Open questions")
           [lit "7"; lit "."; lit "  "; lit "O"; lit "pen questions  "]).
  vm_compute. reflexivity.
Defined.

(* ================================================================== *)
(** ** Reading a written header back *)
(* ================================================================== *)

Lemma stripped_no_leading_space text :
  strip text = text -> run_length is_space text = 0.
Proof.
  destruct text as [|c t]; [reflexivity|]. intros H.
  apply strip_head in H. simpl. now rewrite H.
Qed.

Lemma match_any_tail_eq s :
  forallb any_chr s = true -> match_items [many any_chr 0] s = Some [s].
Proof.
  intros H.
  change (match_items [many any_chr 0] s)
    with (backtrack
            (fun j => option_map (cons (firstn j s))
                        (match_items [] (skipn j s)))
            0 (greedy (many any_chr 0) s)).
  apply backtrack_first; [lia|].
  unfold greedy. simpl hi. simpl cls. rewrite (run_length_all _ _ H).
  rewrite skipn_all, firstn_all. reflexivity.
Qed.

Lemma match_blank_text_eq text :
  run_length is_space text = 0 -> forallb any_chr text = true ->
  match_items [many is_space 1; many any_chr 0] (SP :: text)
  = Some [[SP]; text].
Proof.
  intros Hr Ht.
  change (match_items [many is_space 1; many any_chr 0] (SP :: text))
    with (backtrack
            (fun j => option_map (cons (firstn j (SP :: text)))
                        (match_items [many any_chr 0] (skipn j (SP :: text))))
            1 (greedy (many is_space 1) (SP :: text))).
  assert (Hg : greedy (many is_space 1) (SP :: text) = 1).
  { unfold greedy. simpl hi. simpl cls. simpl run_length. now rewrite Hr. }
  rewrite Hg. apply backtrack_first; [lia|].
  simpl skipn. rewrite (match_any_tail_eq _ Ht). reflexivity.
Qed.

Lemma firstn_hashes n s : firstn n (hashes n ++ s) = hashes n.
Proof.
  rewrite firstn_app. unfold hashes. rewrite repeat_length, Nat.sub_diag.
  rewrite firstn_all2 by (rewrite repeat_length; lia).
  simpl. apply app_nil_r.
Qed.

(** The match of [HEADING_RE] on [level] hash signs, a blank and a stripped
    text without line feed. *)
Lemma heading_match_eq level text :
  1 <= level <= 6 -> strip text = text -> forallb any_chr text = true ->
  match_items HEADING_RE (hashes level ++ [SP] ++ text)
  = Some [hashes level; [SP]; text].
Proof.
  intros Hl Hs Ht.
  change (match_items HEADING_RE (hashes level ++ [SP] ++ text))
    with (backtrack
            (fun j => option_map (cons (firstn j (hashes level ++ [SP] ++ text)))
                        (match_items [many is_space 1; many any_chr 0]
                           (skipn j (hashes level ++ [SP] ++ text))))
            1 (greedy (upto (chr_eqb "#") 1 6) (hashes level ++ [SP] ++ text))).
  assert (Hg : greedy (upto (chr_eqb "#") 1 6) (hashes level ++ [SP] ++ text)
               = level).
  { unfold greedy. simpl hi. simpl cls. simpl app at 1.
    rewrite run_length_hashes by reflexivity. lia. }
  rewrite Hg. apply backtrack_first; [lia|].
  rewrite skipn_hashes, firstn_hashes.
  change ([SP] ++ text) with (SP :: text).
  rewrite (match_blank_text_eq _ (stripped_no_leading_space _ Hs) Ht).
  reflexivity.
Qed.

Lemma converted_header_reads_back level text :
  1 <= level <= 6 -> strip text = text -> no_linebreak text = true ->
  check_header_patterns (hashes level ++ [SP] ++ text)
  = Some (markdown, text, [hashes level; [SP]; text]).
Proof.
  intros Hl Hs Ht. unfold check_header_patterns.
  rewrite (heading_match_eq level text Hl Hs (no_linebreak_any_chr _ Ht)).
  unfold pieces. cbn [skipn firstn concat]. rewrite app_nil_r.
  now rewrite Hs.
Qed.

(** The header written for a heading reads back as a markdown heading of
    the same level and the same text, so a later run resolves the heading
    to the level it was given. *)
Theorem written_header_reads_back :
  forall (rel_path : str) (st : state) (line : str) (following : list str)
         (info : header_info),
    check_header_patterns line = Some info ->
    no_linebreak line = true ->
    let h := on_heading rel_path st line following info in
    exists m',
      check_header_patterns (hs_header h) = Some (markdown, hs_text h, m') /\
      length (pieces m' 0 1) = hs_level h /\
      forall st2 following2,
        let h2 := on_heading rel_path st2 (hs_header h) following2
                    (markdown, hs_text h, m') in
        hs_level h2 = hs_level h /\ hs_text h2 = hs_text h /\
        hs_header h2 = hs_header h.
Proof.
  intros rel_path st line following info Hc Hl h.
  pose proof (heading_level_bounds rel_path st line following info Hc) as Hb.
  fold h in Hb. destruct info as [[k text] m].
  pose proof (heading_text_no_linebreak _ _ _ _ Hc Hl) as Hnl.
  pose proof (classified_text_stripped _ _ _ _ Hc) as Hstripped.
  assert (Hconv : k <> markdown ->
            hs_header h = hashes (hs_level h) ++ [SP] ++ text).
  { intros Hk. unfold h, on_heading. cbv zeta. cbn [hs_header hs_level].
    destruct k; try congruence; try reflexivity.
    unfold convert_to_proper_header.
    rewrite rstrip_chr_absent; [reflexivity|].
    eapply colon_text_no_colon. eapply check_header_patterns_accepts; eauto. }
  assert (Hlen : length (pieces [hashes (hs_level h); [SP]; text] 0 1)
                 = hs_level h).
  { unfold pieces. cbn [skipn firstn concat]. rewrite app_nil_r.
    apply repeat_length. }
  destruct (pattern_type_eqb k markdown) eqn:Ek.
  - destruct k; try discriminate.
    exists m. unfold h, on_heading. cbv zeta. cbn [hs_header hs_level hs_text].
    repeat split; auto.
  - assert (Hk : k <> markdown) by (intros ->; discriminate).
    exists [hashes (hs_level h); [SP]; text].
    rewrite (Hconv Hk).
    rewrite (converted_header_reads_back _ _ Hb Hstripped Hnl).
    change (hs_text h) with text.
    split; [reflexivity|]. split; [exact Hlen|].
    intros st2 following2 h2. unfold h2, on_heading. cbv zeta.
    cbn [hs_level hs_text hs_header]. repeat split. exact Hlen.
Qed.

Lemma written_header_reads_back_witness :
  let h := on_heading (lit "a.md") (State [lit "Plan"] (lit "Plan"))
             (lit "Action items:") [lit "- one"]
             (colon, lit "Action items",
              [lit "A"; lit "ction items"; lit ":"; []]) in
  exists m',
    check_header_patterns (lit "## Action items")
    = Some (markdown, lit "Action items", m') /\
    length (pieces m' 0 1) = 2 /\
    forall st2 following2,
      let h2 := on_heading (lit "a.md") st2 (lit "## Action items") following2
                  (markdown, lit "Action items", m') in
      hs_level h2 = 2 /\ hs_text h2 = lit "Action items" /\
      hs_header h2 = lit "## Action items".
Proof.
  apply (written_header_reads_back (lit "a.md")
           (State [lit "Plan"] (lit "Plan")) (lit "Action items:")
           [lit "- one"]
           (colon, lit "Action items",
            [lit "A"; lit "ction items"; lit ":"; []]));
    vm_compute; reflexivity.
Defined.

(* ================================================================== *)
(** ** Invariants of the state along a run *)
(* ================================================================== *)

(** Every heading step of a run is the step of a classified line. *)
Lemma run_heading_origin rel_path rest :
  forall st before h after,
    run rel_path st rest = before ++ Heading h :: after ->
    exists st' pre line following info,
      rest = pre ++ line :: following /\
      length pre = length before /\
      check_header_patterns line = Some info /\
      h = on_heading rel_path st' line following info /\
      after = run rel_path (hs_state h) following.
Proof.
  induction rest as [|l following IH]; intros st before h after E.
  - destruct before; discriminate.
  - simpl in E. destruct (check_header_patterns l) as [info|] eqn:Hc.
    + destruct before as [|e before].
      * injection E as <- <-. exists st, [], l, following, info. auto.
      * injection E as _ E.
        destruct (IH _ _ _ _ E) as (st' & pre & line & f & info' & -> & ? & ? & ? & ?).
        exists st', (l :: pre), line, f, info'. simpl. auto.
    + destruct before as [|e before]; [discriminate|].
      injection E as _ E.
      destruct (IH _ _ _ _ E) as (st' & pre & line & f & info' & -> & ? & ? & ? & ?).
      exists st', (l :: pre), line, f, info'. simpl. auto.
Qed.

Lemma on_heading_kind rel_path st line following k text m :
  hs_kind (on_heading rel_path st line following (k, text, m)) = k.
Proof. reflexivity. Qed.

Lemma converted_level_bound rel_path st line following info :
  fst (fst info) <> markdown ->
  hs_level (on_heading rel_path st line following info) <= 4.
Proof.
  destruct info as [[k text] m]. cbn [fst]. intros Hk.
  unfold on_heading. cbv zeta. cbn [hs_level].
  destruct k; try congruence.
  - pose proof (bold_level_bounds (breadcrumb st) (line :: following) 0). lia.
  - pose proof (level_by_context_bounds (breadcrumb st) colon text). lia.
  - pose proof (level_by_context_bounds (breadcrumb st) date text). lia.
  - pose proof (level_by_context_bounds (breadcrumb st) numbered text). lia.
  - pose proof (level_by_context_bounds (breadcrumb st) allcaps text). lia.
Qed.

(** After every heading of a run the breadcrumb stack holds at least one
    title and at most as many as the level of the heading, which is at most
    6, and at most 4 for a heading that was not a markdown heading; its last
    title is the text of the heading, or the document title for a level-1
    heading without text.  So the section field of a metadata block is
    always made of the stack, never of the bare document title. *)
Theorem breadcrumb_invariant :
  forall (md_text rel_path file_stem : str) (before : list event)
         (h : heading_step) (after : list event),
    trace_of md_text rel_path file_stem = before ++ Heading h :: after ->
    1 <= length (breadcrumb (hs_state h)) <= hs_level h /\
    hs_level h <= 6 /\
    (hs_kind h <> markdown -> hs_level h <= 4) /\
    last (breadcrumb (hs_state h)) []
      = (if (hs_level h =? 1) && negb (truthy (hs_text h))
         then doc_title (hs_state h) else hs_text h).
Proof.
  intros md_text rel_path file_stem before h after E.
  destruct (run_heading_origin _ _ _ _ _ _ E)
    as (st & pre & line & following & info & _ & _ & Hc & Hh & _).
  pose proof (heading_level_bounds rel_path st line following info Hc) as Hb.
  rewrite <- Hh in Hb.
  assert (Hst : hs_state h = maintain_breadcrumb (hs_level h) (hs_text h) st)
    by (rewrite Hh; apply on_heading_state).
  rewrite Hst, maintain_breadcrumb_stack, maintain_breadcrumb_title by lia.
  repeat split; try lia.
  - destruct (hs_level h =? 1); simpl; [lia|]. rewrite length_app. simpl. lia.
  - destruct (Nat.eqb_spec (hs_level h) 1) as [E1|E1]; simpl; [lia|].
    rewrite length_app, length_firstn. simpl. lia.
  - intros Hk. rewrite Hh. apply converted_level_bound.
    destruct info as [[k text] m]. rewrite Hh, on_heading_kind in Hk.
    exact Hk.
  - destruct (hs_level h =? 1); simpl.
    + now destruct (truthy (hs_text h)).
    + apply last_last.
Qed.

Lemma breadcrumb_invariant_witness :
  let h1 := on_heading (lit "a.md") (State [] (lit "a")) (lit "Meeting:")
              [lit "#### Deep"]
              (colon, lit "Meeting", [lit "M"; lit "eeting"; lit ":"; []]) in
  let h2 := on_heading (lit "a.md") (hs_state h1) (lit "#### Deep") []
              (markdown, lit "Deep", [lit "####"; lit " "; lit "Deep"]) in
  1 <= length (breadcrumb (hs_state h2)) <= hs_level h2 /\
  hs_level h2 <= 6 /\
  (hs_kind h2 <> markdown -> hs_level h2 <= 4) /\
  last (breadcrumb (hs_state h2)) [] = lit "Deep".
Proof.
  intros h1 h2.
  exact (breadcrumb_invariant (doc ["Meeting:"; "#### Deep"]%string)
           (lit "a.md") (lit "a") [Heading h1] h2 [] eq_refl).
Defined.

Lemma latest_title_nonempty hs :
  forall file_stem, file_stem <> [] -> latest_title file_stem hs <> [].
Proof.
  induction hs as [|h hs IH]; intros file_stem Hs; [exact Hs|].
  rewrite latest_title_cons. apply IH.
  destruct (hs_level h =? 1); simpl; [|exact Hs].
  destruct (hs_text h); simpl; [exact Hs|discriminate].
Qed.

(** With a fallback title that is not empty, the document title is never
    empty: a level-1 heading without text leaves the title as it is. *)
Theorem document_title_never_empty :
  forall (md_text rel_path file_stem : str) (before : list event)
         (h : heading_step) (after : list event),
    file_stem <> [] ->
    trace_of md_text rel_path file_stem = before ++ Heading h :: after ->
    doc_title (hs_state h) <> [].
Proof.
  intros md_text rel_path file_stem before h after Hs E.
  destruct (run_title _ _ _ _ _ _ E) as [Ht _]. rewrite Ht.
  now apply latest_title_nonempty.
Qed.

Lemma document_title_never_empty_witness :
  let h := on_heading (lit "a.md") (State [] (lit "a")) (lit "#  ") []
             (markdown, [], [lit "#"; lit "  "; []]) in
  doc_title (hs_state h) <> [].
Proof.
  intros h.
  apply (document_title_never_empty (doc ["#  "]%string) (lit "a.md") (lit "a")
           [] h []).
  - discriminate.
  - reflexivity.
Defined.

(* ================================================================== *)
(** ** Documents without headings and the form of the output *)
(* ================================================================== *)

Lemma run_no_headings rel_path ls :
  forallb (fun l => negb (is_heading l)) ls = true ->
  forall st, run rel_path st ls = map Passed ls.
Proof.
  induction ls as [|l ls IH]; intros H st; [reflexivity|].
  simpl in H. apply andb_true_iff in H. destruct H as [Hl Hls].
  unfold is_heading in Hl. cbn [run map].
  destruct (check_header_patterns l); [discriminate|].
  now rewrite IH.
Qed.

Lemma out_of_passed ls : out_of (map Passed ls) = ls.
Proof.
  induction ls as [|l ls IH]; [reflexivity|].
  unfold out_of in *. simpl. now rewrite IH.
Qed.

(** A document none of whose lines is a heading comes out line by line as
    it went in; when its lines end with line feeds and the last one is not
    empty, the text returned is the document itself. *)
Theorem heading_free_document_passes_through :
  forall (md_text rel_path file_stem : str),
    forallb (fun l => negb (is_heading l)) (splitlines md_text) = true ->
    trace_of md_text rel_path file_stem = map Passed (splitlines md_text) /\
    process_markdown md_text rel_path file_stem = finish (splitlines md_text) /\
    (forall ls, md_text = lines_text ls -> lines_ok ls = true ->
                ends_after_nonempty_line md_text = true ->
                process_markdown md_text rel_path file_stem = md_text).
Proof.
  intros md_text rel_path file_stem H.
  assert (Ht : trace_of md_text rel_path file_stem
               = map Passed (splitlines md_text))
    by (unfold trace_of; now apply run_no_headings).
  assert (Hp : process_markdown md_text rel_path file_stem
               = finish (splitlines md_text))
    by (unfold process_markdown; now rewrite Ht, out_of_passed).
  repeat split; auto.
  intros ls -> Hok Hend. rewrite Hp, splitlines_lines_text by assumption.
  now apply finish_lines_text.
Qed.

Lemma heading_free_document_passes_through_witness :
  process_markdown (doc ["some notes"; "  # not a heading"; "- item"]%string)
    (lit "a.md") (lit "a")
  = doc ["some notes"; "  # not a heading"; "- item"]%string.
Proof.
  refine (proj2 (proj2
    (heading_free_document_passes_through
       (doc ["some notes"; "  # not a heading"; "- item"]%string)
       (lit "a.md") (lit "a") _))
    [lit "some notes"; lit "  # not a heading"; lit "- item"] _ _ _);
    vm_compute; reflexivity.
Defined.

Lemma lines_text_chars ls :
  lines_ok ls = true ->
  forallb (fun c => chr_eqb c LF || negb (is_linebreak c)) (lines_text ls)
  = true.
Proof.
  induction ls as [|l ls IH]; [reflexivity|].
  rewrite lines_ok_cons. intros H. apply andb_true_iff in H.
  destruct H as [Hl Hls]. rewrite lines_text_cons, !forallb_app, (IH Hls).
  simpl. rewrite andb_true_r.
  eapply forallb_impl; [|exact Hl]. intros c Hc. simpl. rewrite Hc.
  apply orb_true_r.
Qed.

(** Under a path and a fallback title without line boundaries the output
    has the line feed as its only line boundary, whatever boundaries the
    input used, and it is the text of its own lines, each ended by a line
    feed. *)
Theorem output_lines_end_with_line_feeds :
  forall (md_text rel_path file_stem : str),
    no_linebreak rel_path = true ->
    no_linebreak file_stem = true ->
    let once := process_markdown md_text rel_path file_stem in
    forallb (fun c => chr_eqb c LF || negb (is_linebreak c)) once = true /\
    lines_text (splitlines once) = once.
Proof.
  intros md_text rel_path file_stem Hrel Hstem once.
  destruct (process_markdown_settled md_text rel_path file_stem Hrel Hstem)
    as (ls & E & Hok & _).
  fold once in E. rewrite E. split.
  - now apply lines_text_chars.
  - now rewrite splitlines_lines_text.
Qed.

Lemma output_lines_end_with_line_feeds_witness :
  let once :=
    process_markdown (lit "Notes" ++ [CR; LF] ++ lit "# Title" ++ [CR])
      (lit "a.md") (lit "a") in
  forallb (fun c => chr_eqb c LF || negb (is_linebreak c)) once = true /\
  lines_text (splitlines once) = once.
Proof.
  apply (output_lines_end_with_line_feeds
           (lit "Notes" ++ [CR; LF] ++ lit "# Title" ++ [CR])
           (lit "a.md") (lit "a")); vm_compute; reflexivity.
Defined.

(* ================================================================== *)
(** ** Level resolution: what the text and the look-ahead decide *)
(* ================================================================== *)

(** The level of a colon, date, numbered or all-caps heading depends on the
    depth of the stack only: the keyword test on the text of a colon
    heading chooses between two branches of the same value. *)
Theorem level_by_context_ignores_text :
  forall (breadcrumb : list str) (k : pattern_type) (text : str),
    determine_header_level_by_context breadcrumb k text =
    match k with
    | date | allcaps => if truthy breadcrumb then 2 else 1
    | colon => if truthy breadcrumb then Nat.min (length breadcrumb + 1) 3 else 2
    | numbered =>
        if truthy breadcrumb then Nat.min (length breadcrumb + 1) 4 else 2
    | _ => 2
    end.
Proof.
  intros breadcrumb k text. unfold determine_header_level_by_context.
  destruct k; try reflexivity.
  - destruct (existsb _ _); now destruct (truthy breadcrumb).
  - now destruct (truthy breadcrumb).
  - now destruct (truthy breadcrumb).
Qed.

Lemma has_indented_content_cons l window :
  has_indented_content (l :: window) =
  if is_list_item l then true
  else if stops_scan l then false
  else has_indented_content window.
Proof.
  cbn [has_indented_content]. cbv zeta. unfold is_list_item, stops_scan.
  rewrite strip_never_indented, orb_false_r.
  destruct (strip l) as [|c s]; reflexivity.
Qed.

Lemma has_indented_content_iff window :
  has_indented_content window = true <->
  exists pre l post,
    window = pre ++ l :: post /\
    is_list_item l = true /\
    forallb (fun p => negb (is_list_item p) && negb (stops_scan p)) pre = true.
Proof.
  induction window as [|l window IH].
  - split; [discriminate|]. intros (pre & l & post & E & _).
    destruct pre; discriminate.
  - rewrite has_indented_content_cons.
    destruct (is_list_item l) eqn:Ei.
    + split; [|reflexivity]. intros _. now exists [], l, window.
    + destruct (stops_scan l) eqn:Es.
      * split; [discriminate|]. intros (pre & l' & post & E & Hi & Hpre).
        destruct pre as [|p pre]; injection E as -> ->.
        -- congruence.
        -- simpl in Hpre. rewrite Es in Hpre.
           now rewrite andb_false_r in Hpre.
      * rewrite IH. split.
        -- intros (pre & l' & post & -> & Hi & Hpre).
           exists (l :: pre), l', post. simpl. now rewrite Ei, Es.
        -- intros (pre & l' & post & E & Hi & Hpre).
           destruct pre as [|p pre]; injection E as -> ->; [congruence|].
           simpl in Hpre. apply andb_true_iff in Hpre.
           exists pre, l', post. tauto.
Qed.

(** A bold heading resolves to level 1 exactly on an empty stack, and to
    level 3 exactly when the stack holds at least two titles and, among the
    nine lines after the heading, a list item comes before any line that,
    stripped, begins with two stars or a hash sign.  Indentation plays no
    part: every line is stripped before it is tested. *)
Theorem bold_level_characterised :
  forall (breadcrumb lines : list str) (i : nat),
    let window := firstn 9 (skipn (i + 1) lines) in
    let level := determine_bold_header_level breadcrumb lines i in
    (level = 1 \/ level = 2 \/ level = 3) /\
    (level = 1 <-> breadcrumb = []) /\
    (level = 3 <->
     2 <= length breadcrumb /\
     exists pre l post,
       window = pre ++ l :: post /\
       is_list_item l = true /\
       forallb (fun p => negb (is_list_item p) && negb (stops_scan p)) pre
       = true).
Proof.
  intros breadcrumb lines i window level.
  unfold level, determine_bold_header_level. fold window.
  rewrite <- has_indented_content_iff.
  destruct breadcrumb as [|b [|b' bs]]; simpl truthy; simpl negb; cbv iota.
  - repeat split; auto; try discriminate. simpl. lia.
  - destruct (has_indented_content window); simpl;
      repeat split; auto; try discriminate; try lia;
      intros [H _]; simpl in H; lia.
  - destruct (has_indented_content window); simpl;
      repeat split; auto; try discriminate; try lia.
Qed.

(* ================================================================== *)
(** ** The alias terms *)
(* ================================================================== *)

Lemma remove_literal_absent s :
  forallb (fun c => negb (chr_eqb "{" c)) s = true ->
  remove_literal (lit "{.underline}") 0 s = s.
Proof.
  induction s as [|c s IH]; [reflexivity|].
  intros H. simpl in H. apply andb_true_iff in H. destruct H as [Hc Hs].
  apply negb_true_iff in Hc. cbn [remove_literal].
  replace (startswith (c :: s) (lit "{.underline}")) with false
    by (simpl; now rewrite Hc).
  now rewrite IH.
Qed.

Lemma punctuation_replaced text :
  forallb (fun c => negb (alias_punctuation c))
    (map (fun c => if alias_punctuation c then SP else c) text) = true.
Proof.
  rewrite forallb_mapped. induction text as [|c text IH]; [reflexivity|].
  simpl forallb. rewrite IH, andb_true_r.
  destruct (alias_punctuation c) eqn:E; [reflexivity|now rewrite E].
Qed.

Lemma punctuation_has_brace c :
  negb (alias_punctuation c) = true -> negb (chr_eqb "{" c) = true.
Proof. all_chars c. Qed.

(** The second substitution of [guess_aliases_from_heading] never removes
    anything: the first one has already replaced every curly bracket and
    full stop by a blank. *)
Theorem underline_substitution_is_idle :
  forall text : str,
    let base := map (fun c => if alias_punctuation c then SP else c) text in
    remove_literal (lit "{.underline}") 0 base = base /\
    guess_aliases_from_heading text
    = firstn 5 (filter (fun t => 3 <=? length t) (split base)).
Proof.
  intros text base.
  assert (E : remove_literal (lit "{.underline}") 0 base = base).
  { apply remove_literal_absent.
    eapply forallb_impl; [|apply punctuation_replaced].
    apply punctuation_has_brace. }
  split; [exact E|]. unfold guess_aliases_from_heading. fold base.
  now rewrite E.
Qed.

Lemma split_terms s :
  forallb (fun t => truthy t && forallb (fun c => negb (is_space c)) t)
    (split s) = true.
Proof.
  induction s as [|c s IH]; [reflexivity|].
  destruct s as [|c' s'].
  - simpl. destruct (is_space c) eqn:E; simpl; [reflexivity|now rewrite E].
  - change (split (c :: c' :: s'))
      with (if is_space c then split (c' :: s')
            else if is_space c' then [c] :: split (c' :: s')
                 else match split (c' :: s') with
                      | t :: ts => (c :: t) :: ts
                      | [] => [[c]]
                      end).
    destruct (is_space c) eqn:Ec; [exact IH|].
    destruct (is_space c') eqn:Ec'.
    + cbn [forallb truthy]. now rewrite Ec, IH.
    + destruct (split (c' :: s')) as [|t ts].
      * cbn [forallb truthy]. now rewrite Ec.
      * cbn [forallb truthy] in *. rewrite Ec.
        apply andb_true_iff in IH. destruct IH as [Ht Hts].
        apply andb_true_iff in Ht. destruct Ht as [_ Ht].
        now rewrite Ht, Hts.
Qed.

Lemma forallb_and A (p q : A -> bool) l :
  forallb p l = true -> forallb q l = true ->
  forallb (fun x => p x && q x) l = true.
Proof.
  induction l as [|x l IH]; simpl; [auto|].
  intros Hp Hq. apply andb_true_iff in Hp, Hq.
  destruct Hp as [-> Hp], Hq as [-> Hq]. simpl. auto.
Qed.

Lemma forallb_filter_kept A (f : A -> bool) l :
  forallb f (filter f l) = true.
Proof.
  induction l as [|x l IH]; [reflexivity|].
  simpl. destruct (f x) eqn:E; simpl; [now rewrite E|exact IH].
Qed.

(** [guess_aliases_from_heading] returns at most five terms; each has at
    least three characters, none of them white space or one of the
    punctuation characters that the function replaces. *)
Theorem alias_terms_are_clean :
  forall text : str,
    length (guess_aliases_from_heading text) <= 5 /\
    forallb (fun t =>
               (3 <=? length t)
               && forallb (fun c => negb (is_space c)
                                    && negb (alias_punctuation c)) t)
      (guess_aliases_from_heading text) = true.
Proof.
  intros text. unfold guess_aliases_from_heading. split.
  - apply firstn_le_length.
  - apply forallb_firstn. apply forallb_and.
    + apply forallb_filter_kept.
    + apply forallb_filter.
      set (base := remove_literal _ 0 _).
      assert (Hb : forallb (fun c => negb (alias_punctuation c)) base = true)
        by (apply forallb_remove_literal, punctuation_replaced).
      pose proof (forallb_split _ _ Hb) as H1.
      pose proof (split_terms base) as H2.
      revert H1 H2. generalize (split base). intros tokens H1 H2.
      induction tokens as [|t tokens IH]; [reflexivity|].
      simpl in *. apply andb_true_iff in H1, H2.
      destruct H1 as [Ht1 H1], H2 as [Ht2 H2].
      apply andb_true_iff in Ht2. destruct Ht2 as [_ Ht2].
      rewrite (IH H1 H2), andb_true_r. now apply forallb_and.
Qed.

(* ================================================================== *)
(** ** The alias field of the metadata block *)
(* ================================================================== *)

Lemma code_eqb_eq x y : N.eqb (code x) (code y) = true -> x = y.
Proof.
  intros H. apply N.eqb_eq in H. unfold code in H.
  rewrite <- (ascii_N_embedding x), <- (ascii_N_embedding y). now rewrite H.
Qed.

Lemma str_ltb_irrefl a : str_ltb a a = false.
Proof.
  induction a as [|x a IH]; [reflexivity|].
  simpl. now rewrite N.ltb_irrefl, N.eqb_refl, IH.
Qed.

Lemma str_ltb_trans a : forall b c,
  str_ltb a b = true -> str_ltb b c = true -> str_ltb a c = true.
Proof.
  induction a as [|x a IH]; intros [|y b] [|z c]; simpl; try discriminate;
    auto.
  intros H1 H2.
  apply orb_true_iff in H1, H2. apply orb_true_iff.
  destruct H1 as [H1|H1], H2 as [H2|H2].
  - left. apply N.ltb_lt in H1, H2. apply N.ltb_lt. lia.
  - apply andb_true_iff in H2. destruct H2 as [E2 _].
    apply N.eqb_eq in E2. left. now rewrite <- E2.
  - apply andb_true_iff in H1. destruct H1 as [E1 _].
    apply N.eqb_eq in E1. left. now rewrite E1.
  - apply andb_true_iff in H1, H2.
    destruct H1 as [E1 H1], H2 as [E2 H2].
    apply N.eqb_eq in E1, E2. right.
    rewrite E1, E2, N.eqb_refl. simpl. eauto.
Qed.

Lemma str_ltb_total a : forall b,
  str_ltb a b = false -> str_eqb a b = false -> str_ltb b a = true.
Proof.
  induction a as [|x a IH]; intros [|y b]; simpl; try discriminate; auto.
  intros H1 H2. apply orb_false_iff in H1. destruct H1 as [Hlt H1].
  apply N.ltb_ge in Hlt.
  destruct (N.eqb (code x) (code y)) eqn:E.
  - pose proof (code_eqb_eq _ _ E) as ->. rewrite chr_eqb_refl in H2.
    simpl in *. rewrite N.ltb_irrefl, N.eqb_refl. simpl. now apply IH.
  - apply N.eqb_neq in E.
    replace (N.ltb (code y) (code x)) with true
      by (symmetry; apply N.ltb_lt; lia).
    reflexivity.
Qed.

Lemma increasing_cons x l :
  increasing (x :: l) =
  match l with [] => true | y :: _ => str_ltb x y end && increasing l.
Proof. reflexivity. Qed.

Lemma increasing_insert x l :
  increasing l = true -> increasing (insert_sorted x l) = true.
Proof.
  induction l as [|y l IH]; intros H; [reflexivity|].
  cbn [insert_sorted].
  destruct (str_ltb x y) eqn:Exy.
  - rewrite increasing_cons, Exy. exact H.
  - destruct (str_eqb x y) eqn:Eq; [exact H|].
    pose proof (str_ltb_total _ _ Exy Eq) as Hyx.
    rewrite increasing_cons in H. apply andb_true_iff in H.
    destruct H as [Hhd Hl]. specialize (IH Hl).
    rewrite increasing_cons, IH, andb_true_r.
    destruct l as [|z l]; cbn [insert_sorted]; [exact Hyx|].
    destruct (str_ltb x z); [exact Hyx|].
    destruct (str_eqb x z); exact Hhd.
Qed.

Lemma In_insert_sorted x l y :
  In y (insert_sorted x l) <-> y = x \/ In y l.
Proof.
  induction l as [|z l IH]; simpl.
  - intuition.
  - destruct (str_ltb x z); simpl; [intuition|].
    destruct (str_eqb x z) eqn:E.
    + apply str_eqb_eq in E. subst z. simpl. intuition.
    + simpl. rewrite IH. intuition.
Qed.

Lemma increasing_sorted_set l : increasing (sorted_set l) = true.
Proof.
  induction l as [|x l IH]; [reflexivity|]. simpl.
  now apply increasing_insert.
Qed.

Lemma In_sorted_set l y : In y (sorted_set l) <-> In y l.
Proof.
  induction l as [|x l IH]; simpl; [tauto|].
  rewrite In_insert_sorted, IH. intuition.
Qed.

Lemma increasing_head_least x l :
  increasing (x :: l) = true -> forall y, In y l -> str_ltb x y = true.
Proof.
  revert x. induction l as [|z l IH]; intros x H y Hin; [destruct Hin|].
  rewrite increasing_cons in H. apply andb_true_iff in H.
  destruct H as [Hxz Hl]. destruct Hin as [<-|Hin]; [exact Hxz|].
  eapply str_ltb_trans; [exact Hxz|]. now apply IH.
Qed.

Lemma increasing_tail x l : increasing (x :: l) = true -> increasing l = true.
Proof.
  rewrite increasing_cons. intros H. apply andb_true_iff in H. tauto.
Qed.

(** Two increasing lists with the same members are the same list. *)
Lemma increasing_unique l1 : forall l2,
  increasing l1 = true -> increasing l2 = true ->
  (forall y, In y l1 <-> In y l2) -> l1 = l2.
Proof.
  induction l1 as [|x l1 IH]; intros [|z l2] H1 H2 Hmem.
  - reflexivity.
  - exfalso. apply (Hmem z). now left.
  - exfalso. apply (Hmem x). now left.
  - pose proof (increasing_head_least _ _ H1) as Hx.
    pose proof (increasing_head_least _ _ H2) as Hz.
    assert (x = z).
    { destruct (proj1 (Hmem x) (or_introl eq_refl)) as [E|Hin]; [now subst|].
      destruct (proj2 (Hmem z) (or_introl eq_refl)) as [E|Hin']; [now subst|].
      pose proof (str_ltb_trans _ _ _ (Hx _ Hin') (Hz _ Hin)) as Habs.
      now rewrite str_ltb_irrefl in Habs. }
    subst z. f_equal.
    apply IH; eauto using increasing_tail.
    intros y. split; intros Hin.
    + destruct (proj1 (Hmem y) (or_intror Hin)) as [E|Hin']; [|exact Hin'].
      subst y. specialize (Hx _ Hin). now rewrite str_ltb_irrefl in Hx.
    + destruct (proj2 (Hmem y) (or_intror Hin)) as [E|Hin']; [|exact Hin'].
      subst y. specialize (Hz _ Hin). now rewrite str_ltb_irrefl in Hz.
Qed.

(** [sorted(set(l))]: the members of [l], each once, in increasing order. *)
Theorem sorted_set_sorts_without_repeats :
  forall l : list str,
    increasing (sorted_set l) = true /\
    (forall y, In y (sorted_set l) <-> In y l) /\
    NoDup (sorted_set l).
Proof.
  intros l. split; [apply increasing_sorted_set|].
  split; [intros y; apply In_sorted_set|].
  pose proof (increasing_sorted_set l) as H.
  induction (sorted_set l) as [|x s IH]; constructor.
  - intros Hin. pose proof (increasing_head_least _ _ H _ Hin) as Habs.
    now rewrite str_ltb_irrefl in Habs.
  - apply IH. eapply increasing_tail; eauto.
Qed.

(** The metadata block does not depend on the order of the aliases or on
    how often one of them occurs. *)
Theorem block_ignores_alias_order_and_repeats :
  forall (doc_title rel_path : str) (breadcrumb aliases aliases' : list str),
    (forall a, In a aliases <-> In a aliases') ->
    build_header_block doc_title rel_path breadcrumb aliases
    = build_header_block doc_title rel_path breadcrumb aliases'.
Proof.
  intros doc_title rel_path breadcrumb aliases aliases' Hmem.
  unfold build_header_block.
  replace (sorted_set (filter truthy aliases'))
    with (sorted_set (filter truthy aliases)); [reflexivity|].
  apply increasing_unique; auto using increasing_sorted_set.
  intros y. rewrite !In_sorted_set, !filter_In, Hmem. reflexivity.
Qed.

Lemma block_ignores_alias_order_and_repeats_witness :
  build_header_block (lit "T") (lit "a.md") [lit "T"]
    [lit "beta"; lit "alpha"; lit "beta"]
  = build_header_block (lit "T") (lit "a.md") [lit "T"]
      [lit "alpha"; lit "beta"].
Proof.
  apply (block_ignores_alias_order_and_repeats (lit "T") (lit "a.md") [lit "T"]
           [lit "beta"; lit "alpha"; lit "beta"] [lit "alpha"; lit "beta"]).
  intros a. simpl. intuition.
Defined.

Lemma insert_sorted_nonempty x l : insert_sorted x l <> [].
Proof.
  destruct l as [|y l]; simpl; [discriminate|].
  destruct (str_ltb x y); [discriminate|].
  destruct (str_eqb x y); discriminate.
Qed.

Lemma filter_truthy_empty (l : list str) :
  filter truthy l = [] <-> existsb truthy l = false.
Proof.
  induction l as [|x l IH]; simpl; [tauto|].
  destruct (truthy x); simpl; [split; discriminate|exact IH].
Qed.

Lemma join_nonempty sep x parts : x <> [] -> join sep (x :: parts) <> [].
Proof.
  intros Hx. destruct x as [|c x]; [congruence|].
  destruct parts; simpl; discriminate.
Qed.

(** The alias string is empty exactly when every alias is empty. *)
Lemma aliases_str_truthy aliases :
  truthy (firstn 120 (join (lit ", ") (sorted_set (filter truthy aliases))))
  = existsb truthy aliases.
Proof.
  destruct (existsb truthy aliases) eqn:E.
  - assert (Hne : filter truthy aliases <> []).
    { intros H. apply filter_truthy_empty in H. congruence. }
    pose proof (forallb_sorted_set truthy (filter truthy aliases)
                  (forallb_filter_kept _ _ _)) as Hall.
    destruct (filter truthy aliases) as [|a l] eqn:Ef; [congruence|].
    destruct (sorted_set (a :: l)) as [|y ys] eqn:Es.
    { simpl in Es. now apply insert_sorted_nonempty in Es. }
    simpl in Hall. apply andb_true_iff in Hall. destruct Hall as [Hy _].
    destruct y as [|c y]; [discriminate|].
    destruct ys; reflexivity.
  - apply filter_truthy_empty in E. now rewrite E.
Qed.

(** The metadata block is three fields, an alias field when at least one
    alias is not empty, and an empty line, each ended by a line feed; the
    section field is the stack joined by " > ", or the document title for an
    empty stack; the alias string has at most 120 characters. *)
Theorem metadata_block_layout :
  forall (doc_title rel_path : str) (breadcrumb aliases : list str),
    let section :=
      if truthy breadcrumb then join (lit " > ") breadcrumb else doc_title in
    let aliases_str :=
      firstn 120 (join (lit ", ") (sorted_set (filter truthy aliases))) in
    build_header_block doc_title rel_path breadcrumb aliases
    = lines_text
        ([lit "[DocTitle: " ++ doc_title ++ lit "]";
          lit "[Path: " ++ rel_path ++ lit "]";
          lit "[Section: " ++ section ++ lit "]"]
         ++ (if existsb truthy aliases
             then [lit "[Aliases: " ++ aliases_str ++ lit "]"] else [])
         ++ [[]]) /\
    length aliases_str <= 120 /\
    (aliases_str = [] <-> existsb truthy aliases = false).
Proof.
  intros doc_title rel_path breadcrumb aliases section aliases_str.
  pose proof (aliases_str_truthy aliases) as Ht. fold aliases_str in Ht.
  split; [|split].
  - unfold build_header_block. fold section. fold aliases_str.
    rewrite Ht. destruct (existsb truthy aliases);
      unfold lines_text; cbn [app map concat join];
      rewrite <- ?app_assoc; cbn [app]; rewrite ?app_nil_r;
      repeat (rewrite <- ?app_assoc; cbn [app]); reflexivity.
  - unfold aliases_str. apply firstn_le_length.
  - rewrite <- Ht. destruct aliases_str; simpl; split; congruence.
Qed.

(* ================================================================== *)
(** ** slug *)
(* ================================================================== *)

Lemma sub_dash_cons c s :
  sub_dash (c :: s) =
  if is_slug_chr c then c :: sub_dash s
  else match s with
       | c' :: _ => if is_slug_chr c' then "-"%char :: sub_dash s else sub_dash s
       | [] => ["-"%char]
       end.
Proof. reflexivity. Qed.

Lemma single_dashes_cons c s :
  single_dashes (c :: s) =
  (is_slug_chr c
   || (chr_eqb "-" c
       && match s with c' :: _ => is_slug_chr c' | [] => true end))
  && single_dashes s.
Proof. reflexivity. Qed.

Lemma dashes_inside_cons c s :
  dashes_inside (c :: s) =
  (is_slug_chr c
   || (chr_eqb "-" c
       && match s with c' :: _ => is_slug_chr c' | [] => false end))
  && dashes_inside s.
Proof. reflexivity. Qed.

Lemma single_dashes_sub_dash s : single_dashes (sub_dash s) = true.
Proof.
  induction s as [|c s IH]; [reflexivity|].
  rewrite sub_dash_cons. destruct (is_slug_chr c) eqn:Ec.
  - now rewrite single_dashes_cons, Ec, IH.
  - destruct s as [|c' s']; [reflexivity|].
    destruct (is_slug_chr c') eqn:Ec'; [|exact IH].
    rewrite single_dashes_cons, IH, andb_true_r.
    rewrite sub_dash_cons, Ec'. rewrite Ec'. rewrite chr_eqb_refl.
    apply orb_true_r.
Qed.

Lemma single_dashes_drop_while p s :
  single_dashes s = true -> single_dashes (drop_while p s) = true.
Proof.
  induction s as [|c s IH]; [auto|]. intros H. cbn [drop_while].
  destruct (p c); [|exact H].
  rewrite single_dashes_cons in H. apply andb_true_iff in H. now apply IH.
Qed.

Lemma single_dashes_chars s :
  single_dashes s = true ->
  forallb (fun c => is_slug_chr c || chr_eqb "-" c) s = true.
Proof.
  induction s as [|c s IH]; [auto|].
  rewrite single_dashes_cons. intros H. apply andb_true_iff in H.
  destruct H as [Hc Hs]. simpl. rewrite (IH Hs), andb_true_r.
  destruct (is_slug_chr c); [reflexivity|]. simpl in *.
  apply andb_true_iff in Hc. tauto.
Qed.

(** What [rstrip(c)] cuts off a text. *)
Lemma rstrip_chr_decompose c s :
  exists cut, s = rstrip_chr c s ++ cut /\ forallb (chr_eqb c) cut = true.
Proof.
  unfold rstrip_chr.
  destruct (drop_while_suffix (chr_eqb c) (rev s)) as (pre & E & Hp).
  exists (rev pre). split.
  - rewrite <- rev_app_distr, <- E. now rewrite rev_involutive.
  - now rewrite forallb_rev.
Qed.

Lemma rstrip_chr_last c s r x :
  rstrip_chr c s = r ++ [x] -> chr_eqb c x = false.
Proof.
  unfold rstrip_chr. intros H. apply (f_equal (@rev ascii)) in H.
  rewrite rev_involutive, rev_app_distr in H. simpl in H.
  eapply drop_while_head; eauto.
Qed.

Lemma dash_is_no_slug_chr c : chr_eqb "-" c = true -> is_slug_chr c = false.
Proof. all_chars c. Qed.

(** A prefix of a text of single dashes that does not end with a dash has
    its dashes inside. *)
Lemma dashes_inside_prefix r : forall cut,
  single_dashes (r ++ cut) = true ->
  (forall r' x, r = r' ++ [x] -> chr_eqb "-" x = false) ->
  dashes_inside r = true.
Proof.
  induction r as [|c r IH]; intros cut H Hlast; [reflexivity|].
  change ((c :: r) ++ cut) with (c :: (r ++ cut)) in H.
  rewrite single_dashes_cons in H. apply andb_true_iff in H.
  destruct H as [Hc Hs]. rewrite dashes_inside_cons.
  rewrite (IH cut Hs), andb_true_r.
  - destruct (is_slug_chr c) eqn:Ec; [reflexivity|]. simpl in *.
    apply andb_true_iff in Hc. destruct Hc as [Hd Hnext]. rewrite Hd. simpl.
    destruct r as [|c' r]; [|exact Hnext].
    rewrite (Hlast [] c eq_refl) in Hd. discriminate.
  - intros r' x ->. apply (Hlast (c :: r') x). reflexivity.
Qed.

Lemma slug_is_shaped s : slug_shaped (slug s) = true.
Proof.
  unfold slug, strip_chr.
  set (d := sub_dash (lower s)).
  set (t := drop_while (chr_eqb "-") d).
  assert (Ht : single_dashes t = true)
    by (apply single_dashes_drop_while, single_dashes_sub_dash).
  assert (Hhead : forall c t', t = c :: t' -> chr_eqb "-" c = false)
    by (intros c t' E; eapply drop_while_head; eauto).
  destruct (rstrip_chr_decompose "-" t) as (cut & E & Hcut).
  set (r := rstrip_chr "-" t) in *.
  unfold slug_shaped. apply andb_true_iff. split.
  - apply (dashes_inside_prefix r cut); [now rewrite <- E|].
    intros r' x Er. eapply rstrip_chr_last. exact Er.
  - destruct r as [|c r']; [reflexivity|]. simpl.
    rewrite (Hhead c (r' ++ cut)) by (rewrite E; reflexivity).
    reflexivity.
Qed.

Lemma dashes_inside_single s : dashes_inside s = true -> single_dashes s = true.
Proof.
  induction s as [|c s IH]; [auto|].
  rewrite dashes_inside_cons, single_dashes_cons. intros H.
  apply andb_true_iff in H. destruct H as [Hc Hs]. rewrite (IH Hs), andb_true_r.
  destruct (is_slug_chr c); [reflexivity|]. simpl in *.
  apply andb_true_iff in Hc. destruct Hc as [-> Hn].
  destruct s; [discriminate|exact Hn].
Qed.

Lemma lower_chr_slug c :
  is_slug_chr c || chr_eqb "-" c = true -> lower_chr c = c.
Proof. all_chars c. Qed.

Lemma lower_fixed s :
  forallb (fun c => is_slug_chr c || chr_eqb "-" c) s = true -> lower s = s.
Proof.
  induction s as [|c s IH]; [reflexivity|]. simpl. intros H.
  apply andb_true_iff in H. destruct H as [Hc Hs].
  now rewrite (lower_chr_slug c Hc), (IH Hs).
Qed.

Lemma sub_dash_fixed s : dashes_inside s = true -> sub_dash s = s.
Proof.
  induction s as [|c s IH]; [reflexivity|].
  rewrite dashes_inside_cons. intros H. apply andb_true_iff in H.
  destruct H as [Hc Hs]. rewrite sub_dash_cons, (IH Hs).
  destruct (is_slug_chr c); [reflexivity|]. simpl in Hc.
  apply andb_true_iff in Hc. destruct Hc as [Hd Hn].
  apply chr_eqb_eq in Hd. subst c.
  destruct s as [|c' s]; [discriminate|]. now rewrite Hn.
Qed.

Lemma dashes_inside_last s r x :
  dashes_inside s = true -> s = r ++ [x] -> chr_eqb "-" x = false.
Proof.
  revert s. induction r as [|c r IH]; intros s H ->.
  - simpl in H. rewrite andb_true_r in H.
    destruct (chr_eqb "-" x) eqn:E; [|reflexivity].
    rewrite (dash_is_no_slug_chr _ E) in H. simpl in H.
    rewrite ?andb_false_r in H. discriminate.
  - change ((c :: r) ++ [x]) with (c :: (r ++ [x])) in H.
    rewrite dashes_inside_cons in H. apply andb_true_iff in H.
    destruct H as [_ H]. eapply IH; eauto.
Qed.

Lemma slug_shaped_fixed s : slug_shaped s = true -> slug s = s.
Proof.
  unfold slug_shaped. intros H. apply andb_true_iff in H.
  destruct H as [Hd Hh]. apply negb_true_iff in Hh.
  unfold slug, strip_chr.
  rewrite (lower_fixed s)
    by (apply single_dashes_chars; now apply dashes_inside_single).
  rewrite (sub_dash_fixed s Hd).
  assert (Hl : drop_while (chr_eqb "-") s = s).
  { destruct s as [|c s']; [reflexivity|]. simpl in *.
    rewrite andb_true_r in Hh. now rewrite Hh. }
  rewrite Hl. unfold rstrip_chr.
  destruct s as [|c0 s0]; [reflexivity|].
  destruct (@exists_last _ (c0 :: s0)) as (r & x & E); [discriminate|].
  rewrite E, rev_app_distr. simpl.
  rewrite (dashes_inside_last _ r x Hd E).
  change (x :: rev r) with ([x] ++ rev r).
  now rewrite rev_app_distr, rev_involutive.
Qed.

(** [slug] returns lower-case letters, digits and dashes only, and no dash
    stands first, last or next to another dash. *)
Theorem slug_output_shape :
  forall s : str,
    forallb (fun c => is_slug_chr c || chr_eqb "-" c) (slug s) = true /\
    slug_shaped (slug s) = true /\
    startswith (slug s) ["-"%char] = false /\
    startswith (rev (slug s)) ["-"%char] = false /\
    contains (slug s) (lit "--") = false.
Proof.
  intros s. pose proof (slug_is_shaped s) as H.
  pose proof H as H'. unfold slug_shaped in H'.
  apply andb_true_iff in H'. destruct H' as [Hd Hh].
  apply negb_true_iff in Hh. repeat split; auto.
  - apply single_dashes_chars. now apply dashes_inside_single.
  - destruct (slug s) as [|c0 s0] eqn:E; [reflexivity|].
    destruct (@exists_last _ (c0 :: s0)) as (r & x & Er); [discriminate|].
    rewrite Er, rev_app_distr. simpl.
    rewrite (dashes_inside_last _ r x Hd Er). reflexivity.
  - clear H Hh. induction (slug s) as [|c t IH]; [reflexivity|].
    rewrite dashes_inside_cons in Hd. apply andb_true_iff in Hd.
    destruct Hd as [Hc Ht]. cbn [contains]. rewrite (IH Ht), orb_false_r.
    simpl. destruct (chr_eqb "-" c) eqn:Ec; [|reflexivity].
    rewrite (dash_is_no_slug_chr _ Ec) in Hc. simpl in Hc.
    destruct t as [|c' t']; [reflexivity|]. simpl.
    destruct (chr_eqb "-" c') eqn:Ec'; [|reflexivity].
    now rewrite (dash_is_no_slug_chr _ Ec') in Hc.
Qed.

(** [slug] is idempotent. *)
Theorem slug_idempotent : forall s : str, slug (slug s) = slug s.
Proof. intros s. apply slug_shaped_fixed, slug_is_shaped. Qed.

Example slug_examples :
  slug (lit "  Hello, World!  ") = lit "hello-world" /\
  slug (lit "--A--b--") = lit "a-b" /\
  slug (lit "!!!") = [] /\
  slug [] = [].
Proof. vm_compute. repeat split. Qed.

(* ================================================================== *)
(** ** The characters of the extracted text *)
(* ================================================================== *)

Lemma upper_not_space_chr c : is_upper c = true -> is_space c = false.
Proof. all_chars c. Qed.

Lemma upper_space_alpha_space_or c :
  is_upper c = true -> alpha_space c = true /\ upper_space c = true.
Proof. all_chars c. Qed.

(** The text of a bold heading holds no star; the text of a colon heading
    holds letters and white space only, at least five characters, the first
    an upper-case letter; the text of an all-caps heading holds upper-case
    letters and white space only and no word of the denylist. *)
Theorem heading_text_characters :
  forall (line : str) (k : pattern_type) (text : str) (m : list str),
    check_header_patterns line = Some (k, text, m) ->
    match k with
    | bold => forallb not_star text = true
    | colon =>
        forallb alpha_space text = true /\ 5 <= length text /\
        (exists c t, text = c :: t /\ is_upper c = true)
    | allcaps =>
        forallb upper_space text = true /\
        existsb (fun word => contains text word) common_non_headers = false /\
        length (split text) <= 6
    | _ => True
    end.
Proof.
  intros line k text m Hc. apply check_header_patterns_accepts in Hc.
  destruct k; try exact I; unfold accepts in Hc.
  - destruct (match_items BOLD_HEADING_RE line) as [m0|] eqn:E;
      [|discriminate]. injection Hc as <- <-.
    apply match_items_taken in E. unfold BOLD_HEADING_RE in E. taken_all.
    apply forallb_strip. unfold pieces. simpl. now rewrite app_nil_r.
  - destruct (match_items COLON_HEADING_RE line) as [m0|] eqn:E;
      [|discriminate].
    destruct (_ && _) eqn:Ef; [|discriminate]. injection Hc as <- <-.
    apply andb_true_iff in Ef. destruct Ef as [Hlen _].
    apply Nat.leb_le in Hlen.
    apply match_items_taken in E. unfold COLON_HEADING_RE in E. taken_all.
    match goal with
    | H : forallb is_upper ?p = true, Hl : 1 <= length ?p |- _ =>
        destruct p as [|u p']; [simpl in Hl; lia|];
        simpl in H; apply andb_true_iff in H; destruct H as [Hu Hp']
    end.
    assert (Hall : forallb alpha_space
                     (pieces ((u :: p') :: piece0 :: piece1 :: piece2 :: []) 0 2)
                   = true).
    { unfold pieces. simpl. rewrite app_nil_r.
      rewrite (proj1 (upper_space_alpha_space_or u Hu)). simpl.
      rewrite forallb_app. apply andb_true_iff. split; [|assumption].
      eapply forallb_impl; [|exact Hp'].
      intros c Hcu. apply (upper_space_alpha_space_or c Hcu). }
    repeat split.
    + now apply forallb_strip.
    + exact Hlen.
    + unfold strip, lstrip, pieces. simpl.
      rewrite (upper_not_space_chr u Hu).
      set (rest := p' ++ piece0 ++ []).
      destruct (rstrip (u :: rest)) as [|c t] eqn:Er.
      * exfalso. unfold strip, lstrip, pieces in Hlen. simpl in Hlen.
        rewrite (upper_not_space_chr u Hu) in Hlen. fold rest in Hlen.
        rewrite Er in Hlen. simpl in Hlen. lia.
      * exists c, t. split; [reflexivity|].
        unfold rstrip in Er.
        destruct (drop_while_suffix is_space (rev (u :: rest)))
          as (pre & Epre & _).
        apply (f_equal (@rev ascii)) in Epre.
        rewrite rev_involutive, rev_app_distr, Er in Epre.
        simpl in Epre. injection Epre as <- _. exact Hu.
  - destruct (match_items ALLCAPS_HEADING_RE line) as [m0|] eqn:E;
      [|discriminate].
    destruct (_ && _) eqn:Ef; [|discriminate]. injection Hc as <- <-.
    apply andb_true_iff in Ef. destruct Ef as [Hdeny Hwords].
    apply negb_true_iff in Hdeny. apply Nat.leb_le in Hwords.
    apply match_items_taken in E. unfold ALLCAPS_HEADING_RE in E. taken_all.
    repeat split; auto.
    apply forallb_strip. unfold pieces. simpl. rewrite app_nil_r.
    rewrite forallb_app. apply andb_true_iff. split; [|assumption].
    eapply forallb_impl; [|eassumption].
    intros c Hcu. apply (upper_space_alpha_space_or c Hcu).
Qed.

Lemma heading_text_characters_witness :
  forallb alpha_space (lit "Action items") = true /\
  5 <= length (lit "Action items") /\
  (exists c t, lit "Action items" = c :: t /\ is_upper c = true).
Proof.
  apply (heading_text_characters (lit "Action items:") colon
           (lit "Action items") [lit "A"; lit "ction items"; lit ":"; []]).
  vm_compute. reflexivity.
Defined.

(* ================================================================== *)
(** ** A line of a document and the text returned *)
(* ================================================================== *)

(** Two elements of [out] that follow each other, neither empty. *)
Lemma finish_two_elements o1 x b o2 :
  x <> [] -> b <> [] ->
  exists rest,
    finish (o1 ++ x :: b :: o2)
    = lines_text o1 ++ x ++ [LF] ++ b ++ [LF] ++ rest.
Proof.
  intros Hx Hb.
  destruct (finish_element (o1 ++ [x]) b o2 Hb) as (rest & E).
  exists rest. rewrite <- app_assoc in E. simpl in E. rewrite E.
  rewrite lines_text_snoc, <- !app_assoc. reflexivity.
Qed.

(** The heading step of a classified line of a document. *)
Lemma classified_line_in_document md_text rel_path file_stem pre line post info :
  splitlines md_text = pre ++ line :: post ->
  check_header_patterns line = Some info ->
  exists before st,
    trace_of md_text rel_path file_stem
    = before ++ Heading (on_heading rel_path st line post info)
             :: run rel_path
                  (hs_state (on_heading rel_path st line post info)) post /\
    length before = length pre.
Proof.
  intros Hsplit Hc. unfold trace_of. rewrite Hsplit.
  destruct (run_app rel_path pre (State [] file_stem) (line :: post))
    as (before & st & E & Hlen).
  exists before, st. rewrite E. cbn [run]. rewrite Hc. auto.
Qed.

Lemma out_of_heading before h after :
  out_of (before ++ Heading h :: after)
  = out_of before ++ emitted (Heading h) ++ out_of after.
Proof. rewrite out_of_app. reflexivity. Qed.

(** C9.  In the text that [process_markdown] returns, the header line of a
    line classified as bold, colon, date, numbered or allcaps is [level]
    hash signs, one blank and the extracted text as it is, at the place of
    the line.  For the colon kind the text holds no colon (the group of the
    colon pattern admits letters and white space only), so stripping the
    final colons changes nothing. *)
Theorem C9_converted_header_level_blank_text :
  forall (md_text rel_path file_stem : str) (pre : list str) (line : str)
         (post : list str) (info : header_info),
    splitlines md_text = pre ++ line :: post ->
    check_header_patterns line = Some info ->
    fst (fst info) <> markdown ->
    exists before st rest,
      let h := on_heading rel_path st line post info in
      let header := hashes (hs_level h) ++ [SP] ++ snd (fst info) in
      trace_of md_text rel_path file_stem
        = before ++ Heading h :: run rel_path (hs_state h) post /\
      length before = length pre /\
      hs_text h = snd (fst info) /\
      (emitted (Heading h) = [header] \/
       exists block, emitted (Heading h) = [header; block]) /\
      process_markdown md_text rel_path file_stem
        = lines_text (out_of before) ++ header ++ [LF] ++ rest /\
      (fst (fst info) = colon ->
       ~ In ":"%char (snd (fst info)) /\
       rstrip_chr ":" (snd (fst info)) = snd (fst info)).
Proof.
  intros md_text rel_path file_stem pre line post info Hsplit Hc Hk.
  destruct (classified_line_in_document md_text rel_path file_stem pre line
              post info Hsplit Hc) as (before & st & Etrace & Hlen).
  pose proof (converted_header_step rel_path st line post info Hc Hk)
    as [Hheader Hcolon].
  cbv zeta in Hheader, Hcolon.
  set (h := on_heading rel_path st line post info) in *.
  assert (Htext : hs_text h = snd (fst info))
    by (destruct info as [[k text] m]; reflexivity).
  assert (Hkind : hs_kind h = fst (fst info))
    by (destruct info as [[k text] m]; reflexivity).
  rewrite Htext in Hheader, Hcolon. rewrite Hkind in Hcolon.
  assert (Hne : hs_header h <> [])
    by (unfold h; now apply header_nonempty).
  destruct (finish_element (out_of before) (hs_header h)
              (match hs_block h with Some b => [b] | None => [] end
               ++ out_of (run rel_path (hs_state h) post)) Hne)
    as (rest & Hrest).
  exists before, st, rest. cbv zeta. fold h.
  rewrite <- Hheader. repeat split; auto.
  - unfold emitted. destruct (hs_block h); eauto.
  - unfold process_markdown. rewrite Etrace, out_of_heading.
    unfold emitted at 1. exact Hrest.
  - now apply Hcolon.
  - now apply Hcolon.
Qed.

Lemma C9_witness :
  exists before st rest,
    let h := on_heading (lit "a.md") st (lit "Meeting:") [lit "- discuss budget"]
               (colon, lit "Meeting", [lit "M"; lit "eeting"; lit ":"; []]) in
    let header := hashes (hs_level h) ++ [SP] ++ lit "Meeting" in
    trace_of (doc ["notes"; "Meeting:"; "- discuss budget"]%string)
             (lit "a.md") (lit "a")
      = before ++ Heading h
               :: run (lit "a.md") (hs_state h) [lit "- discuss budget"] /\
    length before = 1 /\
    hs_text h = lit "Meeting" /\
    (emitted (Heading h) = [header] \/
     exists block, emitted (Heading h) = [header; block]) /\
    process_markdown (doc ["notes"; "Meeting:"; "- discuss budget"]%string)
                     (lit "a.md") (lit "a")
      = lines_text (out_of before) ++ header ++ [LF] ++ rest /\
    (colon = colon ->
     ~ In ":"%char (lit "Meeting") /\
     rstrip_chr ":" (lit "Meeting") = lit "Meeting").
Proof.
  apply (C9_converted_header_level_blank_text
           (doc ["notes"; "Meeting:"; "- discuss budget"]%string)
           (lit "a.md") (lit "a") [lit "notes"] (lit "Meeting:")
           [lit "- discuss budget"]
           (colon, lit "Meeting", [lit "M"; lit "eeting"; lit ":"; []])).
  - vm_compute. reflexivity.
  - vm_compute. reflexivity.
  - simpl. discriminate.
Defined.

(** C10.  A line of the numbered pattern is classified as a numbered heading
    exactly when the title after the number, stripped, has at least five
    characters: the filter does not count the number.  The extracted text
    is the number, a full stop, a blank and the title.  This text stands
    after the hash signs in the header line of the text returned, is the
    title pushed on the breadcrumb stack, and is the text from which the
    aliases of the metadata block written after the header are taken. *)
Theorem C10_numbered_text_keeps_number :
  forall (md_text rel_path file_stem : str) (pre : list str) (line : str)
         (post : list str) (m : list str),
    splitlines md_text = pre ++ line :: post ->
    match_items NUMBERED_HEADING_RE line = Some m ->
    let number := pieces m 0 1 in
    let title := strip (pieces m 3 2) in
    let text := number ++ lit ". " ++ title in
    (1 <= length number <= 2 /\ forallb is_digit number = true) /\
    (length title < 5 -> check_header_patterns line = None) /\
    (5 <= length title ->
     check_header_patterns line = Some (numbered, text, m) /\
     exists before st rest,
       let h := on_heading rel_path st line post (numbered, text, m) in
       let header := hashes (hs_level h) ++ [SP] ++ text in
       let block :=
         build_header_block (doc_title (hs_state h)) rel_path
           (breadcrumb (hs_state h)) (guess_aliases_from_heading text) in
       let injected :=
         negb (startswith (next_nonempty post) (lit "[DocTitle:")) in
       trace_of md_text rel_path file_stem
         = before ++ Heading h :: run rel_path (hs_state h) post /\
       length before = length pre /\
       hs_text h = text /\
       last (breadcrumb (hs_state h)) [] = text /\
       emitted (Heading h) = header :: (if injected then [block] else []) /\
       process_markdown md_text rel_path file_stem
         = lines_text (out_of before) ++ header ++ [LF]
           ++ (if injected then block ++ [LF] else []) ++ rest).
Proof.
  intros md_text rel_path file_stem pre line post m Hsplit Hm
         number title text.
  assert (Hstep : forall st,
            (1 <= length number <= 2 /\ forallb is_digit number = true) /\
            (length title < 5 -> check_header_patterns line = None) /\
            (5 <= length title ->
             check_header_patterns line = Some (numbered, text, m) /\
             let h := on_heading rel_path st line post (numbered, text, m) in
             hs_text h = text /\
             hs_header h = hashes (hs_level h) ++ [SP] ++ text /\
             last (breadcrumb (hs_state h)) [] = text /\
             hs_block h =
               if startswith (next_nonempty post) (lit "[DocTitle:") then None
               else Some (build_header_block (doc_title (hs_state h)) rel_path
                            (breadcrumb (hs_state h))
                            (guess_aliases_from_heading text))))
    by (intros st; exact (numbered_heading_step rel_path st line post m Hm)).
  destruct (Hstep (State [] file_stem)) as (Hnum & Hshort & Hlong0).
  split; [exact Hnum|]. split; [exact Hshort|].
  intros Hlen5. destruct (Hlong0 Hlen5) as [Hc _]. split; [exact Hc|].
  destruct (classified_line_in_document md_text rel_path file_stem pre line
              post (numbered, text, m) Hsplit Hc)
    as (before & st & Etrace & Hlen).
  destruct (Hstep st) as (_ & _ & Hlong).
  destruct (Hlong Hlen5) as (_ & Htext & Hheader & Hlast & Hblock).
  cbv zeta in Htext, Hheader, Hlast, Hblock.
  set (h := on_heading rel_path st line post (numbered, text, m)) in *.
  set (block := build_header_block (doc_title (hs_state h)) rel_path
                  (breadcrumb (hs_state h)) (guess_aliases_from_heading text))
    in *.
  assert (Hne : hs_header h <> [])
    by (unfold h; now apply header_nonempty).
  assert (Hemit : emitted (Heading h)
                  = hs_header h
                    :: (if negb (startswith (next_nonempty post)
                                   (lit "[DocTitle:"))
                        then [block] else [])).
  { unfold emitted. rewrite Hblock. now destruct (startswith _ _). }
  assert (Hout : exists rest,
            finish (out_of before ++ emitted (Heading h)
                    ++ out_of (run rel_path (hs_state h) post))
            = lines_text (out_of before) ++ hs_header h ++ [LF]
              ++ (if negb (startswith (next_nonempty post) (lit "[DocTitle:"))
                  then block ++ [LF] else []) ++ rest).
  { rewrite Hemit. destruct (startswith (next_nonempty post) (lit "[DocTitle:"));
      cbn [negb app].
    - apply finish_element. exact Hne.
    - destruct (finish_two_elements (out_of before) (hs_header h) block
                  (out_of (run rel_path (hs_state h) post)) Hne)
        as (rest & E); [apply block_nonempty|].
      exists rest. rewrite E. now rewrite <- !app_assoc. }
  destruct Hout as (rest & Hout).
  exists before, st, rest. cbv zeta. fold h. fold block.
  rewrite <- Hheader. repeat split; auto.
  unfold process_markdown. now rewrite Etrace, out_of_heading.
Qed.

Lemma C10_witness :
  (1 <= length (lit "12") <= 2 /\ forallb is_digit (lit "12") = true) /\
  (length (lit "Next Steps") < 5 ->
   check_header_patterns (lit "12. Next Steps") = None) /\
  (5 <= length (lit "Next Steps") ->
   check_header_patterns (lit "12. Next Steps")
   = Some (numbered, lit "12. Next Steps",
           [lit "12"; lit "."; lit " "; lit "N"; lit "ext Steps"]) /\
   exists before st rest,
     let h := on_heading (lit "a.md") st (lit "12. Next Steps") [lit "text"]
                (numbered, lit "12. Next Steps",
                 [lit "12"; lit "."; lit " "; lit "N"; lit "ext Steps"]) in
     let header := hashes (hs_level h) ++ [SP] ++ lit "12. Next Steps" in
     let block :=
       build_header_block (doc_title (hs_state h)) (lit "a.md")
         (breadcrumb (hs_state h))
         (guess_aliases_from_heading (lit "12. Next Steps")) in
     trace_of (doc ["# Plan"; "12. Next Steps"; "text"]%string)
              (lit "a.md") (lit "a")
       = before ++ Heading h :: run (lit "a.md") (hs_state h) [lit "text"] /\
     length before = 1 /\
     hs_text h = lit "12. Next Steps" /\
     last (breadcrumb (hs_state h)) [] = lit "12. Next Steps" /\
     emitted (Heading h) = [header; block] /\
     process_markdown (doc ["# Plan"; "12. Next Steps"; "text"]%string)
                      (lit "a.md") (lit "a")
       = lines_text (out_of before) ++ header ++ [LF]
         ++ (block ++ [LF]) ++ rest).
Proof.
  apply (C10_numbered_text_keeps_number
           (doc ["# Plan"; "12. Next Steps"; "text"]%string)
           (lit "a.md") (lit "a") [lit "# Plan"] (lit "12. Next Steps")
           [lit "text"]
           [lit "12"; lit "."; lit " "; lit "N"; lit "ext Steps"]).
  - vm_compute. reflexivity.
  - vm_compute. reflexivity.
Defined.

(* ================================================================== *)
(** ** The line feeds at the end of the text returned *)
(* ================================================================== *)

Lemma exactly_one_after a c :
  ends_in_exactly_one_newline (a ++ [c; LF]) = negb (chr_eqb c LF).
Proof.
  unfold ends_in_exactly_one_newline. rewrite rev_app_distr. reflexivity.
Qed.

Lemma not_linebreak_not_LF c :
  negb (is_linebreak c) = true -> chr_eqb c LF = false.
Proof. all_chars c. Qed.

Lemma line_last_chr l :
  l <> [] -> no_linebreak l = true ->
  exists l' c, l = l' ++ [c] /\ chr_eqb c LF = false.
Proof.
  intros Hl Hnl. destruct (@exists_last _ l Hl) as (l' & c & ->).
  exists l', c. split; [reflexivity|].
  unfold no_linebreak in Hnl. rewrite forallb_app in Hnl.
  apply andb_true_iff in Hnl. destruct Hnl as [_ Hc]. simpl in Hc.
  rewrite andb_true_r in Hc. now apply not_linebreak_not_LF.
Qed.

(** The text of lines the last of which is not empty ends in one line feed
    only. *)
Lemma exactly_one_after_line o l :
  l <> [] -> no_linebreak l = true ->
  ends_in_exactly_one_newline (lines_text o ++ l ++ [LF]) = true.
Proof.
  intros Hl Hnl. destruct (line_last_chr l Hl Hnl) as (l' & c & -> & Hc).
  rewrite <- app_assoc. simpl. rewrite app_assoc, exactly_one_after.
  now rewrite Hc.
Qed.

(** The text of lines followed by a metadata block ends in three line
    feeds. *)
Lemma not_exactly_one_after_block o doc_title rel_path breadcrumb aliases :
  ends_in_exactly_one_newline
    (lines_text o
     ++ build_header_block doc_title rel_path breadcrumb aliases ++ [LF])
  = false.
Proof.
  rewrite build_header_block_lines.
  set (j := join [LF] (block_lines doc_title rel_path breadcrumb aliases)).
  replace (lines_text o ++ (j ++ [LF; LF]) ++ [LF])
    with ((lines_text o ++ j ++ [LF]) ++ [LF; LF])
    by (rewrite <- !app_assoc; reflexivity).
  rewrite exactly_one_after. reflexivity.
Qed.

Lemma emitted_nonempty e : emitted e <> [].
Proof. destruct e; simpl; discriminate. Qed.

Lemma out_of_nonempty trace : trace <> [] -> out_of trace <> [].
Proof.
  destruct trace as [|e trace]; [congruence|]. intros _ E.
  unfold out_of in E. simpl in E. apply app_eq_nil in E.
  now apply (emitted_nonempty e).
Qed.

Lemma heading_step_last_block rel_path st line info :
  forall following, next_nonempty following = [] ->
  emitted (Heading (on_heading rel_path st line following info))
  = [hs_header (on_heading rel_path st line following info);
     build_header_block
       (doc_title (hs_state (on_heading rel_path st line following info)))
       rel_path
       (breadcrumb (hs_state (on_heading rel_path st line following info)))
       (guess_aliases_from_heading
          (hs_text (on_heading rel_path st line following info)))].
Proof.
  intros following Hnext. unfold emitted.
  rewrite on_heading_block_eq, Hnext. reflexivity.
Qed.

Lemma is_heading_nonempty l : is_heading l = true -> l <> [].
Proof. intros H ->. discriminate. Qed.

(** The end of the text made of the output of the loop, by the last lines
    of the input. *)
Lemma finish_run_ends rel_path lines :
  lines_ok lines = true -> lines <> [[]] ->
  forall st,
    ends_in_exactly_one_newline (finish (out_of (run rel_path st lines)))
    = ends_cleanly lines.
Proof.
  intros Hok Hne st.
  destruct lines as [|l0 ls0]; [reflexivity|].
  destruct (@exists_last _ (l0 :: ls0)) as (pre & l & E); [discriminate|].
  rewrite E in *. clear E l0 ls0.
  rewrite lines_ok_app in Hok. apply andb_true_iff in Hok.
  destruct Hok as [Hpre Hl]. rewrite lines_ok_cons in Hl.
  apply andb_true_iff in Hl. destruct Hl as [Hl _].
  unfold ends_cleanly. rewrite rev_app_distr. cbn [rev app].
  destruct l as [|c0 l0].
  - (* the last line is empty *)
    cbn [truthy].
    destruct pre as [|p0 ps0]; [now contradiction Hne|].
    destruct (@exists_last _ (p0 :: ps0)) as (pre' & y & E); [discriminate|].
    rewrite E in *. clear E p0 ps0.
    rewrite lines_ok_app in Hpre. apply andb_true_iff in Hpre.
    destruct Hpre as [_ Hy]. rewrite lines_ok_cons in Hy.
    apply andb_true_iff in Hy. destruct Hy as [Hy _].
    rewrite rev_app_distr. cbn [rev app].
    rewrite <- app_assoc. cbn [app].
    destruct (run_app rel_path pre' st [y; []]) as (before & st' & Er & Hlen).
    rewrite Er. cbn [run]. rewrite check_header_patterns_empty.
    destruct (check_header_patterns y) as [info|] eqn:Hc.
    + assert (Hyh : is_heading y = true) by (unfold is_heading; now rewrite Hc).
      pose proof (is_heading_nonempty _ Hyh) as Hyne.
      replace (truthy y) with true
        by (destruct y; [now contradiction Hyne|reflexivity]).
      rewrite Hyh. cbn [negb].
      rewrite out_of_app. unfold out_of at 2. cbn [flat_map].
      rewrite (heading_step_last_block rel_path st' y info [[]] eq_refl).
      cbn [emitted app].
      match goal with
      | |- context [finish (?o ++ [?hdr; ?blk; []])] =>
          change (o ++ [hdr; blk; []]) with (o ++ [hdr] ++ [blk] ++ [[]]);
          rewrite !app_assoc, finish_snoc, lines_text_snoc
      end.
      cbn [str_eqb app]. rewrite app_nil_r.
      apply not_exactly_one_after_block.
    + assert (Hyh : is_heading y = false) by (unfold is_heading; now rewrite Hc).
      rewrite Hyh. cbn [negb].
      rewrite out_of_app. unfold out_of at 2. cbn [flat_map emitted app].
      change (out_of before ++ [y; []]) with (out_of before ++ [y] ++ [[]]).
      rewrite app_assoc, finish_snoc, lines_text_snoc.
      cbn [str_eqb]. rewrite !app_nil_r.
      destruct y as [|c1 y1].
      * cbn [truthy app].
        destruct pre' as [|q0 qs0].
        -- destruct before; [reflexivity|discriminate].
        -- assert (Hb : before <> [])
             by (intros ->; discriminate).
           destruct (lines_text_rev_head (out_of before)
                       (out_of_nonempty _ Hb)) as (s & Es).
           apply (f_equal (@rev ascii)) in Es. rewrite rev_involutive in Es.
           replace (truthy (rev (q0 :: qs0))) with true
             by (simpl; now destruct (rev qs0)).
           rewrite Es. simpl rev. rewrite <- app_assoc. cbn [app].
           rewrite exactly_one_after, chr_eqb_refl. reflexivity.
      * cbn [truthy]. apply exactly_one_after_line; [discriminate|exact Hy].
  - (* the last line is not empty *)
    cbn [truthy].
    destruct (run_app rel_path pre st [c0 :: l0]) as (before & st' & Er & Hlen).
    rewrite Er. cbn [run].
    destruct (check_header_patterns (c0 :: l0)) as [info|] eqn:Hc.
    + replace (is_heading (c0 :: l0)) with true
        by (unfold is_heading; now rewrite Hc).
      cbn [negb]. rewrite out_of_app. unfold out_of at 2. cbn [flat_map].
      rewrite (heading_step_last_block rel_path st' (c0 :: l0) info [] eq_refl).
      cbn [emitted app].
      match goal with
      | |- context [finish (?o ++ [?hdr; ?blk])] =>
          change (o ++ [hdr; blk]) with (o ++ [hdr] ++ [blk]);
          rewrite app_assoc, finish_snoc
      end.
      replace (str_eqb (build_header_block _ _ _ _) []) with false.
      * apply not_exactly_one_after_block.
      * symmetry.
        match goal with
        | |- str_eqb ?b [] = false =>
            destruct b eqn:Eb; [now apply block_nonempty in Eb|reflexivity]
        end.
    + replace (is_heading (c0 :: l0)) with false
        by (unfold is_heading; now rewrite Hc).
      cbn [negb]. rewrite out_of_app. unfold out_of at 2.
      cbn [flat_map emitted app]. rewrite finish_snoc. cbn [str_eqb].
      apply exactly_one_after_line; [discriminate|exact Hl].
Qed.

(** C3 (as the code has it).  [process_markdown] is a total function: the
    loop recurses on the lines that remain.  Unless the input is a single
    empty line, the text returned ends with a line feed.  It ends in exactly
    one line feed when the last line of the input is not empty and is no
    heading, and also when that line is followed by one empty line, when the
    input is two empty lines, and when it has no line; in every other case
    more line feeds end it: empty lines at the end are passed through, and
    the metadata block of a final heading ends with an empty line. *)
Theorem C3_output_ends_with_newline :
  forall (md_text rel_path file_stem : str),
    splitlines md_text <> [[]] ->
    (exists body, process_markdown md_text rel_path file_stem = body ++ [LF]) /\
    ends_in_exactly_one_newline (process_markdown md_text rel_path file_stem)
    = ends_cleanly (splitlines md_text).
Proof.
  intros md_text rel_path file_stem Hlines. split.
  - now apply output_ends_with_newline.
  - unfold process_markdown, trace_of.
    apply finish_run_ends; [apply splitlines_lines_ok|exact Hlines].
Qed.

Lemma C3_witness :
  (exists body,
      process_markdown (lit "# Title" ++ [LF] ++ lit "last line without newline")
        (lit "a.md") (lit "a") = body ++ [LF]) /\
  ends_in_exactly_one_newline
    (process_markdown (lit "# Title" ++ [LF] ++ lit "last line without newline")
       (lit "a.md") (lit "a")) = true.
Proof.
  apply (C3_output_ends_with_newline
           (lit "# Title" ++ [LF] ++ lit "last line without newline")
           (lit "a.md") (lit "a")).
  vm_compute. discriminate.
Defined.

(* ================================================================== *)
(** ** Lines that are no headings, in the text returned *)
(* ================================================================== *)

(** A line that is not classified is appended to [out] as it is; when it is
    not empty it stands unchanged in the text returned, followed by a line
    feed, after the output of the lines before it. *)
Theorem plain_line_emitted_unchanged :
  forall (md_text rel_path file_stem : str) (pre : list str) (line : str)
         (post : list str),
    splitlines md_text = pre ++ line :: post ->
    check_header_patterns line = None ->
    exists before st,
      trace_of md_text rel_path file_stem
        = before ++ Passed line :: run rel_path st post /\
      length before = length pre /\
      out_of (trace_of md_text rel_path file_stem)
        = out_of before ++ line :: out_of (run rel_path st post) /\
      (line <> [] ->
       exists rest,
         process_markdown md_text rel_path file_stem
         = lines_text (out_of before) ++ line ++ [LF] ++ rest).
Proof.
  intros md_text rel_path file_stem pre line post Hsplit Hc.
  unfold process_markdown, trace_of. rewrite Hsplit.
  destruct (run_app rel_path pre (State [] file_stem) (line :: post))
    as (before & st & E & Hlen).
  exists before, st. rewrite E. cbn [run]. rewrite Hc.
  repeat split; auto.
  - now rewrite out_of_app.
  - intros Hne. rewrite out_of_app. unfold out_of at 2.
    cbn [flat_map emitted app]. now apply finish_element.
Qed.

Lemma plain_line_emitted_unchanged_witness :
  exists before st,
    trace_of (doc ["# Title"; "  indented # text"; "more"]%string)
             (lit "a.md") (lit "a")
      = before ++ Passed (lit "  indented # text")
               :: run (lit "a.md") st [lit "more"] /\
    length before = 1 /\
    out_of (trace_of (doc ["# Title"; "  indented # text"; "more"]%string)
              (lit "a.md") (lit "a"))
      = out_of before ++ lit "  indented # text"
                      :: out_of (run (lit "a.md") st [lit "more"]) /\
    (lit "  indented # text" <> [] ->
     exists rest,
       process_markdown (doc ["# Title"; "  indented # text"; "more"]%string)
                        (lit "a.md") (lit "a")
       = lines_text (out_of before) ++ lit "  indented # text" ++ [LF] ++ rest).
Proof.
  apply (plain_line_emitted_unchanged
           (doc ["# Title"; "  indented # text"; "more"]%string)
           (lit "a.md") (lit "a") [lit "# Title"] (lit "  indented # text")
           [lit "more"]); vm_compute; reflexivity.
Defined.
(* ================================================================== *)
(** ** Examples *)
(* ================================================================== *)

Example classify_examples :
  kind_text (check_header_patterns (lit "## Intro  ")) = Some (markdown, lit "Intro") /\
  kind_text (check_header_patterns (lit "**Overview** ")) = Some (bold, lit "Overview") /\
  kind_text (check_header_patterns (lit "Meeting:")) = Some (colon, lit "Meeting") /\
  kind_text (check_header_patterns (lit "Ok:")) = None /\
  kind_text (check_header_patterns (lit "Http links:")) = None /\
  kind_text (check_header_patterns (lit "2024 03 15")) = Some (date, lit "2024 03 15") /\
  kind_text (check_header_patterns (lit "12. Next Steps")) = Some (numbered, lit "12. Next Steps") /\
  kind_text (check_header_patterns (lit "1. Abcd")) = None /\
  kind_text (check_header_patterns (lit "PROJECT OVERVIEW")) = Some (allcaps, lit "PROJECT OVERVIEW") /\
  kind_text (check_header_patterns (lit "TASK LIST TODAY")) = None /\
  kind_text (check_header_patterns (lit "####### seven")) = None /\
  kind_text (check_header_patterns (lit "plain text")) = None.
Proof. vm_compute. repeat split. Qed.

Example scenario_meeting :
  process_markdown (doc ["Meeting:"; "- discuss budget"]%string)
    (lit "a/b.md") (lit "b")
  = doc ["## Meeting"; "[DocTitle: b]"; "[Path: a/b.md]"; "[Section: Meeting]";
         "[Aliases: Meeting]"; EmptyString; EmptyString; "- discuss budget"]%string.
Proof. vm_compute. reflexivity. Qed.

Example scenario_project :
  process_markdown (doc ["# Project X"; EmptyString; "2024 03 15"]%string)
    (lit "p.md") (lit "p")
  = doc ["# Project X"; "[DocTitle: Project X]"; "[Path: p.md]";
         "[Section: Project X]"; "[Aliases: Project]";
         EmptyString; EmptyString; EmptyString;
         "## 2024 03 15"; "[DocTitle: Project X]"; "[Path: p.md]";
         "[Section: Project X > 2024 03 15]"; "[Aliases: 2024]";
         EmptyString; EmptyString]%string.
Proof. vm_compute. reflexivity. Qed.

